(** * Image-to-song pipeline ([app.py]): a shallow embedding and its properties

    The program is a sequential pipeline over three remote services.  The
    class [ImageSearchApp] has five methods:

    - [_encode_image_to_base64]  (the image loader),
    - [_get_image_description]   (the descriptor, which calls the loader),
    - [_generate_embedding]      (the embedder),
    - [_query_pinecone]          (the matcher),
    - [process_image]            (the orchestrator).

    Every method is translated to a term of an interaction type [prog]:
    a finite tree whose nodes are the calls the method makes to the outside
    (HTTP requests, file reads, the captioning client, the index client,
    [print]) and whose leaves are a returned value or a raised exception.
    [try ... except Exception as e] is a handler on such trees.  A tree is
    run against an environment that answers each call, possibly depending on
    everything that happened before; the run yields the outcome, the object
    state of the application and the trace of calls made.

    The two functions of the Streamlit page, [main] and [display_results],
    are translated in the same way to a type [page], whose calls are those
    of the methods, the Streamlit calls that draw or read a widget, and
    [Image.open]; what the visitor did is a [session]. *)

From Stdlib Require Import List String Ascii NArith ZArith Bool Lia.
From Stdlib Require Import Strings.Byte.
From Stdlib Require Import PrimFloat.
From Stdlib Require DecimalString.
Import ListNotations.

Set Warnings "-register-all,-inexact-float".

Local Open Scope string_scope.
Local Open Scope list_scope.

(** ** Python values and exceptions *)

Definition bytes := list byte.

(** An exception object of class [Exception] or one of its subclasses: the
    class name and the text [str(e)] gives.  Signals outside [Exception]
    ([KeyboardInterrupt], [SystemExit]) are not modelled. *)
Record exn : Type := mkExn { exn_class : string; exn_msg : string }.

(** [str(e)] *)
Definition str_exn (e : exn) : string := exn_msg e.

(** [Exception(msg)] *)
Definition Exception (msg : string) : exn := mkExn "Exception" msg.

(** The result of evaluating a Python expression: a value or a raised
    exception. *)
Inductive outcome (A : Type) : Type :=
| Returned (a : A)
| Raised (e : exn).
Arguments Returned {A} a.
Arguments Raised {A} e.

(** What [response.json()] can produce: the Python image of a JSON text. *)
Inductive pyval : Type :=
| PNone
| PBool (b : bool)
| PInt (z : Z)
| PFloat (f : float)
| PStr (s : string)
| PList (l : list pyval)
| PDict (d : list (string * pyval)).

(** Lookup in a dict built from a JSON object.  The association list holds
    the members in the order they were inserted; a key is held once. *)
Fixpoint dict_get (d : list (string * pyval)) (key : string) : option pyval :=
  match d with
  | [] => None
  | (k, v) :: d' => if String.eqb k key then Some v else dict_get d' key
  end.

(** [repr] of a [str] without quote or backslash characters, as used by
    [str(KeyError(key))]. *)
Definition repr_str (s : string) : string := "'" ++ s ++ "'".

(** The name Python prints for the type of a value. *)
Definition type_name (v : pyval) : string :=
  match v with
  | PNone => "NoneType"
  | PBool _ => "bool"
  | PInt _ => "int"
  | PFloat _ => "float"
  | PStr _ => "str"
  | PList _ => "list"
  | PDict _ => "dict"
  end.

(** [v[key]] for a string literal [key]. *)
Definition subscript_str (v : pyval) (key : string) : outcome pyval :=
  match v with
  | PDict d =>
      match dict_get d key with
      | Some x => Returned x
      | None => Raised (mkExn "KeyError" (repr_str key))
      end
  | PList _ =>
      Raised (mkExn "TypeError" "list indices must be integers or slices, not str")
  | PStr _ =>
      Raised (mkExn "TypeError" "string indices must be integers, not 'str'")
  | _ =>
      Raised (mkExn "TypeError" ("'" ++ type_name v ++ "' object is not subscriptable"))
  end.

(** ** [base64.b64encode] *)

Definition b64_alphabet : string :=
  "ABCDEFGHIJKLMNOPQRSTUVWXYZabcdefghijklmnopqrstuvwxyz0123456789+/".

Definition pad_char : ascii := "="%char.

(** The character of a six-bit value. *)
Definition b64_char (n : N) : ascii :=
  match String.get (N.to_nat (N.land n 63)) b64_alphabet with
  | Some c => c
  | None => pad_char
  end.

(** The 24-bit group of three input bytes. *)
Definition group24 (a b c : byte) : N :=
  N.lor (N.shiftl (Byte.to_N a) 16)
        (N.lor (N.shiftl (Byte.to_N b) 8) (Byte.to_N c)).

Definition sextet (g : N) (i : N) : ascii :=
  b64_char (N.shiftr g (18 - 6 * i)).

Fixpoint b64encode_chars (data : bytes) : list ascii :=
  match data with
  | [] => []
  | [a] =>
      let g := group24 a x00 x00 in
      [sextet g 0; sextet g 1; pad_char; pad_char]
  | [a; b] =>
      let g := group24 a b x00 in
      [sextet g 0; sextet g 1; sextet g 2; pad_char]
  | a :: b :: c :: rest =>
      let g := group24 a b c in
      sextet g 0 :: sextet g 1 :: sextet g 2 :: sextet g 3 :: b64encode_chars rest
  end.

(** [base64.b64encode(data)]: a [bytes] object. *)
Definition b64encode (data : bytes) : bytes :=
  map byte_of_ascii (b64encode_chars data).

(** [b.decode('utf-8')] on bytes below 128, where the decoding is one
    character per byte (the only use in the program is on [b64encode]'s
    result, see [b64encode_is_ascii]). *)
Definition decode_utf8 (b : bytes) : string := string_of_list_byte b.

Definition is_ascii (c : ascii) : bool := (N_of_ascii c <? 128)%N.

(** ** The objects the program exchanges with the outside *)

(** What [requests.get] and [requests.post] return: a response of any status
    (neither function raises on a 4xx or 5xx status).  [resp_json] is what
    the method [response.json()] does on this response: the parsed body, or
    the decoding error when the body is not JSON. *)
Record http_response : Type := mkResponse {
  status_code : Z;
  resp_content : bytes;
  resp_json : outcome pyval
}.

(** The request of [client.chat.completions.create]. *)
Inductive content_part : Type :=
| TextPart (text : string)
| ImageUrlPart (url : string).

Record chat_message : Type := mkMessage {
  role : string;
  content : list content_part
}.

Record chat_request : Type := mkChatRequest {
  chat_model : string;
  messages : list chat_message;
  max_tokens : Z
}.

(** Its response: [response.choices[i].message.content], taken to be a
    [str]. *)
Record chat_choice : Type := mkChoice { message_content : string }.
Record chat_completion : Type := mkCompletion { choices : list chat_choice }.

(** The JSON body of the embedding request. *)
Record embed_payload : Type := mkPayload {
  payload_model : string;
  payload_prompt : string
}.

(** The handle [pinecone.Index(name)] returns. *)
Inductive index_handle : Type := IndexHandle (id : N).

(** One entry of the index's answer: [match.score], [match.metadata].  The
    metadata are what was stored with the record: a dict whose values are
    those of a JSON text, or [None] when the index sent none. *)
Record scored_vector : Type := mkMatch {
  match_id : string;
  score : float;
  metadata : pyval
}.

(** The answer of [index.query]; [results['matches']] is its field
    [qr_matches]. *)
Record query_response : Type := mkQueryResponse {
  qr_matches : list scored_vector;
  namespace : string
}.

(** An open binary stream owned by the caller (Streamlit's uploaded file). *)
Inductive stream : Type := Stream (id : N).

(** The argument of [process_image]: any Python object.  What the program
    inspects is whether it is a [str] and whether it has an attribute
    [read]. *)
Inductive pyobj : Type :=
| ObjStr (s : string)       (* a [str] *)
| ObjFile (f : stream)      (* an object with a [read] attribute *)
| ObjOther (name : string)  (* any other object ([bytes], [os.PathLike], ...) *).

(** What [print] is given. *)
Inductive printed : Type :=
| PrintedVal (v : pyval)
| PrintedMatches (l : list scored_vector).

(** ** Calls and interaction trees *)

(** The calls answered by the world outside the process. *)
Inductive ext_call : Type :=
| RequestsGet (url : string)                    (* [requests.get(url)] *)
| StreamRead (f : stream)                       (* [f.read()] *)
| OpenRead (path : pyobj)                       (* [open(path,'rb')] then [read()] *)
| ChatCreate (req : chat_request)               (* [client.chat.completions.create] *)
| RequestsPost (url : string) (json : embed_payload)   (* [requests.post(url, json=...)] *)
| PineconeIndex (name : string)                 (* [pinecone.Index(name)] *)
| IndexQuery (index : index_handle) (vector : pyval) (top_k : Z)
             (include_metadata : bool)          (* [index.query(...)] *).

Definition ext_resp (c : ext_call) : Type :=
  match c with
  | RequestsGet _ => http_response
  | StreamRead _ => bytes
  | OpenRead _ => bytes
  | ChatCreate _ => chat_completion
  | RequestsPost _ _ => http_response
  | PineconeIndex _ => index_handle
  | IndexQuery _ _ _ _ => query_response
  end.

(** All calls: those to the world, the reads and writes of the attribute
    [self.index], and [print]. *)
Inductive call : Type :=
| Ext (c : ext_call)
| GetSelfIndex                       (* reading [self.index] *)
| SetSelfIndex (h : index_handle)    (* [self.index = h] *)
| Print (o : printed).

Definition resp (c : call) : Type :=
  match c with
  | Ext c => ext_resp c
  | GetSelfIndex => index_handle
  | SetSelfIndex _ => unit
  | Print _ => unit
  end.

(** A method body: it returns, raises, or makes a call and goes on with the
    call's outcome. *)
Inductive prog (A : Type) : Type :=
| Ret (a : A)
| Raise (e : exn)
| Vis (c : call) (k : outcome (resp c) -> prog A).
Arguments Ret {A} a.
Arguments Raise {A} e.
Arguments Vis {A} c k.

Fixpoint bind {A B : Type} (p : prog A) (f : A -> prog B) : prog B :=
  match p with
  | Ret a => f a
  | Raise e => Raise e
  | Vis c k => Vis c (fun r => bind (k r) f)
  end.

(** [try: p except Exception as e: h e] *)
Fixpoint try_except {A : Type} (p : prog A) (h : exn -> prog A) : prog A :=
  match p with
  | Ret a => Ret a
  | Raise e => h e
  | Vis c k => Vis c (fun r => try_except (k r) h)
  end.

(** Lifting a pure evaluation that may raise. *)
Definition lift {A : Type} (o : outcome A) : prog A :=
  match o with
  | Returned a => Ret a
  | Raised e => Raise e
  end.

(** Making a call: its exception, if any, is raised at the call site. *)
Definition perform (c : call) : prog (resp c) := Vis c lift.

Declare Scope prog_scope.
Delimit Scope prog_scope with prog.
Notation "x <- p ;; q" := (bind p (fun x => q))
  (at level 61, p at next level, right associativity) : prog_scope.
Notation "p ;;; q" := (bind p (fun _ => q))
  (at level 61, right associativity) : prog_scope.
Local Open Scope prog_scope.

(** ** Running a tree *)

(** The object [self]: its attribute [index], absent until [__init__] has
    assigned it. *)
Record ImageSearchApp : Type := mkApp { index : option index_handle }.

(** The world: its answer to a call may depend on all calls made so far. *)
Definition environment : Type :=
  list call -> forall c : ext_call, outcome (ext_resp c).

(** The answer to a call and the object state after it. *)
Definition answer (env : environment) (hist : list call) (self : ImageSearchApp)
    (c : call) : outcome (resp c) * ImageSearchApp :=
  match c as c0 return outcome (resp c0) * ImageSearchApp with
  | Ext c' => (env hist c', self)
  | GetSelfIndex =>
      match index self with
      | Some h => (Returned h, self)
      | None =>
          (Raised (mkExn "AttributeError"
                     "'ImageSearchApp' object has no attribute 'index'"), self)
      end
  | SetSelfIndex h => (Returned tt, mkApp (Some h))
  | Print _ => (Returned tt, self)
  end.

(** [run env p hist self]: the outcome of [p] started after the calls [hist]
    on the object [self], the object afterwards, and the calls [p] made, in
    the order it made them. *)
Fixpoint run {A : Type} (env : environment) (p : prog A) (hist : list call)
    (self : ImageSearchApp) : outcome A * ImageSearchApp * list call :=
  match p with
  | Ret a => (Returned a, self, [])
  | Raise e => (Raised e, self, [])
  | Vis c k =>
      let (r, self') := answer env hist self c in
      let '(o, self'', t) := run env (k r) (hist ++ [c]) self' in
      (o, self'', c :: t)
  end.

Definition result_of {A : Type} (x : outcome A * ImageSearchApp * list call) : outcome A :=
  fst (fst x).
Definition self_of {A : Type} (x : outcome A * ImageSearchApp * list call) : ImageSearchApp :=
  snd (fst x).
Definition trace_of {A : Type} (x : outcome A * ImageSearchApp * list call) : list call :=
  snd x.

(** ** The program *)

(** [s.startswith(prefixes)] for a tuple of prefixes. *)
Definition startswith (s : string) (prefixes : list string) : bool :=
  existsb (fun p => String.prefix p s) prefixes.

(** [isinstance(o, str)] *)
Definition isinstance_str (o : pyobj) : bool :=
  match o with ObjStr _ => true | _ => false end.

(** [hasattr(o, 'read')] *)
Definition hasattr_read (o : pyobj) : bool :=
  match o with ObjFile _ => true | _ => false end.

(** The characters of a [str] object (used under [isinstance_str] only). *)
Definition str_value (o : pyobj) : string :=
  match o with ObjStr s => s | _ => "" end.

(** [o.read()] *)
Definition call_read (o : pyobj) : prog bytes :=
  match o with
  | ObjFile f => perform (Ext (StreamRead f))
  | ObjStr _ => Raise (mkExn "AttributeError" "'str' object has no attribute 'read'")
  | ObjOther n =>
      Raise (mkExn "AttributeError" ("'" ++ n ++ "' object has no attribute 'read'"))
  end.

Definition requests_get (url : string) : prog http_response :=
  perform (Ext (RequestsGet url)).

Definition open_read (path : pyobj) : prog bytes :=
  perform (Ext (OpenRead path)).

Definition chat_completions_create (req : chat_request) : prog chat_completion :=
  perform (Ext (ChatCreate req)).

Definition requests_post (url : string) (json : embed_payload) : prog http_response :=
  perform (Ext (RequestsPost url json)).

Definition index_query (index : index_handle) (vector : pyval) (top_k : Z)
    (include_metadata : bool) : prog query_response :=
  perform (Ext (IndexQuery index vector top_k include_metadata)).

Definition print (o : printed) : prog unit := perform (Print o).

(** [l[0]] *)
Definition first_item {A : Type} (l : list A) : outcome A :=
  match l with
  | x :: _ => Returned x
  | [] => Raised (mkExn "IndexError" "list index out of range")
  end.

(** How an f-string renders the result of [os.getenv]. *)
Definition format_getenv (v : option string) : string :=
  match v with Some s => s | None => "None" end.

(** The dict [process_image] returns. *)
Record pipeline_result : Type := mkResult {
  description : string;
  matches : list scored_vector
}.

Definition caption_prompt : string :=
  "Describe this image in detail, focusing on the main elements, mood, and any notable features. The description should be a paragraph and not bullet points. Also, the idea is that, whatever description you generate will be used to find a matching song, so make the description not too technical and efficient for the use case. DO NOT USE QUOTATION MARKS OR APOSTROPHE IN THE OUTPUT!".

(** The request the descriptor sends for an encoded image. *)
Definition caption_request (base64_image : string) : chat_request :=
  {| chat_model := "gpt-4o";
     messages :=
       [ {| role := "user";
            content :=
              [ TextPart caption_prompt;
                ImageUrlPart ("data:image/jpeg;base64," ++ base64_image) ] |} ];
     max_tokens := 300 |}.

(** The exceptions the four [except Exception as e] clauses raise. *)
Definition description_error (e : exn) : exn :=
  Exception ("Error getting image description: " ++ str_exn e).
Definition embedding_error (e : exn) : exn :=
  Exception ("Error generating embedding: " ++ str_exn e).
Definition query_error (e : exn) : exn :=
  Exception ("Error querying Pinecone: " ++ str_exn e).
Definition pipeline_error (e : exn) : exn :=
  Exception ("Error processing image: " ++ str_exn e).

(** [base64.b64encode(image_data).decode('utf-8')] *)
Definition encode_image (image_data : bytes) : string :=
  decode_utf8 (b64encode image_data).

Section App.

(** The module-level global read from the process environment. *)
Variable OLLAMA_HOSTED_VM_PUBLIC_IP : option string.

(** [ImageSearchApp.__init__] *)
Definition __init__ : prog unit :=
  h <- perform (Ext (PineconeIndex "songs")) ;;
  perform (SetSelfIndex h).

Definition _encode_image_to_base64 (image_path : pyobj) : prog string :=
  image_data <-
    (if isinstance_str image_path
        && startswith (str_value image_path) ["http://"; "https://"]
     then
       response <- requests_get (str_value image_path) ;;
       Ret (resp_content response)
     else
       if hasattr_read image_path
       then call_read image_path
       else open_read image_path) ;;
  Ret (encode_image image_data).

(** The [try] block of [_get_image_description]. *)
Definition _get_image_description_try (image_source : pyobj) : prog string :=
  base64_image <- _encode_image_to_base64 image_source ;;
  response <- chat_completions_create (caption_request base64_image) ;;
  choice <- lift (first_item (choices response)) ;;
  Ret (message_content choice).

Definition _get_image_description (image_source : pyobj) : prog string :=
  try_except (_get_image_description_try image_source)
    (fun e => Raise (description_error e)).

Definition embeddings_url : string :=
  "http://" ++ format_getenv OLLAMA_HOSTED_VM_PUBLIC_IP ++ "/api/embeddings".

(** The [try] block of [_generate_embedding]. *)
Definition _generate_embedding_try (text : string) : prog pyval :=
  let url := embeddings_url in
  let payload := {| payload_model := "nomic-embed-text"; payload_prompt := text |} in
  response <- requests_post url payload ;;
  printed_json <- lift (resp_json response) ;;
  print (PrintedVal printed_json) ;;;
  json <- lift (resp_json response) ;;
  lift (subscript_str json "embedding").

Definition _generate_embedding (text : string) : prog pyval :=
  try_except (_generate_embedding_try text)
    (fun e => Raise (embedding_error e)).

(** The [try] block of [_query_pinecone]. *)
Definition _query_pinecone_try (embedding : pyval) (top_k : Z) :
    prog (list scored_vector) :=
  self_index <- perform GetSelfIndex ;;
  results <- index_query self_index embedding top_k true ;;
  Ret (qr_matches results).

Definition _query_pinecone (embedding : pyval) (top_k : Z) : prog (list scored_vector) :=
  try_except (_query_pinecone_try embedding top_k)
    (fun e => Raise (query_error e)).

(** The default of the parameter [top_k] of [_query_pinecone]. *)
Definition default_top_k : Z := 5.

(** The [try] block of [process_image]. *)
Definition process_image_try (image_source : pyobj) : prog pipeline_result :=
  description <- _get_image_description image_source ;;
  embedding <- _generate_embedding description ;;
  results <- _query_pinecone embedding default_top_k ;;
  print (PrintedMatches results) ;;;
  Ret {| description := description; matches := results |}.

Definition process_image (image_source : pyobj) : prog pipeline_result :=
  try_except (process_image_try image_source)
    (fun e => Raise (pipeline_error e)).

End App.

(** ** Observing a run *)

Definition outcome_map {A B : Type} (f : A -> B) (o : outcome A) : outcome B :=
  match o with
  | Returned a => Returned (f a)
  | Raised e => Raised e
  end.

(** The calls by which the loader obtains the bytes. *)
Definition loader_call (c : ext_call) : bool :=
  match c with
  | RequestsGet _ => true
  | StreamRead _ => true
  | OpenRead _ => true
  | _ => false
  end.

(** The request the embedder sends for a text. *)
Definition embed_request (ip : option string) (text : string) : ext_call :=
  RequestsPost (embeddings_url ip)
    {| payload_model := "nomic-embed-text"; payload_prompt := text |}.

(** The bytes a source delivered, by the call that asked for them. *)
Definition payload (c : ext_call) : ext_resp c -> bytes :=
  match c as c0 return ext_resp c0 -> bytes with
  | RequestsGet _ => resp_content
  | StreamRead _ => fun data => data
  | OpenRead _ => fun data => data
  | ChatCreate _ => fun _ => []
  | RequestsPost _ _ => fun _ => []
  | PineconeIndex _ => fun _ => []
  | IndexQuery _ _ _ _ => fun _ => []
  end.

(** The remote calls of the stages after the loader. *)
Definition later_stage_call (c : call) : bool :=
  match c with
  | Ext (ChatCreate _) => true
  | Ext (RequestsPost _ _) => true
  | Ext (IndexQuery _ _ _ _) => true
  | _ => false
  end.

(** *** Trees that do not assign to [self] *)

Definition assigns_self (c : call) : bool :=
  match c with SetSelfIndex _ => true | _ => false end.

Fixpoint read_only {A : Type} (p : prog A) : Prop :=
  match p with
  | Ret _ => True
  | Raise _ => True
  | Vis c k => assigns_self c = false /\ forall r, read_only (k r)
  end.

(** *** Trees that read no stream *)

(** Reading a stream moves its position: its answer depends on the reads
    made before.  The other calls are requests to services. *)
Definition is_stream_read (c : ext_call) : bool :=
  match c with StreamRead _ => true | _ => false end.

Definition reads_stream (c : call) : bool :=
  match c with Ext c' => is_stream_read c' | _ => false end.

Fixpoint stream_free {A : Type} (p : prog A) : Prop :=
  match p with
  | Ret _ => True
  | Raise _ => True
  | Vis c k => reads_stream c = false /\ forall r, stream_free (k r)
  end.

(** The stream a tree reads with its first call, if that call reads one. *)
Definition first_stream {A : Type} (p : prog A) : option stream :=
  match p with
  | Vis (Ext (StreamRead f)) _ => Some f
  | _ => None
  end.

(** A tree that reads no stream after its first call. *)
Definition stream_free_after_first {A : Type} (p : prog A) : Prop :=
  match p with
  | Vis _ k => forall r, stream_free (k r)
  | _ => True
  end.

(** A world whose services answer a request by the request alone, whatever
    was called before.  Nothing is asked of the reads of streams. *)
Definition answers_by_request (env : environment) : Prop :=
  forall (h1 h2 : list call) (c : ext_call),
    is_stream_read c = false -> env h1 c = env h2 c.

(** *** Stages and their failures *)

(** The four stages of the pipeline. *)
Inductive stage : Type := Loader | Descriptor | Embedder | Matcher.

(** The first stage that fails in an invocation, with the exception it
    failed with (before any wrapping), or [None] when all four succeed.
    The loader is the first step of the descriptor's [try] block: the
    descriptor fails when that block raises although the loader returned. *)
Definition first_failure (env : environment) (ip : option string) (src : pyobj)
    (hist : list call) (self : ImageSearchApp) : option (stage * exn) :=
  match run env (_encode_image_to_base64 src) hist self with
  | (Raised e, _, _) => Some (Loader, e)
  | (Returned _, _, _) =>
      match run env (_get_image_description_try src) hist self with
      | (Raised e, _, _) => Some (Descriptor, e)
      | (Returned d, s1, t1) =>
          match run env (_generate_embedding_try ip d) (hist ++ t1) s1 with
          | (Raised e, _, _) => Some (Embedder, e)
          | (Returned v, s2, t2) =>
              match run env (_query_pinecone_try v default_top_k)
                      (hist ++ t1 ++ t2) s2 with
              | (Raised e, _, _) => Some (Matcher, e)
              | (Returned _, _, _) => None
              end
          end
      end
  end.

(** The text the method enclosing a stage puts before the cause's message. *)
Definition stage_prefix (st : stage) : string :=
  match st with
  | Loader => "Error getting image description: "
  | Descriptor => "Error getting image description: "
  | Embedder => "Error generating embedding: "
  | Matcher => "Error querying Pinecone: "
  end.

(** The exceptions [_generate_embedding] lets out: those its [except]
    clause builds. *)
Definition EmbeddingError (x : exn) : Prop := exists e, x = embedding_error e.

(** *** Properties of the data returned *)

Definition quotation_mark : ascii := ascii_of_nat 34.
Definition apostrophe : ascii := ascii_of_nat 39.

Definition forbidden (c : ascii) : bool :=
  Ascii.eqb c quotation_mark || Ascii.eqb c apostrophe.

(** Whether a text holds a quotation mark or an apostrophe. *)
Fixpoint has_forbidden (s : string) : bool :=
  match s with
  | EmptyString => false
  | String c s' => forbidden c || has_forbidden s'
  end.

(** Scores from the highest to the lowest. *)
Fixpoint sorted_desc (l : list scored_vector) : bool :=
  match l with
  | [] => true
  | a :: tl =>
      match tl with
      | [] => true
      | b :: _ => PrimFloat.leb (score b) (score a) && sorted_desc tl
      end
  end.

(** ** Scripted environments *)

(** An environment in which every service answers by a fixed function of the
    request, whatever happened before: what a test double does. *)
Record script : Type := mkScript {
  on_get : string -> outcome http_response;
  on_read : stream -> outcome bytes;
  on_open : pyobj -> outcome bytes;
  on_chat : chat_request -> outcome chat_completion;
  on_post : string -> embed_payload -> outcome http_response;
  on_index : string -> outcome index_handle;
  on_query : index_handle -> pyval -> Z -> bool -> outcome query_response
}.

Definition scripted (s : script) : environment :=
  fun _ c =>
    match c as c0 return outcome (ext_resp c0) with
    | RequestsGet url => on_get s url
    | StreamRead f => on_read s f
    | OpenRead path => on_open s path
    | ChatCreate req => on_chat s req
    | RequestsPost url json => on_post s url json
    | PineconeIndex name => on_index s name
    | IndexQuery i v k m => on_query s i v k m
    end.

(** The sunset scenario: every service up. *)
Definition sunset_image : bytes := list_byte_of_string "sunset.jpg bytes".

Definition sunset_description : string :=
  "A warm golden sunset over calm water, peaceful and nostalgic".

Definition sunset_vector : pyval := PList [PFloat 0.1; PFloat 0.2; PFloat 0.3].

Definition here_comes_the_sun : scored_vector :=
  {| match_id := "song-17";
     score := 0.93;
     metadata :=
       PDict [("song", PStr "Here Comes the Sun"); ("artist", PStr "The Beatles");
              ("link", PStr "https://example.com/here-comes-the-sun")] |}.

Definition let_it_be : scored_vector :=
  {| match_id := "song-4";
     score := 0.71;
     metadata :=
       PDict [("song", PStr "Let It Be"); ("artist", PStr "The Beatles");
              ("link", PStr "https://example.com/let-it-be")] |}.

Definition not_json : exn :=
  mkExn "JSONDecodeError" "Expecting value: line 1 column 1 (char 0)".

Definition connection_error : exn :=
  mkExn "ConnectionError" "Max retries exceeded".

Definition songs : index_handle := IndexHandle 1.

Definition sunset : script :=
  {| on_get := fun _ =>
       Returned {| status_code := 200; resp_content := sunset_image;
                   resp_json := Raised not_json |};
     on_read := fun _ => Returned sunset_image;
     on_open := fun _ => Returned sunset_image;
     on_chat := fun _ =>
       Returned {| choices := [ {| message_content := sunset_description |} ] |};
     on_post := fun _ _ =>
       Returned {| status_code := 200; resp_content := [];
                   resp_json := Returned (PDict [("embedding", sunset_vector)]) |};
     on_index := fun _ => Returned songs;
     on_query := fun _ _ _ _ =>
       Returned {| qr_matches := [here_comes_the_sun]; namespace := "" |} |}.

(** Variations of a script: one service answering differently. *)
Definition with_get (s : script) (r : outcome http_response) : script :=
  {| on_get := fun _ => r; on_read := on_read s; on_open := on_open s;
     on_chat := on_chat s; on_post := on_post s; on_index := on_index s;
     on_query := on_query s |}.

Definition with_read (s : script) (r : outcome bytes) : script :=
  {| on_get := on_get s; on_read := fun _ => r; on_open := on_open s;
     on_chat := on_chat s; on_post := on_post s; on_index := on_index s;
     on_query := on_query s |}.

Definition with_chat (s : script) (r : outcome chat_completion) : script :=
  {| on_get := on_get s; on_read := on_read s; on_open := on_open s;
     on_chat := fun _ => r; on_post := on_post s; on_index := on_index s;
     on_query := on_query s |}.

Definition with_post (s : script) (r : outcome http_response) : script :=
  {| on_get := on_get s; on_read := on_read s; on_open := on_open s;
     on_chat := on_chat s; on_post := fun _ _ => r; on_index := on_index s;
     on_query := on_query s |}.

Definition with_query (s : script) (r : outcome query_response) : script :=
  {| on_get := on_get s; on_read := on_read s; on_open := on_open s;
     on_chat := on_chat s; on_post := on_post s; on_index := on_index s;
     on_query := fun _ _ _ _ => r |}.

(** The application object before and after [__init__]. *)
Definition fresh_app : ImageSearchApp := {| index := None |}.
Definition app : ImageSearchApp := {| index := Some songs |}.

Definition sunset_url : pyobj := ObjStr "https://example.com/sunset.jpg".
Definition host : option string := Some "10.0.0.7:11434".

(** An error page: a response whose status is not a success. *)
Definition not_found : http_response :=
  {| status_code := 404;
     resp_content := list_byte_of_string "Not Found";
     resp_json := Raised not_json |}.

Definition uploaded_file : pyobj := ObjFile (Stream 3).
Definition local_path : pyobj := ObjStr "images/sunset.jpg".

Definition missing_embedding : exn := mkExn "KeyError" "'embedding'".

(** An answer of the embedding service without a vector. *)
Definition model_not_found : http_response :=
  {| status_code := 404; resp_content := [];
     resp_json := Returned (PDict [("error", PStr "model not found")]) |}.

Definition its_a_sunset : string := "It's a sunset over the sea".

(** An answer of the index with more records than asked for, out of order. *)
Definition six_unsorted : query_response :=
  {| qr_matches := [let_it_be; here_comes_the_sun; let_it_be;
                    here_comes_the_sun; let_it_be; here_comes_the_sun];
     namespace := "" |}.

(** An answer with fewer records than asked for. *)
Definition two_records : query_response :=
  {| qr_matches := [here_comes_the_sun; let_it_be]; namespace := "" |}.

(** Whether the stream [f] was read in the calls [hist]. *)
Definition read_before (f : stream) (hist : list call) : bool :=
  existsb (fun c =>
             match c with
             | Ext (StreamRead (Stream g)) =>
                 match f with Stream n => N.eqb n g end
             | _ => false
             end) hist.

(** A script whose streams can be read once: a second [read] of a stream
    finds it at its end and returns no byte. *)
Definition one_shot (s : script) : environment :=
  fun hist c =>
    match c as c0 return outcome (ext_resp c0) with
    | RequestsGet url => on_get s url
    | StreamRead f =>
        if read_before f hist then Returned [] else on_read s f
    | OpenRead path => on_open s path
    | ChatCreate req => on_chat s req
    | RequestsPost url json => on_post s url json
    | PineconeIndex name => on_index s name
    | IndexQuery i v k m => on_query s i v k m
    end.

(** ** Reading base64 text back *)

(** The place of a character in a text, counted from 0. *)
Fixpoint position (c : ascii) (s : string) : option N :=
  match s with
  | EmptyString => None
  | String a s' =>
      if Ascii.eqb a c then Some 0%N else option_map N.succ (position c s')
  end.

(** The six-bit value of a character of the alphabet; the padding character
    has none. *)
Definition b64_index (c : ascii) : option N := position c b64_alphabet.

Definition byte_of_N (n : N) : byte :=
  match Byte.of_N n with
  | Some b => b
  | None => x00
  end.

(** The three bytes held by four six-bit values. *)
Definition first_byte (s0 s1 : N) : byte :=
  byte_of_N (N.lor (N.shiftl s0 2) (N.shiftr s1 4)).

Definition second_byte (s1 s2 : N) : byte :=
  byte_of_N (N.lor (N.shiftl (N.land s1 15) 4) (N.shiftr s2 2)).

Definition third_byte (s2 s3 : N) : byte :=
  byte_of_N (N.lor (N.shiftl (N.land s2 3) 6) s3).

(** The six-bit value at a place of a group. *)
Definition six (g : N) (shift : N) : N := N.land (N.shiftr g shift) 63.

(** Decoding of padded base64 text, four characters at a time; [None] on a
    text that is no such encoding. *)
Fixpoint b64decode_chars (text : list ascii) : option bytes :=
  match text with
  | [] => Some []
  | c0 :: c1 :: c2 :: c3 :: rest =>
      match b64_index c0, b64_index c1, b64_index c2, b64_index c3 with
      | Some s0, Some s1, Some s2, Some s3 =>
          option_map
            (fun tl => first_byte s0 s1 :: second_byte s1 s2 :: third_byte s2 s3 :: tl)
            (b64decode_chars rest)
      | Some s0, Some s1, Some s2, None =>
          match rest with
          | [] =>
              if Ascii.eqb c3 pad_char
              then Some [first_byte s0 s1; second_byte s1 s2]
              else None
          | _ :: _ => None
          end
      | Some s0, Some s1, None, None =>
          match rest with
          | [] =>
              if Ascii.eqb c2 pad_char && Ascii.eqb c3 pad_char
              then Some [first_byte s0 s1]
              else None
          | _ :: _ => None
          end
      | _, _, _, _ => None
      end
  | _ => None
  end.

Definition b64decode (text : string) : option bytes :=
  b64decode_chars (list_ascii_of_string text).

(** A character of base64 text: one of the alphabet, or the padding. *)
Definition b64_symbol (c : ascii) : bool :=
  match b64_index c with
  | Some _ => true
  | None => Ascii.eqb c pad_char
  end.

(** ** Calls by stage *)

(** The stage a call is made in; [None] for the calls made outside the four
    stages (the constructor's, and the orchestrator's [print]). *)
Definition call_stage (c : call) : option stage :=
  match c with
  | Ext (RequestsGet _) => Some Loader
  | Ext (StreamRead _) => Some Loader
  | Ext (OpenRead _) => Some Loader
  | Ext (ChatCreate _) => Some Descriptor
  | Ext (RequestsPost _ _) => Some Embedder
  | Print (PrintedVal _) => Some Embedder
  | GetSelfIndex => Some Matcher
  | Ext (IndexQuery _ _ _ _) => Some Matcher
  | Ext (PineconeIndex _) => None
  | SetSelfIndex _ => None
  | Print (PrintedMatches _) => None
  end.

Definition stage_rank (st : stage) : nat :=
  match st with
  | Loader => 0
  | Descriptor => 1
  | Embedder => 2
  | Matcher => 3
  end.

(** A call of the stage [st] or of a stage before it. *)
Definition not_after (st : stage) (c : call) : bool :=
  match call_stage c with
  | Some st' => Nat.leb (stage_rank st') (stage_rank st)
  | None => false
  end.

(** The call of a stage to its remote service (or, for the loader, to the
    source of the bytes). *)
Definition remote_call_of (st : stage) (c : call) : bool :=
  match c, st with
  | Ext (RequestsGet _), Loader => true
  | Ext (StreamRead _), Loader => true
  | Ext (OpenRead _), Loader => true
  | Ext (ChatCreate _), Descriptor => true
  | Ext (RequestsPost _ _), Embedder => true
  | Ext (IndexQuery _ _ _ _), Matcher => true
  | _, _ => false
  end.

(** ** The page: [main] and [display_results] *)

(** The first argument of [st.image]. *)
Inductive image_arg : Type :=
| UploadedImage (f : stream)      (* the uploaded file *)
| OpenedImage (content : bytes)   (* what [Image.open] made of these bytes *).

(** The blocks entered by [with]. *)
Inductive block : Type :=
| Column (i : nat)                (* [col1], [col2] of [st.columns(2)] *)
| Spinner (text : string)         (* [st.spinner(text)] *)
| Expander (label : string)       (* [st.expander(label)] *).

(** The Streamlit calls that draw; the program uses no result of them.
    [Enter] and [Leave] are the two ends of a [with] block. *)
Inductive drawing : Type :=
| StSetPageConfig (page_title layout : string)
| StTitle (body : string)
| StWrite (body : string)
| StSubheader (body : string)
| StColumns (n : nat)
| StImage (image : image_arg) (caption : string) (use_container_width : bool)
| StError (body : string)
| StJson (body : list (string * pyval))
| Enter (b : block)
| Leave (b : block).

(** The Streamlit calls that read what the user did. *)
Inductive widget : Type :=
| FileUploader (label : string) (type : list string)   (* [st.file_uploader] *)
| TextInput (label : string)                           (* [st.text_input] *)
| Button (label : string)                              (* [st.button] *).

Definition widget_resp (w : widget) : Type :=
  match w with
  | FileUploader _ _ => option stream
  | TextInput _ => string
  | Button _ => bool
  end.

(** The calls of the page: those of the methods, the Streamlit calls, and
    [Image.open(BytesIO(content))]. *)
Inductive page_call : Type :=
| Core (c : call)
| Draw (d : drawing)
| Ask (w : widget)
| ImageOpen (content : bytes).

Definition page_resp (c : page_call) : Type :=
  match c with
  | Core c => resp c
  | Draw _ => unit
  | Ask w => widget_resp w
  | ImageOpen _ => unit
  end.

(** The body of a function of the page, as [prog] is for a method. *)
Inductive page (A : Type) : Type :=
| PRet (a : A)
| PRaise (e : exn)
| PVis (c : page_call) (k : outcome (page_resp c) -> page A).
Arguments PRet {A} a.
Arguments PRaise {A} e.
Arguments PVis {A} c k.

Fixpoint pbind {A B : Type} (p : page A) (f : A -> page B) : page B :=
  match p with
  | PRet a => f a
  | PRaise e => PRaise e
  | PVis c k => PVis c (fun r => pbind (k r) f)
  end.

(** [try: p except Exception as e: h e] *)
Fixpoint ptry {A : Type} (p : page A) (h : exn -> page A) : page A :=
  match p with
  | PRet a => PRet a
  | PRaise e => h e
  | PVis c k => PVis c (fun r => ptry (k r) h)
  end.

(** A body run to its end, its exception kept as a value. *)
Fixpoint attempt {A : Type} (p : page A) : page (outcome A) :=
  match p with
  | PRet a => PRet (Returned a)
  | PRaise e => PRet (Raised e)
  | PVis c k => PVis c (fun r => attempt (k r))
  end.

Definition plift {A : Type} (o : outcome A) : page A :=
  match o with
  | Returned a => PRet a
  | Raised e => PRaise e
  end.

Definition pperform (c : page_call) : page (page_resp c) := PVis c plift.

(** A method called from the page. *)
Fixpoint of_prog {A : Type} (p : prog A) : page A :=
  match p with
  | Ret a => PRet a
  | Raise e => PRaise e
  | Vis c k => PVis (Core c) (fun r => of_prog (k r))
  end.

Declare Scope page_scope.
Delimit Scope page_scope with page.
Notation "x <- p ;; q" := (pbind p (fun x => q))
  (at level 61, p at next level, right associativity) : page_scope.
Notation "p ;;; q" := (pbind p (fun _ => q))
  (at level 61, right associativity) : page_scope.

Definition draw (d : drawing) : page unit := pperform (Draw d).
Definition ask (w : widget) : page (widget_resp w) := pperform (Ask w).
Definition image_open (content : bytes) : page unit := pperform (ImageOpen content).

(** [with b: body]: the block is left when the body ends, also when it ends
    by an exception, which then goes on. *)
Definition within {A : Type} (b : block) (body : page A) : page A :=
  (draw (Enter b) ;;;
   r <- attempt body ;;
   draw (Leave b) ;;;
   plift r)%page.

(** What the user did, and what [Image.open] makes of some bytes. *)
Record session : Type := mkSession {
  ses_upload : option stream;
  ses_url : string;
  ses_clicked : string -> bool;
  ses_image_open : bytes -> outcome unit
}.

Definition widget_answer (ses : session) (w : widget) : widget_resp w :=
  match w as w0 return widget_resp w0 with
  | FileUploader _ _ => ses_upload ses
  | TextInput _ => ses_url ses
  | Button label => ses_clicked ses label
  end.

(** The calls of the methods among the calls of the page: the world
    outside answers on these. *)
Fixpoint core_calls (hist : list page_call) : list call :=
  match hist with
  | [] => []
  | Core c :: hist' => c :: core_calls hist'
  | _ :: hist' => core_calls hist'
  end.

(** The outcome of a Streamlit call that draws.  The texts, titles and
    blocks are drawn; [st.image] draws what it is given or raises when it
    cannot read it as an image, which [shows] decides. *)
Definition drawn (shows : image_arg -> outcome unit) (d : drawing) : outcome unit :=
  match d with
  | StImage image _ _ => shows image
  | _ => Returned tt
  end.

Definition page_answer (shows : image_arg -> outcome unit) (env : environment)
    (ses : session) (hist : list page_call) (self : ImageSearchApp) (c : page_call) :
    outcome (page_resp c) * ImageSearchApp :=
  match c as c0 return outcome (page_resp c0) * ImageSearchApp with
  | Core c' => answer env (core_calls hist) self c'
  | Draw d => (drawn shows d, self)
  | Ask w => (Returned (widget_answer ses w), self)
  | ImageOpen content => (ses_image_open ses content, self)
  end.

(** [run_page_with shows env ses p hist self]: the outcome of [p] started
    after the calls [hist] of the page, the object afterwards, and the calls
    [p] made.  An exception of a call is raised at the call site. *)
Fixpoint run_page_with {A : Type} (shows : image_arg -> outcome unit)
    (env : environment) (ses : session) (p : page A)
    (hist : list page_call) (self : ImageSearchApp) :
    outcome A * ImageSearchApp * list page_call :=
  match p with
  | PRet a => (Returned a, self, [])
  | PRaise e => (Raised e, self, [])
  | PVis c k =>
      let (r, self') := page_answer shows env ses hist self c in
      let '(o, self'', t) := run_page_with shows env ses (k r) (hist ++ [c]) self' in
      (o, self'', c :: t)
  end.

(** Every image given to [st.image] is one it can draw. *)
Definition always_drawn (image : image_arg) : outcome unit := Returned tt.

(** A run of the page in which [st.image] draws every image it is given. *)
Definition run_page {A : Type} (env : environment) (ses : session) (p : page A)
    (hist : list page_call) (self : ImageSearchApp) :
    outcome A * ImageSearchApp * list page_call :=
  run_page_with always_drawn env ses p hist self.

Definition page_result {A : Type}
    (x : outcome A * ImageSearchApp * list page_call) : outcome A := fst (fst x).
Definition page_self {A : Type}
    (x : outcome A * ImageSearchApp * list page_call) : ImageSearchApp := snd (fst x).
Definition page_trace {A : Type}
    (x : outcome A * ImageSearchApp * list page_call) : list page_call := snd x.

Definition outcome_bind {A B : Type} (o : outcome A) (f : A -> outcome B) : outcome B :=
  match o with
  | Returned a => f a
  | Raised e => Raised e
  end.

(** [v + s] for a [str] [s]: the concatenation when [v] is a [str]; the
    other values of a JSON text do not take a [str] on their right. *)
Definition add_str (v : pyval) (s : string) : outcome string :=
  match v with
  | PStr a => Returned (a ++ s)%string
  | PList _ =>
      Raised (mkExn "TypeError"
                ("can only concatenate list (not "
                   ++ String quotation_mark ("str" ++ String quotation_mark ") to list"))%string)
  | _ =>
      Raised (mkExn "TypeError"
                ("unsupported operand type(s) for +: '" ++ type_name v ++ "' and 'str'")%string)
  end.

(** [s + v] for a [str] [s]: the concatenation when [v] is a [str]. *)
Definition str_add (s : string) (v : pyval) : outcome string :=
  match v with
  | PStr b => Returned (s ++ b)%string
  | _ =>
      Raised (mkExn "TypeError"
                ("can only concatenate str (not "
                   ++ String quotation_mark
                        (type_name v ++ String quotation_mark ") to str"))%string)
  end.

(** The dict given to [st.json] for a match, its values evaluated in the
    order they are written: [song + " by "] is built before [artist] is
    read. *)
Definition match_json (m : scored_vector) : outcome (list (string * pyval)) :=
  outcome_bind (subscript_str (metadata m) "song") (fun song1 =>
  outcome_bind (add_str song1 " by ") (fun song_by =>
  outcome_bind (subscript_str (metadata m) "artist") (fun artist1 =>
  outcome_bind (str_add song_by artist1) (fun google_search =>
  outcome_bind (subscript_str (metadata m) "song") (fun song2 =>
  outcome_bind (subscript_str (metadata m) "artist") (fun artist2 =>
  outcome_bind (subscript_str (metadata m) "link") (fun link =>
  Returned [ ("google-search", PStr google_search);
             ("song", song2);
             ("artist", artist2);
             ("link", link) ]))))))).

(** [str(i)] for a natural number. *)
Definition decimal (i : nat) : string :=
  DecimalString.NilZero.string_of_uint (Nat.to_uint i).

Section Page.

(** The module-level global read from the process environment. *)
Variable OLLAMA_HOSTED_VM_PUBLIC_IP : option string.

(** The format [.4f] of a float, a built-in of the language. *)
Variable format_4f : float -> string.

(** The label of the expander of the [i]-th match. *)
Definition expander_label (i : nat) (m : scored_vector) : string :=
  "Match " ++ decimal i ++ " (Score: " ++ format_4f (score m) ++ ")".

(** The loop of [display_results], from the number [i] on. *)
Fixpoint display_matches (i : nat) (l : list scored_vector) : page unit :=
  match l with
  | [] => PRet tt
  | m :: rest =>
      (within (Expander (expander_label i m))
         (body <- plift (match_json m) ;;
          draw (StJson body)) ;;;
       display_matches (S i) rest)%page
  end.

Definition display_results (results : pipeline_result) : page unit :=
  (draw (StSubheader "Image Description") ;;;
   draw (StWrite (description results)) ;;;
   draw (StSubheader "Matching Songs") ;;;
   display_matches 1 (matches results))%page.

(** The block under each of the two buttons of [main], written there once
    for the uploaded file and once for the URL. *)
Definition search_block (image_source : pyobj) : page unit :=
  within (Spinner "Processing image...")
    (ptry
       (results <- of_prog (process_image OLLAMA_HOSTED_VM_PUBLIC_IP image_source) ;;
        display_results results)%page
       (fun e => draw (StError ("Error: " ++ str_exn e)))).

Definition url_preview_error : string :=
  "Error loading image from URL. Please check the URL and try again.".

(** The branch [if uploaded_file is not None] of [main]. *)
Definition uploaded_branch (f : stream) : page unit :=
  (draw (StImage (UploadedImage f) "Uploaded Image" true) ;;;
   clicked <- ask (Button "Find Matching Songs (Uploaded Image)") ;;
   if clicked then search_block (ObjFile f) else PRet tt)%page.

(** The branch [elif image_url] of [main]. *)
Definition url_branch (image_url : string) : page unit :=
  ptry
    (response <- of_prog (requests_get image_url) ;;
     image_open (resp_content response) ;;;
     draw (StImage (OpenedImage (resp_content response)) "Image from URL" true) ;;;
     clicked <- ask (Button "Find Matching Songs (Image URL)") ;;
     if clicked then search_block (ObjStr image_url) else PRet tt)%page
    (fun e => draw (StError url_preview_error)).

(** Whether a [str] is true in a condition. *)
Definition str_truth (s : string) : bool :=
  match s with EmptyString => false | String _ _ => true end.

Definition main : page unit :=
  (draw (StSetPageConfig "Image to Song Matcher" "wide") ;;;
   draw (StTitle "🎵 Image to Song Matcher") ;;;
   draw (StWrite "Upload an image or provide a URL, and we'll find songs that match its mood and content!") ;;;
   of_prog __init__ ;;;
   draw (StColumns 2) ;;;
   uploaded_file <- within (Column 1)
     (draw (StSubheader "Upload Image") ;;;
      ask (FileUploader "Choose an image..." ["jpg"; "jpeg"; "png"])) ;;
   image_url <- within (Column 2)
     (draw (StSubheader "Or Provide Image URL") ;;;
      ask (TextInput "Enter image URL")) ;;
   match uploaded_file with
   | Some f => uploaded_branch f
   | None => if str_truth image_url then url_branch image_url else PRet tt
   end)%page.

(** The branch of [main] on what the visitor gave. *)
Definition dispatch (ses : session) : page unit :=
  match ses_upload ses with
  | Some f => uploaded_branch f
  | None =>
      if str_truth (ses_url ses)
      then url_branch (ses_url ses)
      else PRet tt
  end.

End Page.

(** ** What the page shows *)

(** The value [md] is a dict that holds [v] under [key].  A dict holds a
    key once. *)
Definition holds (md : pyval) (key : string) (v : pyval) : Prop :=
  exists d, md = PDict d /\ NoDup (map fst d) /\ In (key, v) d.

(** The value [md] is a dict without [key]. *)
Definition lacks (md : pyval) (key : string) : Prop :=
  exists d, md = PDict d /\ ~ In key (map fst d).

(** The four entries shown for a title, an artist and a link. *)
Definition entries (song artist : string) (link : pyval) : list (string * pyval) :=
  [ ("google-search", PStr (song ++ " by " ++ artist)%string);
    ("song", PStr song);
    ("artist", PStr artist);
    ("link", link) ].

(** A match that can be shown, with what is shown for it: its metadata hold
    a title and an artist that are [str], and a link. *)
Inductive presents (m : scored_vector) : list (string * pyval) -> Prop :=
| presents_entries (song artist : string) (link : pyval) :
    holds (metadata m) "song" (PStr song) ->
    holds (metadata m) "artist" (PStr artist) ->
    holds (metadata m) "link" link ->
    presents m (entries song artist link).

(** A match whose metadata lack a key, with the first key that
    [display_results] misses: [artist] is read after [song + " by "] was
    built, [link] after the search text was built. *)
Inductive misses (m : scored_vector) : string -> Prop :=
| misses_song :
    lacks (metadata m) "song" -> misses m "song"
| misses_artist (song : string) :
    holds (metadata m) "song" (PStr song) ->
    lacks (metadata m) "artist" ->
    misses m "artist"
| misses_link (song artist : string) :
    holds (metadata m) "song" (PStr song) ->
    holds (metadata m) "artist" (PStr artist) ->
    lacks (metadata m) "link" ->
    misses m "link".

Definition is_dict (v : pyval) : bool :=
  match v with PDict _ => true | _ => false end.

Definition is_str (v : pyval) : bool :=
  match v with PStr _ => true | _ => false end.

(** A match whose metadata are no dict, or hold a title that is no [str],
    or a title that is one and an artist that is none. *)
Inductive mistyped (m : scored_vector) : Prop :=
| mistyped_metadata :
    is_dict (metadata m) = false -> mistyped m
| mistyped_song (v : pyval) :
    holds (metadata m) "song" v -> is_str v = false -> mistyped m
| mistyped_artist (song : string) (v : pyval) :
    holds (metadata m) "song" (PStr song) ->
    holds (metadata m) "artist" v ->
    is_str v = false ->
    mistyped m.

Definition results_header (results : pipeline_result) : list page_call :=
  [ Draw (StSubheader "Image Description");
    Draw (StWrite (description results));
    Draw (StSubheader "Matching Songs") ].

Section Panels.

Variable format_4f : float -> string.

(** The drawings of one match: its expander, with the entries in it. *)
Definition panel (i : nat) (m : scored_vector) (body : list (string * pyval)) :
    list page_call :=
  [ Draw (Enter (Expander (expander_label format_4f i m)));
    Draw (StJson body);
    Draw (Leave (Expander (expander_label format_4f i m))) ].

(** The expander of a match whose entries could not be built. *)
Definition empty_panel (i : nat) (m : scored_vector) : list page_call :=
  [ Draw (Enter (Expander (expander_label format_4f i m)));
    Draw (Leave (Expander (expander_label format_4f i m))) ].

(** The drawings of some matches, numbered from [i], each with its
    entries. *)
Fixpoint panels (i : nat) (l : list scored_vector)
    (bodies : list (list (string * pyval))) : list page_call :=
  match l, bodies with
  | m :: l', body :: bodies' => panel i m body ++ panels (S i) l' bodies'
  | _, _ => []
  end.

End Panels.

(** The drawings of [main] before the constructor runs. *)
Definition page_top : list page_call :=
  [ Draw (StSetPageConfig "Image to Song Matcher" "wide");
    Draw (StTitle "🎵 Image to Song Matcher");
    Draw (StWrite "Upload an image or provide a URL, and we'll find songs that match its mood and content!") ].

(** The two input widgets in their columns. *)
Definition page_inputs : list page_call :=
  [ Draw (StColumns 2);
    Draw (Enter (Column 1));
    Draw (StSubheader "Upload Image");
    Ask (FileUploader "Choose an image..." ["jpg"; "jpeg"; "png"]);
    Draw (Leave (Column 1));
    Draw (Enter (Column 2));
    Draw (StSubheader "Or Provide Image URL");
    Ask (TextInput "Enter image URL");
    Draw (Leave (Column 2)) ].

(** The calls of [main] up to the branch on the inputs, when the
    constructor obtained the handle [h]. *)
Definition page_preamble (h : index_handle) : list page_call :=
  page_top
  ++ [Core (Ext (PineconeIndex "songs")); Core (SetSelfIndex h)]
  ++ page_inputs.

(** The calls of the methods made by the constructor. *)
Definition boot (h : index_handle) : list call :=
  [Ext (PineconeIndex "songs"); SetSelfIndex h].

Definition spinner : block := Spinner "Processing image...".

Definition is_requests_get (c : page_call) : bool :=
  match c with
  | Core (Ext (RequestsGet _)) => true
  | _ => false
  end.

Definition is_drawing (c : page_call) : bool :=
  match c with
  | Draw _ => true
  | _ => false
  end.

(** A call of the page to the captioning service, the embedding service or
    the index. *)
Definition page_service_call (c : page_call) : bool :=
  match c with
  | Core c' => later_stage_call c'
  | _ => false
  end.

(** ** Scripted sessions *)

(** A visitor who uploaded [upload], typed [url], and clicks (or not) on the
    button offered; every image opens. *)
Definition visitor (upload : option stream) (url : string) (click : bool) : session :=
  {| ses_upload := upload;
     ses_url := url;
     ses_clicked := fun _ => click;
     ses_image_open := fun _ => Returned tt |}.

Definition cannot_identify : exn :=
  mkExn "UnidentifiedImageError" "cannot identify image file".

(** [st.image] when the uploaded file holds no image: it draws what
    [Image.open] made, and raises on the upload. *)
Definition upload_is_no_image (image : image_arg) : outcome unit :=
  match image with
  | UploadedImage _ => Raised cannot_identify
  | OpenedImage _ => Returned tt
  end.

(** A stand-in for the format [.4f] in the scenarios. *)
Definition four_places (f : float) : string :=
  if PrimFloat.eqb f 0.93 then "0.9300"
  else if PrimFloat.eqb f 0.71 then "0.7100"
  else "0.0000".

(** A match without the metadata [song]. *)
Definition untitled : scored_vector :=
  {| match_id := "song-9";
     score := 0.71;
     metadata :=
       PDict [("artist", PStr "The Beatles");
              ("link", PStr "https://example.com/untitled")] |}.

(** A match stored without metadata. *)
Definition bare : scored_vector :=
  {| match_id := "song-12"; score := 0.71; metadata := PNone |}.

(** A match whose title was stored as a number. *)
Definition numbered : scored_vector :=
  {| match_id := "song-1979";
     score := 0.71;
     metadata :=
       PDict [("song", PInt 1979); ("artist", PStr "The Smashing Pumpkins");
              ("link", PStr "https://example.com/1979")] |}.

Definition upper_case_url : string := "HTTP://EXAMPLE.COM/sunset.jpg".

(** An answer of the index with a match that has no title. *)
Definition with_untitled : query_response :=
  {| qr_matches := [here_comes_the_sun; untitled; let_it_be]; namespace := "" |}.

(** * Properties *)

(** ** Facts about the base64 text *)

Example b64_Man : decode_utf8 (b64encode (list_byte_of_string "Man")) = "TWFu".
Proof. reflexivity. Qed.

Example b64_Ma : decode_utf8 (b64encode (list_byte_of_string "Ma")) = "TWE=".
Proof. reflexivity. Qed.

Example b64_M : decode_utf8 (b64encode (list_byte_of_string "M")) = "TQ==".
Proof. reflexivity. Qed.

Example b64_hello :
  decode_utf8 (b64encode (list_byte_of_string "hello world")) = "aGVsbG8gd29ybGQ=".
Proof. reflexivity. Qed.

(** Lists three elements at a time. *)
Lemma list_ind3 {A : Type} (P : list A -> Prop) :
  P [] ->
  (forall a, P [a]) ->
  (forall a b, P [a; b]) ->
  (forall a b c l, P l -> P (a :: b :: c :: l)) ->
  forall l, P l.
Proof.
  intros H0 H1 H2 H3.
  fix go 1.
  intros [| a [| b [| c l]]].
  - exact H0.
  - apply H1.
  - apply H2.
  - apply H3, go.
Qed.

(** Three bytes give four characters; a last group of one or two bytes is
    padded to four. *)
Lemma b64encode_chars_length (data : bytes) :
  List.length (b64encode_chars data) = 4 * ((List.length data + 2) / 3).
Proof.
  induction data as [| a | a b | a b c l IH] using list_ind3; try reflexivity.
  change (List.length (b64encode_chars (a :: b :: c :: l)))
    with (4 + List.length (b64encode_chars l)).
  rewrite IH.
  change (List.length (a :: b :: c :: l)) with (3 + List.length l).
  replace (3 + List.length l + 2) with (List.length l + 2 + 1 * 3) by lia.
  rewrite Nat.div_add by discriminate. lia.
Qed.

Lemma decode_b64encode (data : bytes) :
  decode_utf8 (b64encode data) = string_of_list_ascii (b64encode_chars data).
Proof.
  unfold decode_utf8, b64encode, string_of_list_byte.
  rewrite map_map. f_equal.
  rewrite <- (map_id (b64encode_chars data)) at 2.
  apply map_ext. intro c. apply ascii_of_byte_of_ascii.
Qed.

Lemma string_of_list_ascii_length (l : list ascii) :
  String.length (string_of_list_ascii l) = List.length l.
Proof. induction l as [| c l IH]; simpl; [reflexivity | now rewrite IH]. Qed.

Lemma encode_image_length (data : bytes) :
  String.length (encode_image data) = 4 * ((List.length data + 2) / 3).
Proof.
  unfold encode_image.
  rewrite decode_b64encode, string_of_list_ascii_length.
  apply b64encode_chars_length.
Qed.

(** The text is empty exactly when there was no byte to encode. *)
Lemma encode_image_empty_iff (data : bytes) :
  encode_image data = "" <-> data = [].
Proof.
  split.
  - intro H. apply (f_equal String.length) in H.
    rewrite encode_image_length in H.
    change (String.length "") with 0 in H.
    destruct data as [| a l]; [reflexivity | exfalso].
    assert (Hlow : 1 <= (List.length (a :: l) + 2) / 3).
    { apply Nat.div_le_lower_bound; [discriminate | cbn [List.length]; lia]. }
    lia.
  - intros ->. reflexivity.
Qed.

(** Every character of the text is in the ASCII range, which is why decoding
    it as UTF-8 is one character per byte. *)
Lemma get_in_list (s : string) (i : nat) (c : ascii) :
  String.get i s = Some c -> In c (list_ascii_of_string s).
Proof.
  revert i. induction s as [| a s IH]; intros i H; [discriminate|].
  destruct i as [| i]; simpl in *.
  - injection H as ->. now left.
  - right. eapply IH, H.
Qed.

Lemma b64_char_is_ascii (n : N) : is_ascii (b64_char n) = true.
Proof.
  unfold b64_char.
  destruct (String.get (N.to_nat (N.land n 63)) b64_alphabet) as [c |] eqn:Hget;
    [| reflexivity].
  apply get_in_list in Hget.
  assert (Hall : forallb is_ascii (list_ascii_of_string b64_alphabet) = true)
    by reflexivity.
  rewrite forallb_forall in Hall. apply Hall, Hget.
Qed.

Lemma b64encode_is_ascii (data : bytes) :
  forallb is_ascii (b64encode_chars data) = true.
Proof.
  induction data as [| a | a b | a b c l IH] using list_ind3.
  - reflexivity.
  - cbn [b64encode_chars forallb]. unfold sextet. rewrite !b64_char_is_ascii. reflexivity.
  - cbn [b64encode_chars forallb]. unfold sextet. rewrite !b64_char_is_ascii. reflexivity.
  - cbn [b64encode_chars forallb]. unfold sextet. rewrite !b64_char_is_ascii, IH.
    reflexivity.
Qed.

(** ** General facts about runs *)

Section Runs.

Context {A : Type}.
Variable env : environment.

Lemma run_Ret (a : A) hist self : run env (Ret a) hist self = (Returned a, self, []).
Proof. reflexivity. Qed.

Lemma run_Raise (e : exn) hist self :
  run env (@Raise A e) hist self = (Raised e, self, []).
Proof. reflexivity. Qed.

Lemma run_lift (o : outcome A) hist self : run env (lift o) hist self = (o, self, []).
Proof. destruct o; reflexivity. Qed.

(** Sequencing: the second part starts where the first stopped, and is not
    started at all when the first raised. *)
Lemma run_bind {B : Type} (p : prog A) (f : A -> prog B) hist self :
  run env (bind p f) hist self =
  match run env p hist self with
  | (Returned a, s, t) =>
      let '(o, s', t') := run env (f a) (hist ++ t) s in (o, s', t ++ t')
  | (Raised e, s, t) => (Raised e, s, t)
  end.
Proof.
  revert hist self.
  induction p as [a | e | c k IH]; intros hist self; simpl.
  - rewrite app_nil_r. destruct (run env (f a) hist self) as [[o s'] t']. reflexivity.
  - reflexivity.
  - destruct (answer env hist self c) as [r self'].
    rewrite IH.
    destruct (run env (k r) (hist ++ [c]) self') as [[[a | e] s] t].
    + rewrite <- app_assoc. simpl.
      destruct (run env (f a) (hist ++ c :: t) s) as [[o s'] t']. reflexivity.
    + reflexivity.
Qed.

(** The handler runs only when the body raised, from where the body stopped. *)
Lemma run_try_except (p : prog A) (h : exn -> prog A) hist self :
  run env (try_except p h) hist self =
  match run env p hist self with
  | (Returned a, s, t) => (Returned a, s, t)
  | (Raised e, s, t) =>
      let '(o, s', t') := run env (h e) (hist ++ t) s in (o, s', t ++ t')
  end.
Proof.
  revert hist self.
  induction p as [a | e | c k IH]; intros hist self; simpl.
  - reflexivity.
  - rewrite app_nil_r. destruct (run env (h e) hist self) as [[o s'] t']. reflexivity.
  - destruct (answer env hist self c) as [r self'].
    rewrite IH.
    destruct (run env (k r) (hist ++ [c]) self') as [[[a | e] s] t].
    + reflexivity.
    + rewrite <- app_assoc. simpl.
      destruct (run env (h e) (hist ++ c :: t) s) as [[o s'] t']. reflexivity.
Qed.

(** A handler that re-raises a wrapped exception makes no call. *)
Lemma run_wrap (p : prog A) (wrap : exn -> exn) hist self :
  run env (try_except p (fun e => Raise (wrap e))) hist self =
  match run env p hist self with
  | (Returned a, s, t) => (Returned a, s, t)
  | (Raised e, s, t) => (Raised (wrap e), s, t)
  end.
Proof.
  rewrite run_try_except.
  destruct (run env p hist self) as [[[a | e] s] t]; [reflexivity|].
  simpl. rewrite app_nil_r. reflexivity.
Qed.

End Runs.

(** One call to the world. *)
Lemma run_perform_ext env (c : ext_call) hist self :
  run env (perform (Ext c)) hist self = (env hist c, self, [Ext c]).
Proof.
  unfold perform. simpl. destruct (env hist c); reflexivity.
Qed.

(** Reading [self.index]. *)
Lemma run_get_self_index env hist self :
  run env (perform GetSelfIndex) hist self =
  (match index self with
   | Some h => Returned h
   | None => Raised (mkExn "AttributeError"
                       "'ImageSearchApp' object has no attribute 'index'")
   end, self, [GetSelfIndex]).
Proof.
  unfold perform. simpl. destruct (index self); reflexivity.
Qed.

Lemma run_print env o hist self :
  run env (print o) hist self = (Returned tt, self, [Print o]).
Proof. reflexivity. Qed.

(** *** Running a tree that does not assign to [self] *)

Lemma answer_read_only env hist self c :
  assigns_self c = false -> snd (answer env hist self c) = self.
Proof.
  destruct c; simpl; try reflexivity; try discriminate.
  destruct (index self); reflexivity.
Qed.

Lemma read_only_run {A : Type} env (p : prog A) hist self :
  read_only p -> self_of (run env p hist self) = self.
Proof.
  revert hist self.
  induction p as [a | e | c k IH]; intros hist self Hro; simpl in *.
  - reflexivity.
  - reflexivity.
  - destruct Hro as [Hc Hk].
    pose proof (answer_read_only env hist self c Hc) as Hs.
    destruct (answer env hist self c) as [r self']. simpl in Hs. subst self'.
    specialize (IH r (hist ++ [c]) self (Hk r)).
    destruct (run env (k r) (hist ++ [c]) self) as [[o s] t].
    exact IH.
Qed.

Lemma read_only_bind {A B : Type} (p : prog A) (f : A -> prog B) :
  read_only p -> (forall a, read_only (f a)) -> read_only (bind p f).
Proof.
  intros Hp Hf. induction p as [a | e | c k IH]; simpl in *.
  - apply Hf.
  - exact I.
  - destruct Hp as [Hc Hk]. split; [exact Hc|]. intro r. apply IH, Hk.
Qed.

Lemma read_only_try_except {A : Type} (p : prog A) (h : exn -> prog A) :
  read_only p -> (forall e, read_only (h e)) -> read_only (try_except p h).
Proof.
  intros Hp Hh. induction p as [a | e | c k IH]; simpl in *.
  - exact I.
  - apply Hh.
  - destruct Hp as [Hc Hk]. split; [exact Hc|]. intro r. apply IH, Hk.
Qed.

Lemma read_only_lift {A : Type} (o : outcome A) : read_only (lift o).
Proof. destruct o; exact I. Qed.

Lemma read_only_perform (c : call) : assigns_self c = false -> read_only (perform c).
Proof. intro Hc. split; [exact Hc|]. intro r. apply read_only_lift. Qed.

(** *** Running a tree that reads no stream *)

Lemma stream_free_bind {A B : Type} (p : prog A) (f : A -> prog B) :
  stream_free p -> (forall a, stream_free (f a)) -> stream_free (bind p f).
Proof.
  intros Hp Hf. induction p as [a | e | c k IH]; simpl in *.
  - apply Hf.
  - exact I.
  - destruct Hp as [Hc Hk]. split; [exact Hc|]. intro r. apply IH, Hk.
Qed.

Lemma stream_free_try_except {A : Type} (p : prog A) (h : exn -> prog A) :
  stream_free p -> (forall e, stream_free (h e)) -> stream_free (try_except p h).
Proof.
  intros Hp Hh. induction p as [a | e | c k IH]; simpl in *.
  - exact I.
  - apply Hh.
  - destruct Hp as [Hc Hk]. split; [exact Hc|]. intro r. apply IH, Hk.
Qed.

Lemma stream_free_lift {A : Type} (o : outcome A) : stream_free (lift o).
Proof. destruct o; exact I. Qed.

Lemma stream_free_perform (c : call) :
  reads_stream c = false -> stream_free (perform c).
Proof. intro Hc. split; [exact Hc|]. intro r. apply stream_free_lift. Qed.

(** In a world that answers by the request, a tree that reads no stream
    runs the same after any calls. *)
Lemma stream_free_run {A : Type} (env : environment) (p : prog A) h1 h2 self :
  answers_by_request env -> stream_free p ->
  run env p h1 self = run env p h2 self.
Proof.
  intro Henv. revert h1 h2 self.
  induction p as [a | e | c k IH]; intros h1 h2 self Hfree; simpl in *.
  - reflexivity.
  - reflexivity.
  - destruct Hfree as [Hc Hk].
    assert (Ha : answer env h1 self c = answer env h2 self c).
    { destruct c as [c' | | h | o]; simpl; try reflexivity.
      rewrite (Henv h1 h2 c' Hc). reflexivity. }
    rewrite Ha.
    destruct (answer env h2 self c) as [r self'].
    rewrite (IH r (h1 ++ [c]) (h2 ++ [c]) self' (Hk r)). reflexivity.
Qed.

Lemma stream_free_after_first_of {A : Type} (p : prog A) :
  stream_free p -> stream_free_after_first p.
Proof. destruct p as [a | e | c k]; simpl; [trivial | trivial | intros [_ Hk]; exact Hk]. Qed.

Lemma stream_free_after_first_bind {A B : Type} (p : prog A) (f : A -> prog B) :
  stream_free_after_first p -> (forall a, stream_free (f a)) ->
  stream_free_after_first (bind p f).
Proof.
  intros Hp Hf. destruct p as [a | e | c k]; simpl in *.
  - apply stream_free_after_first_of, Hf.
  - exact I.
  - intro r. apply stream_free_bind; [apply Hp | exact Hf].
Qed.

Lemma stream_free_after_first_try_except {A : Type} (p : prog A) (h : exn -> prog A) :
  stream_free_after_first p -> (forall e, stream_free (h e)) ->
  stream_free_after_first (try_except p h).
Proof.
  intros Hp Hh. destruct p as [a | e | c k]; simpl in *.
  - exact I.
  - apply stream_free_after_first_of, Hh.
  - intro r. apply stream_free_try_except; [apply Hp | exact Hh].
Qed.

Lemma stream_free_after_first_perform (c : call) :
  stream_free_after_first (perform c).
Proof. intro r. apply stream_free_lift. Qed.

(** In a world that answers by the request, a tree that reads a stream with
    its first call at most runs the same after any calls at which that read
    is answered the same. *)
Lemma stream_free_after_first_run {A : Type} (env : environment) (p : prog A)
    h1 h2 self :
  answers_by_request env ->
  stream_free_after_first p ->
  (forall f, first_stream p = Some f ->
     env h1 (StreamRead f) = env h2 (StreamRead f)) ->
  run env p h1 self = run env p h2 self.
Proof.
  intros Henv Hp Hfirst.
  destruct p as [a | e | c k]; simpl in *; try reflexivity.
  assert (Ha : answer env h1 self c = answer env h2 self c).
  { destruct c as [c' | | h | o]; simpl; try reflexivity.
    destruct (is_stream_read c') eqn:Hc.
    - destruct c' as [ | f | | | | | ]; try discriminate.
      rewrite (Hfirst f eq_refl). reflexivity.
    - rewrite (Henv h1 h2 c' Hc). reflexivity. }
  rewrite Ha.
  destruct (answer env h2 self c) as [r self'].
  rewrite (stream_free_run env (k r) (h1 ++ [c]) (h2 ++ [c]) self' Henv (Hp r)).
  reflexivity.
Qed.

(** ** What each method does, call by call *)

Section Methods.

Variable OLLAMA_HOSTED_VM_PUBLIC_IP : option string.
Variable env : environment.

(** *** The loader *)

Lemma encode_url (s : string) hist self :
  startswith s ["http://"; "https://"] = true ->
  run env (_encode_image_to_base64 (ObjStr s)) hist self =
  (outcome_map (fun r => encode_image (resp_content r)) (env hist (RequestsGet s)),
   self, [Ext (RequestsGet s)]).
Proof.
  intro Hs. unfold _encode_image_to_base64. simpl isinstance_str. simpl str_value.
  rewrite Hs. simpl andb. cbv iota.
  rewrite !run_bind. unfold requests_get. rewrite (run_perform_ext env (RequestsGet s)).
  destruct (env hist (RequestsGet s)) as [r | e]; reflexivity.
Qed.

Lemma encode_stream (f : stream) hist self :
  run env (_encode_image_to_base64 (ObjFile f)) hist self =
  (outcome_map encode_image (env hist (StreamRead f)), self, [Ext (StreamRead f)]).
Proof.
  unfold _encode_image_to_base64. simpl.
  destruct (env hist (StreamRead f)) as [d | e]; reflexivity.
Qed.

Lemma encode_path_str (s : string) hist self :
  startswith s ["http://"; "https://"] = false ->
  run env (_encode_image_to_base64 (ObjStr s)) hist self =
  (outcome_map encode_image (env hist (OpenRead (ObjStr s))), self,
   [Ext (OpenRead (ObjStr s))]).
Proof.
  intro Hs. unfold _encode_image_to_base64. simpl isinstance_str. simpl str_value.
  rewrite Hs. simpl andb. simpl hasattr_read. cbv iota.
  rewrite run_bind. unfold open_read. rewrite (run_perform_ext env (OpenRead (ObjStr s))).
  destruct (env hist (OpenRead (ObjStr s))) as [d | e]; reflexivity.
Qed.

Lemma encode_path_other (n : string) hist self :
  run env (_encode_image_to_base64 (ObjOther n)) hist self =
  (outcome_map encode_image (env hist (OpenRead (ObjOther n))), self,
   [Ext (OpenRead (ObjOther n))]).
Proof.
  unfold _encode_image_to_base64. simpl.
  destruct (env hist (OpenRead (ObjOther n))) as [d | e]; reflexivity.
Qed.

(** The loader makes exactly one call, to the world, and leaves [self]. *)
Lemma encode_one_call (src : pyobj) hist self :
  exists c : ext_call,
    trace_of (run env (_encode_image_to_base64 src) hist self) = [Ext c] /\
    self_of (run env (_encode_image_to_base64 src) hist self) = self /\
    loader_call c = true.
Proof.
  destruct src as [s | f | n].
  - destruct (startswith s ["http://"; "https://"]) eqn:Hs.
    + exists (RequestsGet s). rewrite encode_url by exact Hs.
      repeat split.
    + exists (OpenRead (ObjStr s)). rewrite encode_path_str by exact Hs.
      repeat split.
  - exists (StreamRead f). rewrite encode_stream. repeat split.
  - exists (OpenRead (ObjOther n)). rewrite encode_path_other. repeat split.
Qed.

(** *** The descriptor *)

Lemma describe_run (src : pyobj) hist self :
  run env (_get_image_description src) hist self =
  match run env (_encode_image_to_base64 src) hist self with
  | (Raised e, s, t) => (Raised (description_error e), s, t)
  | (Returned base64_image, s, t) =>
      let c := ChatCreate (caption_request base64_image) in
      (match env (hist ++ t) c with
       | Raised e => Raised (description_error e)
       | Returned response =>
           match choices response with
           | [] => Raised (description_error (mkExn "IndexError" "list index out of range"))
           | choice :: _ => Returned (message_content choice)
           end
       end, s, t ++ [Ext c])
  end.
Proof.
  unfold _get_image_description, _get_image_description_try.
  rewrite run_wrap, run_bind.
  destruct (run env (_encode_image_to_base64 src) hist self) as [[[b64 | e] s] t]; [|reflexivity].
  rewrite run_bind. unfold chat_completions_create.
  rewrite (run_perform_ext env (ChatCreate (caption_request b64))).
  cbv zeta.
  destruct (env (hist ++ t) (ChatCreate (caption_request b64))) as [response | e];
    [|reflexivity].
  rewrite run_bind, run_lift.
  destruct (choices response) as [| choice rest]; reflexivity.
Qed.

(** *** The embedder *)

Lemma embed_run (text : string) hist self :
  run env (_generate_embedding OLLAMA_HOSTED_VM_PUBLIC_IP text) hist self =
  match env hist (embed_request OLLAMA_HOSTED_VM_PUBLIC_IP text) with
  | Raised e => (Raised (embedding_error e), self, [Ext (embed_request OLLAMA_HOSTED_VM_PUBLIC_IP text)])
  | Returned response =>
      match resp_json response with
      | Raised e => (Raised (embedding_error e), self, [Ext (embed_request OLLAMA_HOSTED_VM_PUBLIC_IP text)])
      | Returned json =>
          (match subscript_str json "embedding" with
           | Raised e => Raised (embedding_error e)
           | Returned v => Returned v
           end, self, [Ext (embed_request OLLAMA_HOSTED_VM_PUBLIC_IP text); Print (PrintedVal json)])
      end
  end.
Proof.
  unfold _generate_embedding, _generate_embedding_try. cbv zeta.
  rewrite run_wrap, run_bind.
  unfold requests_post.
  change (RequestsPost (embeddings_url OLLAMA_HOSTED_VM_PUBLIC_IP)
            {| payload_model := "nomic-embed-text"; payload_prompt := text |})
    with (embed_request OLLAMA_HOSTED_VM_PUBLIC_IP text).
  rewrite (run_perform_ext env (embed_request OLLAMA_HOSTED_VM_PUBLIC_IP text)).
  destruct (env hist (embed_request OLLAMA_HOSTED_VM_PUBLIC_IP text)) as [response | e]; [|reflexivity].
  rewrite run_bind, run_lift.
  destruct (resp_json response) as [json | e]; [|reflexivity].
  rewrite run_bind, run_print, run_bind, run_lift, run_lift.
  destruct (subscript_str json "embedding"); reflexivity.
Qed.

(** *** The matcher *)

Lemma query_run (embedding : pyval) (top_k : Z) hist self :
  run env (_query_pinecone embedding top_k) hist self =
  match index self with
  | None =>
      (Raised (query_error (mkExn "AttributeError"
                              "'ImageSearchApp' object has no attribute 'index'")),
       self, [GetSelfIndex])
  | Some h =>
      let c := IndexQuery h embedding top_k true in
      (match env (hist ++ [GetSelfIndex]) c with
       | Raised e => Raised (query_error e)
       | Returned results => Returned (qr_matches results)
       end, self, [GetSelfIndex; Ext c])
  end.
Proof.
  unfold _query_pinecone, _query_pinecone_try.
  rewrite run_wrap, run_bind, run_get_self_index.
  destruct (index self) as [h |]; [|reflexivity].
  rewrite run_bind. unfold index_query.
  rewrite (run_perform_ext env (IndexQuery h embedding top_k true)).
  cbv zeta.
  destruct (env (hist ++ [GetSelfIndex]) (IndexQuery h embedding top_k true));
    reflexivity.
Qed.

(** *** The orchestrator *)

Lemma process_run (src : pyobj) hist self :
  run env (process_image OLLAMA_HOSTED_VM_PUBLIC_IP src) hist self =
  match run env (_get_image_description src) hist self with
  | (Raised e, s, t) => (Raised (pipeline_error e), s, t)
  | (Returned description, s1, t1) =>
      match run env (_generate_embedding OLLAMA_HOSTED_VM_PUBLIC_IP description) (hist ++ t1) s1 with
      | (Raised e, s, t) => (Raised (pipeline_error e), s, t1 ++ t)
      | (Returned embedding, s2, t2) =>
          match run env (_query_pinecone embedding default_top_k) (hist ++ t1 ++ t2) s2 with
          | (Raised e, s, t) => (Raised (pipeline_error e), s, t1 ++ t2 ++ t)
          | (Returned results, s3, t3) =>
              (Returned {| description := description; matches := results |}, s3,
               t1 ++ t2 ++ t3 ++ [Print (PrintedMatches results)])
          end
      end
  end.
Proof.
  unfold process_image, process_image_try. rewrite run_wrap, run_bind.
  destruct (run env (_get_image_description src) hist self) as [[[d | e] s1] t1]; [|reflexivity].
  rewrite run_bind.
  destruct (run env (_generate_embedding OLLAMA_HOSTED_VM_PUBLIC_IP d) (hist ++ t1) s1) as [[[v | e] s2] t2]; [|reflexivity].
  rewrite run_bind. rewrite <- app_assoc.
  destruct (run env (_query_pinecone v default_top_k) (hist ++ t1 ++ t2) s2)
    as [[[m | e] s3] t3]; [|reflexivity].
  rewrite run_bind, run_print, run_Ret. reflexivity.
Qed.

End Methods.

(** ** The sunset scenario *)

Example init_assigns_index :
  run (scripted sunset) __init__ [] fresh_app
  = (Returned tt, app, [Ext (PineconeIndex "songs"); SetSelfIndex songs]).
Proof. reflexivity. Qed.

(** End-to-end on the sunset scenario: the calls in the order they are made,
    and the dict returned. *)
Example sunset_end_to_end :
  run (scripted sunset) (process_image host sunset_url) [] app
  = (Returned {| description := sunset_description;
                 matches := [here_comes_the_sun] |},
     app,
     [ Ext (RequestsGet "https://example.com/sunset.jpg");
       Ext (ChatCreate (caption_request (encode_image sunset_image)));
       Ext (RequestsPost "http://10.0.0.7:11434/api/embeddings"
              {| payload_model := "nomic-embed-text";
                 payload_prompt := sunset_description |});
       Print (PrintedVal (PDict [("embedding", sunset_vector)]));
       GetSelfIndex;
       Ext (IndexQuery songs sunset_vector 5 true);
       Print (PrintedMatches [here_comes_the_sun]) ]).
Proof. vm_compute. reflexivity. Qed.

(** ** The orchestrator: failures *)

Lemma describe_try_loader_raised env src hist self e s t :
  run env (_encode_image_to_base64 src) hist self = (Raised e, s, t) ->
  run env (_get_image_description_try src) hist self = (Raised e, s, t).
Proof.
  intro H. unfold _get_image_description_try. rewrite run_bind, H. reflexivity.
Qed.

(** C1, as the code has it: when a stage fails, [process_image] returns no
    dict; it raises one [Exception] whose message is the orchestrator's
    prefix, then the prefix of the method in which the stage ran (the loader
    runs inside the descriptor's method and shares its prefix), then the
    message of the cause. *)
Theorem process_image_failure :
  forall env ip src hist self st cause,
    first_failure env ip src hist self = Some (st, cause) ->
    result_of (run env (process_image ip src) hist self)
    = Raised (Exception ("Error processing image: "
                           ++ stage_prefix st ++ str_exn cause)).
Proof.
  intros env ip src hist self st cause Hfail.
  unfold first_failure in Hfail.
  rewrite process_run.
  unfold _get_image_description, _generate_embedding, _query_pinecone.
  rewrite run_wrap.
  destruct (run env (_encode_image_to_base64 src) hist self)
    as [[[b | e] s0] t0] eqn:Hload.
  - destruct (run env (_get_image_description_try src) hist self)
      as [[[d | e] s1] t1].
    + rewrite run_wrap.
      destruct (run env (_generate_embedding_try ip d) (hist ++ t1) s1)
        as [[[v | e] s2] t2].
      * rewrite run_wrap.
        destruct (run env (_query_pinecone_try v default_top_k) (hist ++ t1 ++ t2) s2)
          as [[[m | e] s3] t3]; [discriminate|].
        injection Hfail as <- <-. reflexivity.
      * injection Hfail as <- <-. reflexivity.
    + injection Hfail as <- <-. reflexivity.
  - rewrite (describe_try_loader_raised _ _ _ _ _ _ _ Hload).
    injection Hfail as <- <-. reflexivity.
Qed.

Lemma process_image_failure_witness :
  first_failure (scripted (with_post sunset (Raised connection_error)))
    host sunset_url [] app = Some (Embedder, connection_error)
  /\ result_of (run (scripted (with_post sunset (Raised connection_error)))
                  (process_image host sunset_url) [] app)
     = Raised (Exception
         "Error processing image: Error generating embedding: Max retries exceeded").
Proof.
  split.
  - vm_compute. reflexivity.
  - apply (process_image_failure
             (scripted (with_post sunset (Raised connection_error)))
             host sunset_url [] app Embedder connection_error).
    vm_compute. reflexivity.
Defined.

(** C1, as stated, fails: no function of the raised error alone tells which
    of the four stages failed.  A loader failure and a descriptor failure
    with the same cause raise the same exception. *)
Lemma process_image_error_does_not_identify_stage :
  ~ exists identify : exn -> stage,
      forall env ip src hist self st cause,
        first_failure env ip src hist self = Some (st, cause) ->
        exists x,
          result_of (run env (process_image ip src) hist self) = Raised x
          /\ identify x = st.
Proof.
  intros [identify H].
  destruct (H (scripted (with_get sunset (Raised connection_error)))
              host sunset_url [] app Loader connection_error)
    as [x1 [Hx1 Hid1]]; [vm_compute; reflexivity|].
  destruct (H (scripted (with_chat sunset (Raised connection_error)))
              host sunset_url [] app Descriptor connection_error)
    as [x2 [Hx2 Hid2]]; [vm_compute; reflexivity|].
  vm_compute in Hx1, Hx2.
  injection Hx1 as <-. injection Hx2 as <-.
  rewrite Hid1 in Hid2. discriminate.
Qed.

(** ** The orchestrator: success *)

(** What a successful run of each method looks like. *)
Lemma describe_returned env src hist self d s1 t1 :
  run env (_get_image_description src) hist self = (Returned d, s1, t1) ->
  exists (c : ext_call) (b : string),
    run env (_encode_image_to_base64 src) hist self = (Returned b, self, [Ext c])
    /\ loader_call c = true
    /\ s1 = self
    /\ t1 = [Ext c; Ext (ChatCreate (caption_request b))].
Proof.
  rewrite describe_run.
  destruct (encode_one_call env src hist self) as [c [Htr [Hself Hc]]].
  destruct (run env (_encode_image_to_base64 src) hist self) as [[[b | e] s] t];
    [| discriminate].
  unfold trace_of, self_of in Htr, Hself. simpl in Htr, Hself. subst s t.
  cbv zeta. intro H. injection H as Hres <- <-.
  exists c, b. repeat split. exact Hc.
Qed.

Lemma embed_returned env ip text hist self v s2 t2 :
  run env (_generate_embedding ip text) hist self = (Returned v, s2, t2) ->
  exists (response : http_response) (json : pyval),
    env hist (embed_request ip text) = Returned response
    /\ resp_json response = Returned json
    /\ subscript_str json "embedding" = Returned v
    /\ s2 = self
    /\ t2 = [Ext (embed_request ip text); Print (PrintedVal json)].
Proof.
  rewrite embed_run.
  destruct (env hist (embed_request ip text)) as [response | e]; [| discriminate].
  destruct (resp_json response) as [json | e] eqn:Hjson; [| discriminate].
  destruct (subscript_str json "embedding") as [v' | e] eqn:Hsub; [| discriminate].
  intro H. injection H as <- <- <-.
  exists response, json. repeat split; assumption.
Qed.

Lemma query_returned env embedding top_k hist self m s3 t3 :
  run env (_query_pinecone embedding top_k) hist self = (Returned m, s3, t3) ->
  exists (h : index_handle) (results : query_response),
    index self = Some h
    /\ env (hist ++ [GetSelfIndex]) (IndexQuery h embedding top_k true)
       = Returned results
    /\ m = qr_matches results
    /\ s3 = self
    /\ t3 = [GetSelfIndex; Ext (IndexQuery h embedding top_k true)].
Proof.
  rewrite query_run.
  destruct (index self) as [h |]; [| discriminate].
  cbv zeta.
  destruct (env (hist ++ [GetSelfIndex]) (IndexQuery h embedding top_k true))
    as [results | e] eqn:Hq; [| discriminate].
  intro H. injection H as <- <- <-.
  exists h, results. repeat split; assumption.
Qed.

(** C2: when the descriptor returns [d], the embedder [v] and the matcher
    [m], [process_image] returns the dict of [d] and [m] unchanged, and the
    calls are made in the order loader, captioning service, embedding
    service, index; the matcher is asked for five records. *)
Theorem process_image_success :
  forall env ip src hist self d v m s1 t1 s2 t2 s3 t3,
    run env (_get_image_description src) hist self = (Returned d, s1, t1) ->
    run env (_generate_embedding ip d) (hist ++ t1) s1 = (Returned v, s2, t2) ->
    run env (_query_pinecone v default_top_k) (hist ++ t1 ++ t2) s2
    = (Returned m, s3, t3) ->
    result_of (run env (process_image ip src) hist self)
    = Returned {| description := d; matches := m |}
    /\ exists (c : ext_call) (b : string) (json : pyval) (h : index_handle),
         trace_of (run env (_encode_image_to_base64 src) hist self) = [Ext c]
         /\ trace_of (run env (process_image ip src) hist self)
            = [ Ext c;
                Ext (ChatCreate (caption_request b));
                Ext (embed_request ip d);
                Print (PrintedVal json);
                GetSelfIndex;
                Ext (IndexQuery h v 5 true);
                Print (PrintedMatches m) ].
Proof.
  intros env ip src hist self d v m s1 t1 s2 t2 s3 t3 Hd Hv Hm.
  rewrite process_run, Hd, Hv, Hm.
  split; [reflexivity|].
  apply describe_returned in Hd. destruct Hd as [c [b [Henc [_ [_ Ht1]]]]].
  apply embed_returned in Hv. destruct Hv as [_ [json [_ [_ [_ [_ Ht2]]]]]].
  apply query_returned in Hm. destruct Hm as [h [_ [_ [_ [_ [_ Ht3]]]]]].
  exists c, b, json, h.
  rewrite Henc. subst t1 t2 t3. split; reflexivity.
Qed.

Lemma process_image_success_witness :
  result_of (run (scripted sunset) (process_image host sunset_url) [] app)
  = Returned {| description := sunset_description;
                matches := [here_comes_the_sun] |}.
Proof.
  apply (process_image_success (scripted sunset) host sunset_url [] app
           sunset_description sunset_vector [here_comes_the_sun]
           app
           [ Ext (RequestsGet "https://example.com/sunset.jpg");
             Ext (ChatCreate (caption_request (encode_image sunset_image))) ]
           app
           [ Ext (embed_request host sunset_description);
             Print (PrintedVal (PDict [("embedding", sunset_vector)])) ]
           app
           [ GetSelfIndex; Ext (IndexQuery songs sunset_vector 5 true) ]).
  - vm_compute. reflexivity.
  - vm_compute. reflexivity.
  - vm_compute. reflexivity.
Defined.

(** ** The loader *)

(** C10: the loader looks at the shape of its argument in a fixed order.  A
    [str] that starts with an http scheme is fetched; an object with a
    [read] attribute is read; anything else, among which every other [str],
    is opened as a file. *)
Theorem loader_classifies_source :
  forall env hist self,
    (forall s, startswith s ["http://"; "https://"] = true ->
       run env (_encode_image_to_base64 (ObjStr s)) hist self
       = (outcome_map (fun r => encode_image (resp_content r))
            (env hist (RequestsGet s)),
          self, [Ext (RequestsGet s)]))
    /\ (forall f,
          run env (_encode_image_to_base64 (ObjFile f)) hist self
          = (outcome_map encode_image (env hist (StreamRead f)),
             self, [Ext (StreamRead f)]))
    /\ (forall s, startswith s ["http://"; "https://"] = false ->
          run env (_encode_image_to_base64 (ObjStr s)) hist self
          = (outcome_map encode_image (env hist (OpenRead (ObjStr s))),
             self, [Ext (OpenRead (ObjStr s))]))
    /\ (forall n,
          run env (_encode_image_to_base64 (ObjOther n)) hist self
          = (outcome_map encode_image (env hist (OpenRead (ObjOther n))),
             self, [Ext (OpenRead (ObjOther n))])).
Proof.
  intros env hist self. split; [| split; [| split]].
  - intros s Hs. apply encode_url, Hs.
  - intro f. apply encode_stream.
  - intros s Hs. apply encode_path_str, Hs.
  - intro n. apply encode_path_other.
Qed.

Lemma loader_classifies_source_witness :
  trace_of (run (scripted sunset) (_encode_image_to_base64 sunset_url) [] app)
  = [Ext (RequestsGet "https://example.com/sunset.jpg")]
  /\ trace_of (run (scripted sunset) (_encode_image_to_base64 local_path) [] app)
     = [Ext (OpenRead local_path)].
Proof.
  destruct (loader_classifies_source (scripted sunset) [] app)
    as [Hurl [_ [Hpath _]]].
  split.
  - unfold sunset_url. rewrite Hurl; reflexivity.
  - unfold local_path. rewrite Hpath; reflexivity.
Defined.

(** C3, as the code has it: for a URL source the loader makes one GET.  If
    the request raises, the loader raises that exception unchanged; if a
    response arrives, the loader returns the base64 text of its body and
    does not look at the status. *)
Theorem loader_remote_url :
  forall env url hist self,
    startswith url ["http://"; "https://"] = true ->
    trace_of (run env (_encode_image_to_base64 (ObjStr url)) hist self)
    = [Ext (RequestsGet url)]
    /\ (forall e, env hist (RequestsGet url) = Raised e ->
          result_of (run env (_encode_image_to_base64 (ObjStr url)) hist self)
          = Raised e)
    /\ (forall r, env hist (RequestsGet url) = Returned r ->
          result_of (run env (_encode_image_to_base64 (ObjStr url)) hist self)
          = Returned (encode_image (resp_content r))).
Proof.
  intros env url hist self Hurl.
  rewrite (encode_url env url hist self Hurl).
  split; [reflexivity|]. split.
  - intros e He. unfold result_of. simpl. rewrite He. reflexivity.
  - intros r Hr. unfold result_of. simpl. rewrite Hr. reflexivity.
Qed.

Lemma loader_remote_url_witness :
  result_of (run (scripted (with_get sunset (Raised connection_error)))
               (_encode_image_to_base64 sunset_url) [] app)
  = Raised connection_error.
Proof.
  destruct (loader_remote_url
              (scripted (with_get sunset (Raised connection_error)))
              "https://example.com/sunset.jpg" [] app)
    as [_ [Hfail _]]; [reflexivity|].
  apply Hfail. reflexivity.
Defined.

(** C3, as stated, fails: on a 404 response the loader does not fail; it
    returns the error page's body as the image. *)
Lemma loader_returns_error_page_body :
  status_code not_found = 404%Z
  /\ run (scripted (with_get sunset (Returned not_found)))
       (_encode_image_to_base64 sunset_url) [] app
     = (Returned "Tm90IEZvdW5k", app,
        [Ext (RequestsGet "https://example.com/sunset.jpg")]).
Proof.
  split.
  - reflexivity.
  - vm_compute. reflexivity.
Qed.

(** C7, as the code has it: the loader makes one call for the bytes.  If the
    call raises, the loader raises that exception unchanged; otherwise it
    returns the base64 text of all the bytes delivered, four characters for
    every three bytes or part thereof, which is empty exactly when no byte
    was delivered. *)
Theorem loader_returns_whole_payload :
  forall env src hist self,
    exists c : ext_call,
      trace_of (run env (_encode_image_to_base64 src) hist self) = [Ext c]
      /\ match env hist c with
         | Raised e =>
             result_of (run env (_encode_image_to_base64 src) hist self) = Raised e
         | Returned r =>
             let text := encode_image (payload c r) in
             result_of (run env (_encode_image_to_base64 src) hist self)
             = Returned text
             /\ String.length text = 4 * ((List.length (payload c r) + 2) / 3)
             /\ (text = "" <-> payload c r = [])
         end.
Proof.
  intros env src hist self.
  assert (Hshape : forall (c : ext_call) (o : outcome (ext_resp c)),
            match o with
            | Raised e => outcome_map (fun r => encode_image (payload c r)) o = Raised e
            | Returned r =>
                let text := encode_image (payload c r) in
                outcome_map (fun r => encode_image (payload c r)) o = Returned text
                /\ String.length text = 4 * ((List.length (payload c r) + 2) / 3)
                /\ (text = "" <-> payload c r = [])
            end).
  { intros c [r | e]; [| reflexivity].
    cbv zeta. split; [reflexivity|]. split.
    - apply encode_image_length.
    - apply encode_image_empty_iff. }
  destruct src as [s | f | n].
  - destruct (startswith s ["http://"; "https://"]) eqn:Hs.
    + exists (RequestsGet s). rewrite (encode_url env s hist self Hs).
      split; [reflexivity|]. exact (Hshape (RequestsGet s) (env hist (RequestsGet s))).
    + exists (OpenRead (ObjStr s)). rewrite (encode_path_str env s hist self Hs).
      split; [reflexivity|].
      exact (Hshape (OpenRead (ObjStr s)) (env hist (OpenRead (ObjStr s)))).
  - exists (StreamRead f). rewrite encode_stream.
    split; [reflexivity|]. exact (Hshape (StreamRead f) (env hist (StreamRead f))).
  - exists (OpenRead (ObjOther n)). rewrite encode_path_other.
    split; [reflexivity|].
    exact (Hshape (OpenRead (ObjOther n)) (env hist (OpenRead (ObjOther n)))).
Qed.

(** C7, as stated, fails: an uploaded file with no bytes makes the loader
    return the empty text, without an error. *)
Lemma loader_returns_empty_text :
  run (scripted (with_read sunset (Returned [])))
    (_encode_image_to_base64 uploaded_file) [] app
  = (Returned "", app, [Ext (StreamRead (Stream 3))]).
Proof. vm_compute. reflexivity. Qed.

(** ** A failing loader stops the pipeline *)

(** C5, as the code has it: when the URL of the image cannot be reached,
    the loader fails with the exception of the request, [process_image]
    fails with a plain [Exception] whose message is the two prefixes
    followed by the message of that exception, and the request is the only
    call made.  More generally, when the loader fails, the calls of the
    invocation are the loader's: neither the captioning service nor the
    embedding service nor the index is called. *)
Theorem loader_failure_stops_pipeline :
  forall (env : environment) ip hist self,
    (forall url e,
       startswith url ["http://"; "https://"] = true ->
       env hist (RequestsGet url) = Raised e ->
       result_of (run env (_encode_image_to_base64 (ObjStr url)) hist self)
       = Raised e
       /\ run env (process_image ip (ObjStr url)) hist self
          = (Raised (Exception
                       ("Error processing image: Error getting image description: "
                          ++ str_exn e)),
             self, [Ext (RequestsGet url)]))
    /\ (forall src e,
          result_of (run env (_encode_image_to_base64 src) hist self) = Raised e ->
          result_of (run env (process_image ip src) hist self)
          = Raised (Exception
                      ("Error processing image: Error getting image description: "
                         ++ str_exn e))
          /\ trace_of (run env (process_image ip src) hist self)
             = trace_of (run env (_encode_image_to_base64 src) hist self)
          /\ existsb later_stage_call
               (trace_of (run env (process_image ip src) hist self))
             = false).
Proof.
  intros env ip hist self. split.
  - intros url e Hurl Hget.
    rewrite process_run, describe_run, (encode_url env url hist self Hurl), Hget.
    split; reflexivity.
  - intros src e Hfail.
    assert (Hrun : trace_of (run env (process_image ip src) hist self)
                   = trace_of (run env (_encode_image_to_base64 src) hist self)
                   /\ result_of (run env (process_image ip src) hist self)
                      = Raised (pipeline_error (description_error e))).
    { rewrite process_run, describe_run.
      destruct (run env (_encode_image_to_base64 src) hist self)
        as [[[b | e'] s] t].
      - discriminate.
      - unfold result_of in Hfail. simpl in Hfail. injection Hfail as ->.
        split; reflexivity. }
    destruct Hrun as [Htrace Hres].
    split; [exact Hres|]. split; [exact Htrace|].
    rewrite Htrace.
    destruct (encode_one_call env src hist self) as [c [Hc [_ Hloader]]].
    rewrite Hc. simpl. destruct c; try reflexivity; discriminate.
Qed.

Lemma loader_failure_stops_pipeline_witness :
  run (scripted (with_get sunset (Raised connection_error)))
    (process_image host sunset_url) [] app
  = (Raised (Exception
       "Error processing image: Error getting image description: Max retries exceeded"),
     app, [Ext (RequestsGet "https://example.com/sunset.jpg")]).
Proof.
  destruct (loader_failure_stops_pipeline
              (scripted (with_get sunset (Raised connection_error)))
              host [] app)
    as [Hurl _].
  destruct (Hurl "https://example.com/sunset.jpg" connection_error) as [_ Hrun];
    [reflexivity | reflexivity | exact Hrun].
Defined.

(** C5, as stated, fails: no exception of the invocation tells that the
    fetch failed.  With the URL unreachable [process_image] raises an
    [Exception], which is not the exception of the request and is the very
    exception raised when the captioning service cannot be reached. *)
Lemma unreachable_url_raises_plain_exception :
  exists x,
    result_of (run (scripted (with_get sunset (Raised connection_error)))
                 (process_image host sunset_url) [] app)
    = Raised x
    /\ exn_class x = "Exception"
    /\ x <> connection_error
    /\ result_of (run (scripted (with_chat sunset (Raised connection_error)))
                    (process_image host sunset_url) [] app)
       = Raised x.
Proof.
  exists (Exception
            "Error processing image: Error getting image description: Max retries exceeded").
  split; [| split; [| split]].
  - vm_compute. reflexivity.
  - reflexivity.
  - discriminate.
  - vm_compute. reflexivity.
Qed.

(** ** The embedder *)

(** The lookup of a dict finds the member of a key the dict holds, and
    nothing for a key it does not hold. *)
Lemma dict_get_absent d key :
  ~ In key (map fst d) -> dict_get d key = None.
Proof.
  induction d as [| [k v] d IH]; intro Hnot; simpl.
  - reflexivity.
  - destruct (String.eqb k key) eqn:Hk.
    + apply String.eqb_eq in Hk. exfalso. apply Hnot. left. exact Hk.
    + apply IH. intro Hin. apply Hnot. right. exact Hin.
Qed.

Lemma dict_get_present d key v :
  NoDup (map fst d) -> In (key, v) d -> dict_get d key = Some v.
Proof.
  induction d as [| [k w] d IH]; intros Hnd Hin; simpl in *.
  - contradiction.
  - inversion Hnd as [| ? ? Hk Hnd']; subst.
    destruct Hin as [Heq | Hin].
    + injection Heq as -> ->. rewrite String.eqb_refl. reflexivity.
    + destruct (String.eqb k key) eqn:Hkey.
      * apply String.eqb_eq in Hkey. subst k. exfalso. apply Hk.
        change key with (fst (key, v)). apply in_map. exact Hin.
      * apply IH; assumption.
Qed.

Lemma dict_get_member d key v :
  dict_get d key = Some v -> In (key, v) d.
Proof.
  induction d as [| [k w] d IH]; simpl; intro Hget.
  - discriminate.
  - destruct (String.eqb k key) eqn:Hk.
    + apply String.eqb_eq in Hk. injection Hget as ->. subst k. left. reflexivity.
    + right. apply IH. exact Hget.
Qed.

(** C6: the embedder raises an [EmbeddingError] when the request fails,
    when the response is no JSON text, and when the JSON object of the
    response has no member [embedding] (the [KeyError] wrapped); when
    the object has the member [embedding], the embedder returns the value of
    that member.  Nothing else comes out of it: what it returns is the
    member [embedding] of the object the service answered with, and what it
    raises is an [EmbeddingError]. *)
Theorem embedder_returns_vector_or_fails :
  forall (env : environment) ip text hist self,
    (forall e, env hist (embed_request ip text) = Raised e ->
       result_of (run env (_generate_embedding ip text) hist self)
       = Raised (embedding_error e))
    /\ (forall (response : http_response) e,
          env hist (embed_request ip text) = Returned response ->
          resp_json response = Raised e ->
          result_of (run env (_generate_embedding ip text) hist self)
          = Raised (embedding_error e))
    /\ (forall (response : http_response) d,
          env hist (embed_request ip text) = Returned response ->
          resp_json response = Returned (PDict d) ->
          ~ In "embedding" (map fst d) ->
          result_of (run env (_generate_embedding ip text) hist self)
          = Raised (Exception "Error generating embedding: 'embedding'"))
    /\ (forall (response : http_response) d v,
          env hist (embed_request ip text) = Returned response ->
          resp_json response = Returned (PDict d) ->
          NoDup (map fst d) ->
          In ("embedding", v) d ->
          result_of (run env (_generate_embedding ip text) hist self) = Returned v)
    /\ match result_of (run env (_generate_embedding ip text) hist self) with
       | Returned v =>
           exists (response : http_response) d,
             env hist (embed_request ip text) = Returned response
             /\ resp_json response = Returned (PDict d)
             /\ In ("embedding", v) d
       | Raised x => EmbeddingError x
       end.
Proof.
  intros env ip text hist self. rewrite embed_run.
  split; [| split; [| split; [| split]]].
  - intros e He. rewrite He. reflexivity.
  - intros response e Hr Hj. rewrite Hr, Hj. reflexivity.
  - intros response d Hr Hj Hd. rewrite Hr, Hj. unfold result_of. simpl.
    rewrite (dict_get_absent d "embedding" Hd). reflexivity.
  - intros response d v Hr Hj Hnd Hd. rewrite Hr, Hj. unfold result_of. simpl.
    rewrite (dict_get_present d "embedding" v Hnd Hd). reflexivity.
  - destruct (env hist (embed_request ip text)) as [response | e].
    + destruct (resp_json response) as [json | e] eqn:Hj.
      * unfold result_of. simpl.
        destruct (subscript_str json "embedding") as [v | e] eqn:Hs.
        -- destruct json as [| b | z | f | s | l | d]; try discriminate.
           simpl in Hs.
           destruct (dict_get d "embedding") as [w |] eqn:Hget; [| discriminate].
           injection Hs as ->.
           exists response, d. repeat split; try assumption.
           apply dict_get_member. exact Hget.
        -- exists e. reflexivity.
      * exists e. reflexivity.
    + exists e. reflexivity.
Qed.

Lemma embedder_returns_vector_or_fails_witness :
  result_of (run (scripted sunset)
               (_generate_embedding host sunset_description) [] app)
  = Returned (PList [PFloat 0.1; PFloat 0.2; PFloat 0.3])
  /\ result_of (run (scripted (with_post sunset (Returned model_not_found)))
                  (_generate_embedding host sunset_description) [] app)
     = Raised (Exception "Error generating embedding: 'embedding'").
Proof.
  split.
  - destruct (embedder_returns_vector_or_fails
                (scripted sunset) host sunset_description [] app)
      as [_ [_ [_ [Hpresent _]]]].
    apply (Hpresent
             {| status_code := 200; resp_content := [];
                resp_json := Returned (PDict [("embedding", sunset_vector)]) |}
             [("embedding", sunset_vector)]).
    + reflexivity.
    + reflexivity.
    + constructor; [intros [] | constructor].
    + left. reflexivity.
  - destruct (embedder_returns_vector_or_fails
                (scripted (with_post sunset (Returned model_not_found)))
                host sunset_description [] app)
      as [_ [_ [Hmissing _]]].
    apply (Hmissing model_not_found [("error", PStr "model not found")]).
    + reflexivity.
    + reflexivity.
    + intros [H | []]. discriminate H.
Defined.

(** ** The descriptor *)

(** C8, as the code has it: the descriptor returns the text of the first
    choice of the captioning service as it is.  The request asks for a text
    without quotation mark or apostrophe and for at most 300 tokens; the
    returned description has such a character exactly when the service's
    text has one. *)
Theorem descriptor_returns_service_text :
  forall (env : environment) src hist self b s t (response : chat_completion)
         choice rest,
    run env (_encode_image_to_base64 src) hist self = (Returned b, s, t) ->
    env (hist ++ t) (ChatCreate (caption_request b)) = Returned response ->
    choices response = choice :: rest ->
    result_of (run env (_get_image_description src) hist self)
    = Returned (message_content choice)
    /\ (forall d,
          result_of (run env (_get_image_description src) hist self) = Returned d ->
          has_forbidden d = has_forbidden (message_content choice))
    /\ max_tokens (caption_request b) = 300%Z
    /\ exists before : string,
         caption_prompt
         = (before ++ "DO NOT USE QUOTATION MARKS OR APOSTROPHE IN THE OUTPUT!")%string.
Proof.
  intros env src hist self b s t response choice rest Hload Hchat Hchoices.
  assert (Hres : result_of (run env (_get_image_description src) hist self)
                 = Returned (message_content choice)).
  { rewrite describe_run, Hload. cbv zeta. rewrite Hchat, Hchoices. reflexivity. }
  split; [exact Hres|]. split; [| split].
  - intros d Hd. rewrite Hres in Hd. injection Hd as <-. reflexivity.
  - reflexivity.
  - exists (substring 0 (String.length caption_prompt - 55) caption_prompt).
    vm_compute. reflexivity.
Qed.

Lemma descriptor_returns_service_text_witness :
  result_of (run (scripted sunset) (_get_image_description uploaded_file) [] app)
  = Returned sunset_description.
Proof.
  apply (descriptor_returns_service_text (scripted sunset) uploaded_file [] app
           (encode_image sunset_image) app [Ext (StreamRead (Stream 3))]
           {| choices := [ {| message_content := sunset_description |} ] |}
           {| message_content := sunset_description |} []).
  - vm_compute. reflexivity.
  - reflexivity.
  - reflexivity.
Defined.

(** C8, as stated, fails: when the service answers with an apostrophe, the
    description has it. *)
Lemma descriptor_returns_apostrophe :
  result_of (run (scripted (with_chat sunset
                              (Returned {| choices := [ {| message_content := its_a_sunset |} ] |})))
               (_get_image_description uploaded_file) [] app)
  = Returned its_a_sunset
  /\ has_forbidden its_a_sunset = true.
Proof.
  split.
  - vm_compute. reflexivity.
  - reflexivity.
Qed.

(** ** The matcher *)

(** C4, as the code has it: the matcher asks the index of [self] for [top_k]
    records with their metadata and returns the records of the answer as
    they are, in their number and order; the default of [top_k] is 5. *)
Theorem matcher_returns_index_matches :
  forall (env : environment) embedding top_k hist self h (results : query_response),
    index self = Some h ->
    env (hist ++ [GetSelfIndex]) (IndexQuery h embedding top_k true)
    = Returned results ->
    run env (_query_pinecone embedding top_k) hist self
    = (Returned (qr_matches results), self,
       [GetSelfIndex; Ext (IndexQuery h embedding top_k true)])
    /\ default_top_k = 5%Z.
Proof.
  intros env embedding top_k hist self h results Hindex Hquery.
  split; [| reflexivity].
  rewrite query_run, Hindex. cbv zeta. rewrite Hquery. reflexivity.
Qed.

Lemma matcher_returns_index_matches_witness :
  run (scripted (with_query sunset (Returned two_records)))
    (_query_pinecone sunset_vector 5) [] app
  = (Returned [here_comes_the_sun; let_it_be], app,
     [GetSelfIndex; Ext (IndexQuery songs sunset_vector 5 true)]).
Proof.
  apply (matcher_returns_index_matches
           (scripted (with_query sunset (Returned two_records)))
           sunset_vector 5%Z [] app songs two_records).
  - reflexivity.
  - reflexivity.
Defined.

(** C4, as stated, fails: when the index answers with six records out of
    order to a query for five, the matcher returns the six, out of order. *)
Lemma matcher_returns_more_than_top_k_unsorted :
  exists m,
    result_of (run (scripted (with_query sunset (Returned six_unsorted)))
                 (_query_pinecone sunset_vector default_top_k) [] app)
    = Returned m
    /\ (Z.of_nat (List.length m) >? default_top_k)%Z = true
    /\ sorted_desc m = false.
Proof.
  exists (qr_matches six_unsorted). split; [| split].
  - vm_compute. reflexivity.
  - reflexivity.
  - vm_compute. reflexivity.
Qed.

(** ** Statelessness *)

Lemma encode_read_only src : read_only (_encode_image_to_base64 src).
Proof.
  unfold _encode_image_to_base64.
  apply read_only_bind; [| intro; exact I].
  destruct (isinstance_str src && startswith (str_value src) ["http://"; "https://"]).
  - apply read_only_bind; [| intro; exact I].
    apply (read_only_perform (Ext (RequestsGet (str_value src)))). reflexivity.
  - destruct src as [s | f | n]; cbn [hasattr_read call_read].
    + apply (read_only_perform (Ext (OpenRead (ObjStr s)))). reflexivity.
    + apply (read_only_perform (Ext (StreamRead f))). reflexivity.
    + apply (read_only_perform (Ext (OpenRead (ObjOther n)))). reflexivity.
Qed.

Lemma describe_read_only src : read_only (_get_image_description src).
Proof.
  unfold _get_image_description, _get_image_description_try.
  apply read_only_try_except; [| intro; exact I].
  apply read_only_bind; [apply encode_read_only |]. intro b.
  apply read_only_bind; [apply read_only_perform; reflexivity |]. intro response.
  apply read_only_bind; [apply read_only_lift |]. intro choice. exact I.
Qed.

Lemma embed_read_only ip text : read_only (_generate_embedding ip text).
Proof.
  unfold _generate_embedding, _generate_embedding_try. cbv zeta.
  apply read_only_try_except; [| intro; exact I].
  apply read_only_bind; [apply read_only_perform; reflexivity |]. intro response.
  apply read_only_bind; [apply read_only_lift |]. intro j.
  apply read_only_bind; [apply read_only_perform; reflexivity |]. intros _.
  apply read_only_bind; [apply read_only_lift |]. intro j'.
  apply read_only_lift.
Qed.

Lemma query_read_only embedding top_k : read_only (_query_pinecone embedding top_k).
Proof.
  unfold _query_pinecone, _query_pinecone_try.
  apply read_only_try_except; [| intro; exact I].
  apply read_only_bind; [apply read_only_perform; reflexivity |]. intro h.
  apply read_only_bind; [apply read_only_perform; reflexivity |]. intro results.
  exact I.
Qed.

Lemma process_read_only ip src : read_only (process_image ip src).
Proof.
  unfold process_image, process_image_try.
  apply read_only_try_except; [| intro; exact I].
  apply read_only_bind; [apply describe_read_only |]. intro d.
  apply read_only_bind; [apply embed_read_only |]. intro v.
  apply read_only_bind; [apply query_read_only |]. intro m.
  apply read_only_bind; [apply read_only_perform; reflexivity |]. intros _.
  exact I.
Qed.

Lemma embed_stream_free ip text : stream_free (_generate_embedding ip text).
Proof.
  unfold _generate_embedding, _generate_embedding_try. cbv zeta.
  apply stream_free_try_except; [| intro; exact I].
  apply stream_free_bind; [apply stream_free_perform; reflexivity |]. intro response.
  apply stream_free_bind; [apply stream_free_lift |]. intro j.
  apply stream_free_bind; [apply stream_free_perform; reflexivity |]. intros _.
  apply stream_free_bind; [apply stream_free_lift |]. intro j'.
  apply stream_free_lift.
Qed.

Lemma query_stream_free embedding top_k : stream_free (_query_pinecone embedding top_k).
Proof.
  unfold _query_pinecone, _query_pinecone_try.
  apply stream_free_try_except; [| intro; exact I].
  apply stream_free_bind; [apply stream_free_perform; reflexivity |]. intro h.
  apply stream_free_bind; [apply stream_free_perform; reflexivity |]. intro results.
  exact I.
Qed.

(** The loader reads a stream with its first call at most, and so does the
    invocation. *)
Lemma encode_stream_free_after_first src :
  stream_free_after_first (_encode_image_to_base64 src).
Proof.
  unfold _encode_image_to_base64.
  apply stream_free_after_first_bind; [| intro; exact I].
  destruct (isinstance_str src && startswith (str_value src) ["http://"; "https://"]).
  - apply stream_free_after_first_bind; [| intro; exact I].
    apply stream_free_after_first_perform.
  - destruct src as [s | f | n]; cbn [hasattr_read call_read];
      apply stream_free_after_first_perform.
Qed.

Lemma process_stream_free_after_first ip src :
  stream_free_after_first (process_image ip src).
Proof.
  unfold process_image, process_image_try.
  apply stream_free_after_first_try_except; [| intro; exact I].
  apply stream_free_after_first_bind.
  - unfold _get_image_description, _get_image_description_try.
    apply stream_free_after_first_try_except; [| intro; exact I].
    apply stream_free_after_first_bind; [apply encode_stream_free_after_first |].
    intro b.
    apply stream_free_bind; [apply stream_free_perform; reflexivity |].
    intro response.
    apply stream_free_bind; [apply stream_free_lift | intro; exact I].
  - intro d.
    apply stream_free_bind; [apply embed_stream_free |]. intro v.
    apply stream_free_bind; [apply query_stream_free |]. intro m.
    apply stream_free_bind; [apply stream_free_perform; reflexivity |].
    intros _. exact I.
Qed.

(** The only stream an invocation reads is its source. *)
Lemma process_first_stream ip src f :
  first_stream (process_image ip src) = Some f -> src = ObjFile f.
Proof.
  unfold process_image, process_image_try, _get_image_description,
    _get_image_description_try, _encode_image_to_base64.
  destruct src as [s | g | n]; cbn [isinstance_str hasattr_read call_read andb str_value].
  - destruct (startswith s ["http://"; "https://"]); cbn; discriminate.
  - cbn. intro H. injection H as ->. reflexivity.
  - cbn. discriminate.
Qed.

(** C9, as the code has it: [process_image] does not assign to [self]: the
    object is after the invocation what it was before, whether the
    invocation returned or raised, in every world.  It keeps nothing else of
    its own, but it reads its source: when the services answer a request by
    the request alone, and the source, if it is a stream, delivers to the
    second invocation what it delivered to the first, invoking again with
    the same argument gives the same outcome and the same calls.  A source
    that is a URL or a path is no stream, so for it the services alone
    decide. *)
Theorem process_image_keeps_no_state :
  forall (env : environment) ip src hist self,
    self_of (run env (process_image ip src) hist self) = self
    /\ (answers_by_request env ->
        (forall f, src = ObjFile f ->
           env (hist ++ trace_of (run env (process_image ip src) hist self))
             (StreamRead f)
           = env hist (StreamRead f)) ->
        run env (process_image ip src)
          (hist ++ trace_of (run env (process_image ip src) hist self))
          (self_of (run env (process_image ip src) hist self))
        = run env (process_image ip src) hist self)
    /\ (answers_by_request env ->
        hasattr_read src = false ->
        run env (process_image ip src)
          (hist ++ trace_of (run env (process_image ip src) hist self))
          (self_of (run env (process_image ip src) hist self))
        = run env (process_image ip src) hist self).
Proof.
  intros env ip src hist self.
  assert (Hself : self_of (run env (process_image ip src) hist self) = self)
    by (apply read_only_run, process_read_only).
  split; [exact Hself |]. rewrite Hself. split.
  - intros Henv Hsource.
    apply stream_free_after_first_run;
      [exact Henv | apply process_stream_free_after_first |].
    intros f Hf. apply Hsource, (process_first_stream ip src f Hf).
  - intros Henv Hsrc.
    apply stream_free_after_first_run;
      [exact Henv | apply process_stream_free_after_first |].
    intros f Hf. apply process_first_stream in Hf. subst src. discriminate.
Qed.

(** The streams of [one_shot] apart, that world answers by the request. *)
Lemma one_shot_answers_by_request s : answers_by_request (one_shot s).
Proof. intros h1 h2 c Hc. destruct c; try reflexivity. discriminate. Qed.

Lemma process_image_keeps_no_state_witness :
  self_of (run (one_shot sunset) (process_image host sunset_url) [] app) = app
  /\ run (one_shot sunset) (process_image host sunset_url)
       ([] ++ trace_of (run (one_shot sunset) (process_image host sunset_url) [] app))
       (self_of (run (one_shot sunset) (process_image host sunset_url) [] app))
     = run (one_shot sunset) (process_image host sunset_url) [] app.
Proof.
  destruct (process_image_keeps_no_state (one_shot sunset) host sunset_url [] app)
    as [Hself [_ Hagain]].
  split; [exact Hself |].
  apply Hagain; [apply one_shot_answers_by_request | reflexivity].
Defined.

(** C9, as stated, fails: an uploaded file is read to its end by the first
    invocation.  In a world whose services answer by the request, the second
    invocation with the same file finds no byte left and sends another
    request to the captioning service: the empty image. *)
Lemma second_invocation_sends_empty_image :
  answers_by_request (one_shot sunset)
  /\ trace_of (run (one_shot sunset) (process_image host uploaded_file) [] app)
     = [ Ext (StreamRead (Stream 3));
         Ext (ChatCreate (caption_request (encode_image sunset_image)));
         Ext (embed_request host sunset_description);
         Print (PrintedVal (PDict [("embedding", sunset_vector)]));
         GetSelfIndex;
         Ext (IndexQuery songs sunset_vector 5 true);
         Print (PrintedMatches [here_comes_the_sun]) ]
  /\ trace_of
       (run (one_shot sunset) (process_image host uploaded_file)
          ([] ++ trace_of (run (one_shot sunset) (process_image host uploaded_file) [] app))
          (self_of (run (one_shot sunset) (process_image host uploaded_file) [] app)))
     = [ Ext (StreamRead (Stream 3));
         Ext (ChatCreate (caption_request ""));
         Ext (embed_request host sunset_description);
         Print (PrintedVal (PDict [("embedding", sunset_vector)]));
         GetSelfIndex;
         Ext (IndexQuery songs sunset_vector 5 true);
         Print (PrintedMatches [here_comes_the_sun]) ]
  /\ encode_image sunset_image <> "".
Proof.
  split; [apply one_shot_answers_by_request |].
  split; [vm_compute; reflexivity |].
  split; [vm_compute; reflexivity |].
  vm_compute. discriminate.
Qed.

(** * Further properties *)

(** ** The base64 text can be read back *)

Lemma testbit_63 (k : N) : N.testbit 63 k = (k <? 6)%N.
Proof.
  change 63%N with (N.ones 6).
  destruct (N.ltb_spec k 6) as [Hlt | Hge].
  - apply N.ones_spec_low, Hlt.
  - apply N.ones_spec_high, Hge.
Qed.

Lemma testbit_byte_high (a : byte) (n : N) :
  (8 <= n)%N -> N.testbit (Byte.to_N a) n = false.
Proof.
  intro Hn.
  destruct (N.eq_dec (Byte.to_N a) 0) as [Hz | Hnz].
  - rewrite Hz. apply N.bits_0.
  - apply N.bits_above_log2.
    assert (Hb : (Byte.to_N a <= 255)%N) by apply Byte.to_N_bounded.
    assert (Hlog : (N.log2 (Byte.to_N a) < 8)%N).
    { apply N.log2_lt_pow2; [lia |]. change (2 ^ 8)%N with 256%N. lia. }
    lia.
Qed.

(** The bits of a group: those of the third byte, then of the second, then
    of the first. *)
Lemma group24_bits (a b c : byte) (m : N) :
  N.testbit (group24 a b c) m
  = if (m <? 8)%N then N.testbit (Byte.to_N c) m
    else if (m <? 16)%N then N.testbit (Byte.to_N b) (m - 8)
         else N.testbit (Byte.to_N a) (m - 16).
Proof.
  unfold group24. rewrite !N.lor_spec.
  destruct (N.ltb_spec m 8) as [H8 | H8].
  - rewrite (N.shiftl_spec_low _ 16 m) by lia.
    rewrite (N.shiftl_spec_low _ 8 m) by lia. reflexivity.
  - rewrite (testbit_byte_high c m) by lia.
    destruct (N.ltb_spec m 16) as [H16 | H16].
    + rewrite (N.shiftl_spec_low _ 16 m) by lia.
      rewrite (N.shiftl_spec_high' _ 8 m) by lia.
      rewrite orb_false_r. reflexivity.
    + rewrite (N.shiftl_spec_high' _ 16 m) by lia.
      rewrite (N.shiftl_spec_high' _ 8 m) by lia.
      rewrite (testbit_byte_high b (m - 8)) by lia.
      rewrite !orb_false_r. reflexivity.
Qed.

Lemma six_bits (g shift k : N) :
  N.testbit (six g shift) k = (N.testbit g (k + shift) && (k <? 6)%N).
Proof.
  unfold six. rewrite N.land_spec, N.shiftr_spec', testbit_63. reflexivity.
Qed.

Lemma byte_of_to_N (a : byte) : byte_of_N (Byte.to_N a) = a.
Proof. unfold byte_of_N. rewrite Byte.of_to_N. reflexivity. Qed.

Ltac split_ltb :=
  repeat match goal with
         | |- context [(?x <? ?y)%N] => destruct (N.ltb_spec x y)
         end.

Lemma first_byte_group (a b c : byte) :
  first_byte (six (group24 a b c) 18) (six (group24 a b c) 12) = a.
Proof.
  unfold first_byte. rewrite <- (byte_of_to_N a) at 3. f_equal.
  apply N.bits_inj. intro n.
  rewrite N.lor_spec, N.shiftr_spec', six_bits.
  destruct (N.ltb_spec n 2) as [H2 | H2].
  - rewrite (N.shiftl_spec_low _ 2 n) by lia.
    rewrite group24_bits. split_ltb; try lia.
    simpl. rewrite andb_true_r. f_equal. lia.
  - rewrite (N.shiftl_spec_high' _ 2 n) by lia.
    rewrite six_bits, !group24_bits.
    destruct (N.ltb_spec n 8) as [H8 | H8].
    + split_ltb; try lia.
      rewrite andb_true_r, andb_false_r, orb_false_r. f_equal. lia.
    + rewrite (testbit_byte_high a n) by lia.
      split_ltb; try lia; rewrite ?andb_false_r; reflexivity.
Qed.

Lemma second_byte_group (a b c : byte) :
  second_byte (six (group24 a b c) 12) (six (group24 a b c) 6) = b.
Proof.
  unfold second_byte. rewrite <- (byte_of_to_N b) at 3. f_equal.
  apply N.bits_inj. intro n.
  rewrite N.lor_spec, N.shiftr_spec', six_bits.
  change 15%N with (N.ones 4).
  destruct (N.ltb_spec n 4) as [H4 | H4].
  - rewrite (N.shiftl_spec_low _ 4 n) by lia.
    rewrite group24_bits. split_ltb; try lia.
    simpl. rewrite andb_true_r. f_equal. lia.
  - rewrite (N.shiftl_spec_high' _ 4 n) by lia.
    rewrite N.land_spec, six_bits, !group24_bits.
    destruct (N.ltb_spec n 8) as [H8 | H8].
    + rewrite (N.ones_spec_low 4 (n - 4)) by lia.
      split_ltb; try lia.
      rewrite !andb_true_r, andb_false_r, orb_false_r. f_equal. lia.
    + rewrite (testbit_byte_high b n) by lia.
      rewrite (N.ones_spec_high 4 (n - 4)) by lia.
      split_ltb; try lia; rewrite ?andb_false_r; reflexivity.
Qed.

Lemma third_byte_group (a b c : byte) :
  third_byte (six (group24 a b c) 6) (six (group24 a b c) 0) = c.
Proof.
  unfold third_byte. rewrite <- (byte_of_to_N c) at 3. f_equal.
  apply N.bits_inj. intro n.
  rewrite N.lor_spec, six_bits.
  change 3%N with (N.ones 2).
  destruct (N.ltb_spec n 6) as [H6 | H6].
  - rewrite (N.shiftl_spec_low _ 6 n) by lia.
    rewrite group24_bits. split_ltb; try lia.
    simpl. rewrite andb_true_r. f_equal. lia.
  - rewrite (N.shiftl_spec_high' _ 6 n) by lia.
    rewrite N.land_spec, six_bits, !group24_bits.
    destruct (N.ltb_spec n 8) as [H8 | H8].
    + rewrite (N.ones_spec_low 2 (n - 6)) by lia.
      split_ltb; try lia.
      rewrite !andb_true_r, andb_false_r, orb_false_r. f_equal. lia.
    + rewrite (testbit_byte_high c n) by lia.
      rewrite (N.ones_spec_high 2 (n - 6)) by lia.
      split_ltb; try lia; rewrite ?andb_false_r; reflexivity.
Qed.


Lemma six_lt_64 (g shift : N) : (six g shift < 64)%N.
Proof.
  unfold six. change 63%N with (N.ones 6). rewrite N.land_ones.
  apply N.mod_lt. discriminate.
Qed.

(** Every character of the alphabet stands at one place only. *)
Lemma b64_index_char_nat (m : nat) :
  (m < 64)%nat ->
  b64_index (match String.get m b64_alphabet with
             | Some c => c
             | None => pad_char
             end) = Some (N.of_nat m).
Proof.
  intro Hm.
  assert (Hall : forallb
                   (fun i =>
                      match b64_index (match String.get i b64_alphabet with
                                       | Some c => c
                                       | None => pad_char
                                       end) with
                      | Some j => N.eqb j (N.of_nat i)
                      | None => false
                      end) (seq 0 64) = true) by reflexivity.
  rewrite forallb_forall in Hall.
  specialize (Hall m). rewrite in_seq in Hall.
  specialize (Hall (conj (Nat.le_0_l m) Hm)).
  destruct (b64_index _) as [j |]; [| discriminate].
  apply N.eqb_eq in Hall. now subst j.
Qed.

Lemma b64_index_sextet (g i : N) :
  b64_index (sextet g i) = Some (six g (18 - 6 * i)).
Proof.
  unfold sextet, b64_char. fold (six g (18 - 6 * i)).
  pose proof (six_lt_64 g (18 - 6 * i)) as Hlt.
  rewrite b64_index_char_nat by lia.
  rewrite N2Nat.id. reflexivity.
Qed.

Lemma b64_index_pad : b64_index pad_char = None.
Proof. reflexivity. Qed.

(** Decoding what [b64encode] wrote gives the bytes back. *)
Lemma b64decode_encode_chars (data : bytes) :
  b64decode_chars (b64encode_chars data) = Some data.
Proof.
  induction data as [| a | a b | a b c l IH] using list_ind3.
  - reflexivity.
  - cbn [b64encode_chars b64decode_chars].
    rewrite !b64_index_sextet, b64_index_pad.
    change (18 - 6 * 0)%N with 18%N. change (18 - 6 * 1)%N with 12%N.
    rewrite Ascii.eqb_refl. cbn [andb].
    rewrite first_byte_group. reflexivity.
  - cbn [b64encode_chars b64decode_chars].
    rewrite !b64_index_sextet, b64_index_pad.
    change (18 - 6 * 0)%N with 18%N. change (18 - 6 * 1)%N with 12%N.
    change (18 - 6 * 2)%N with 6%N.
    rewrite Ascii.eqb_refl.
    rewrite first_byte_group, second_byte_group. reflexivity.
  - cbn [b64encode_chars b64decode_chars].
    rewrite !b64_index_sextet.
    change (18 - 6 * 0)%N with 18%N. change (18 - 6 * 1)%N with 12%N.
    change (18 - 6 * 2)%N with 6%N. change (18 - 6 * 3)%N with 0%N.
    rewrite IH. cbn [option_map].
    rewrite first_byte_group, second_byte_group, third_byte_group. reflexivity.
Qed.

Lemma list_ascii_of_list (l : list ascii) :
  list_ascii_of_string (string_of_list_ascii l) = l.
Proof. induction l as [| c l IH]; simpl; [reflexivity | now rewrite IH]. Qed.

(** X1: the text the loader hands to the descriptor holds the image
    without loss: decoding it gives back the bytes that were read. *)
Theorem encode_image_round_trip :
  forall data : bytes, b64decode (encode_image data) = Some data.
Proof.
  intro data. unfold b64decode, encode_image.
  rewrite decode_b64encode, list_ascii_of_list.
  apply b64decode_encode_chars.
Qed.

(** X2: two different payloads are never sent as the same text. *)
Theorem encode_image_injective :
  forall d1 d2 : bytes, encode_image d1 = encode_image d2 -> d1 = d2.
Proof.
  intros d1 d2 Heq.
  assert (H1 : b64decode_chars (b64encode_chars d1) = Some d1)
    by apply b64decode_encode_chars.
  assert (H2 : b64decode_chars (b64encode_chars d2) = Some d2)
    by apply b64decode_encode_chars.
  unfold encode_image in Heq. rewrite !decode_b64encode in Heq.
  apply (f_equal list_ascii_of_string) in Heq.
  rewrite !list_ascii_of_list in Heq.
  rewrite Heq in H1. rewrite H1 in H2. now injection H2.
Qed.

Lemma encode_image_injective_witness :
  list_byte_of_string "Man" = [x4d; x61; x6e].
Proof.
  apply (encode_image_injective (list_byte_of_string "Man") [x4d; x61; x6e]).
  reflexivity.
Defined.

(** X3: the text is made of the 64 characters of the alphabet and of the
    padding character only; in particular it holds no quotation mark and no
    apostrophe, whatever the bytes. *)
Theorem encode_image_alphabet :
  forall data : bytes,
    forallb b64_symbol (list_ascii_of_string (encode_image data)) = true
    /\ has_forbidden (encode_image data) = false.
Proof.
  intro data.
  assert (Hchars : forall l,
             forallb b64_symbol l = true ->
             has_forbidden (string_of_list_ascii l) = false).
  { induction l as [| c l IH]; [reflexivity |].
    cbn [forallb string_of_list_ascii has_forbidden].
    intro H. apply andb_true_iff in H. destruct H as [Hc Hl].
    rewrite (IH Hl), orb_false_r.
    unfold forbidden.
    destruct (Ascii.eqb_spec c quotation_mark) as [-> | _]; [discriminate Hc |].
    destruct (Ascii.eqb_spec c apostrophe) as [-> | _]; [discriminate Hc |].
    reflexivity. }
  assert (Hsym : forallb b64_symbol (b64encode_chars data) = true).
  { assert (Hsextet : forall g i, b64_symbol (sextet g i) = true).
    { intros g i. unfold b64_symbol. rewrite b64_index_sextet. reflexivity. }
    induction data as [| a | a b | a b c l IH] using list_ind3;
      cbn [b64encode_chars forallb]; rewrite ?Hsextet, ?IH; reflexivity. }
  unfold encode_image. rewrite decode_b64encode, list_ascii_of_list.
  split; [exact Hsym | apply Hchars, Hsym].
Qed.


(** ** The calls of an invocation *)

(** The calls each method can have made when it stops. *)
Lemma describe_trace env src hist self :
  exists c : ext_call,
    loader_call c = true
    /\ ((exists e, run env (_get_image_description src) hist self
                   = (Raised (description_error e), self, [Ext c]))
        \/ (exists b o,
              run env (_get_image_description src) hist self
              = (o, self, [Ext c; Ext (ChatCreate (caption_request b))]))).
Proof.
  destruct (encode_one_call env src hist self) as [c [Htr [Hself Hc]]].
  exists c. split; [exact Hc |].
  rewrite describe_run.
  destruct (run env (_encode_image_to_base64 src) hist self) as [[[b | e] s] t];
    unfold trace_of, self_of in Htr, Hself; simpl in Htr, Hself; subst s t.
  - right. exists b. eexists. reflexivity.
  - left. exists e. reflexivity.
Qed.

Lemma embed_trace env ip text hist self :
  exists o,
    run env (_generate_embedding ip text) hist self
    = (o, self, [Ext (embed_request ip text)])
    \/ exists json,
         run env (_generate_embedding ip text) hist self
         = (o, self, [Ext (embed_request ip text); Print (PrintedVal json)]).
Proof.
  rewrite embed_run.
  destruct (env hist (embed_request ip text)) as [response | e].
  - destruct (resp_json response) as [json | e].
    + eexists. right. exists json. reflexivity.
    + eexists. left. reflexivity.
  - eexists. left. reflexivity.
Qed.

Lemma query_trace env embedding top_k hist self :
  exists o,
    run env (_query_pinecone embedding top_k) hist self = (o, self, [GetSelfIndex])
    \/ exists h,
         run env (_query_pinecone embedding top_k) hist self
         = (o, self, [GetSelfIndex; Ext (IndexQuery h embedding top_k true)]).
Proof.
  rewrite query_run.
  destruct (index self) as [h |].
  - eexists. right. exists h. reflexivity.
  - eexists. left. reflexivity.
Qed.

Lemma loader_call_stage (c : ext_call) :
  loader_call c = true -> call_stage (Ext c) = Some Loader.
Proof. destruct c; simpl; intro H; try discriminate; reflexivity. Qed.

Lemma loader_call_remote (c : ext_call) (st : stage) :
  loader_call c = true ->
  remote_call_of st (Ext c) = match st with Loader => true | _ => false end.
Proof. destruct c, st; simpl; intro H; try discriminate; reflexivity. Qed.

(** The method-level run in terms of the run of its [try] block. *)
Lemma describe_of_try env src hist self :
  run env (_get_image_description src) hist self
  = match run env (_get_image_description_try src) hist self with
    | (Returned d, s, t) => (Returned d, s, t)
    | (Raised e, s, t) => (Raised (description_error e), s, t)
    end.
Proof. unfold _get_image_description. apply run_wrap. Qed.

Lemma embed_of_try env ip text hist self :
  run env (_generate_embedding ip text) hist self
  = match run env (_generate_embedding_try ip text) hist self with
    | (Returned v, s, t) => (Returned v, s, t)
    | (Raised e, s, t) => (Raised (embedding_error e), s, t)
    end.
Proof. unfold _generate_embedding. apply run_wrap. Qed.

Lemma query_of_try env embedding top_k hist self :
  run env (_query_pinecone embedding top_k) hist self
  = match run env (_query_pinecone_try embedding top_k) hist self with
    | (Returned m, s, t) => (Returned m, s, t)
    | (Raised e, s, t) => (Raised (query_error e), s, t)
    end.
Proof. unfold _query_pinecone. apply run_wrap. Qed.


Ltac count_remote Hc :=
  unfold trace_of, embed_request;
  cbv beta iota delta [snd Datatypes.app filter];
  rewrite (loader_call_remote _ _ Hc);
  match goal with st : stage |- _ => destruct st end;
  simpl; lia.

(** X4: whatever the services answer, one invocation calls each of them at
    most once: the source of the image, the captioning service, the
    embedding service and the index are never asked a second time. *)
Theorem process_image_never_retries :
  forall (env : environment) ip src hist self st,
    List.length
      (filter (remote_call_of st)
         (trace_of (run env (process_image ip src) hist self))) <= 1.
Proof.
  intros env ip src hist self st. rewrite process_run.
  destruct (describe_trace env src hist self) as [c [Hc [[e Hd] | [b [o Hd]]]]];
    rewrite Hd.
  - count_remote Hc.
  - destruct o as [d | e].
    + match goal with
      | |- context [run env (_generate_embedding ip d) ?h self] =>
          destruct (embed_trace env ip d h self) as [o2 [He | [j He]]]; rewrite He
      end.
      * destruct o2 as [v | e].
        -- match goal with
           | |- context [run env (_query_pinecone v default_top_k) ?h self] =>
               destruct (query_trace env v default_top_k h self)
                 as [o3 [Hq | [h' Hq]]]; rewrite Hq
           end;
           destruct o3; count_remote Hc.
        -- count_remote Hc.
      * destruct o2 as [v | e].
        -- match goal with
           | |- context [run env (_query_pinecone v default_top_k) ?h self] =>
               destruct (query_trace env v default_top_k h self)
                 as [o3 [Hq | [h' Hq]]]; rewrite Hq
           end;
           destruct o3; count_remote Hc.
        -- count_remote Hc.
    + count_remote Hc.
Qed.


Ltac stages_upto Hc :=
  unfold trace_of, embed_request, not_after;
  cbv beta iota delta [snd Datatypes.app forallb];
  rewrite (loader_call_stage _ Hc);
  reflexivity.

(** X5: a stage that fails ends the invocation.  When a stage fails, every
    call of the invocation belongs to that stage or to a stage before it:
    no later stage is started and the orchestrator prints nothing. *)
Theorem failure_stops_later_stages :
  forall (env : environment) ip src hist self st cause,
    first_failure env ip src hist self = Some (st, cause) ->
    forallb (not_after st)
      (trace_of (run env (process_image ip src) hist self)) = true.
Proof.
  intros env ip src hist self st cause Hfail.
  unfold first_failure in Hfail.
  rewrite process_run.
  pose proof (describe_of_try env src hist self) as Hd.
  destruct (describe_trace env src hist self) as [c [Hc Hshape]].
  destruct (run env (_encode_image_to_base64 src) hist self)
    as [[[b0 | e0] s0] t0] eqn:Henc.
  - destruct (run env (_get_image_description_try src) hist self)
      as [[[d | e] s1] t1].
    + rewrite Hd.
      destruct Hshape as [[e Hs] | [b [o Hs]]]; rewrite Hd in Hs;
        [discriminate |].
      injection Hs as _ -> ->.
      pose proof (embed_of_try env ip d
                    (hist ++ [Ext c; Ext (ChatCreate (caption_request b))]) self)
        as He.
      destruct (embed_trace env ip d
                  (hist ++ [Ext c; Ext (ChatCreate (caption_request b))]) self)
        as [o2 Hshape2].
      destruct (run env (_generate_embedding_try ip d)
                  (hist ++ [Ext c; Ext (ChatCreate (caption_request b))]) self)
        as [[[v | e] s2] t2].
      * rewrite He.
        destruct Hshape2 as [Hs | [j Hs]]; rewrite He in Hs;
          injection Hs as _ -> ->.
        -- match type of Hfail with
           | context [run env (_query_pinecone_try v default_top_k) ?h self] =>
               pose proof (query_of_try env v default_top_k h self) as Hq;
               destruct (query_trace env v default_top_k h self) as [o3 Hshape3];
               destruct (run env (_query_pinecone_try v default_top_k) h self)
                 as [[[m | e] s3] t3]
           end; [discriminate |].
           injection Hfail as <- <-. rewrite Hq.
           destruct Hshape3 as [Hs | [h Hs]]; rewrite Hq in Hs;
             injection Hs as _ -> ->; stages_upto Hc.
        -- match type of Hfail with
           | context [run env (_query_pinecone_try v default_top_k) ?h self] =>
               pose proof (query_of_try env v default_top_k h self) as Hq;
               destruct (query_trace env v default_top_k h self) as [o3 Hshape3];
               destruct (run env (_query_pinecone_try v default_top_k) h self)
                 as [[[m | e] s3] t3]
           end; [discriminate |].
           injection Hfail as <- <-. rewrite Hq.
           destruct Hshape3 as [Hs | [h Hs]]; rewrite Hq in Hs;
             injection Hs as _ -> ->; stages_upto Hc.
      * injection Hfail as <- <-. rewrite He.
        destruct Hshape2 as [Hs | [j Hs]]; rewrite He in Hs;
          injection Hs as _ -> ->; stages_upto Hc.
    + injection Hfail as <- <-. rewrite Hd.
      destruct Hshape as [[e' Hs] | [b [o Hs]]]; rewrite Hd in Hs;
        injection Hs as _ -> ->; stages_upto Hc.
  - injection Hfail as <- <-.
    rewrite describe_run, Henc.
    destruct (encode_one_call env src hist self) as [c' [Htr [_ Hc']]].
    rewrite Henc in Htr. unfold trace_of in Htr. simpl in Htr. subst t0.
    stages_upto Hc'.
Qed.

Lemma failure_stops_later_stages_witness :
  forallb (not_after Embedder)
    (trace_of (run (scripted (with_post sunset (Raised connection_error)))
                 (process_image host sunset_url) [] app)) = true.
Proof.
  apply (failure_stops_later_stages
           (scripted (with_post sunset (Raised connection_error)))
           host sunset_url [] app Embedder connection_error).
  vm_compute. reflexivity.
Defined.

(** X6: a dict is returned exactly when none of the four stages fails. *)
Theorem process_image_returns_iff_no_failure :
  forall (env : environment) ip src hist self,
    first_failure env ip src hist self = None
    <-> exists r, result_of (run env (process_image ip src) hist self) = Returned r.
Proof.
  intros env ip src hist self.
  unfold first_failure.
  rewrite process_run, describe_of_try.
  destruct (run env (_encode_image_to_base64 src) hist self)
    as [[[b0 | e0] s0] t0] eqn:Henc.
  - destruct (run env (_get_image_description_try src) hist self)
      as [[[d | e] s1] t1].
    + rewrite embed_of_try.
      destruct (run env (_generate_embedding_try ip d) (hist ++ t1) s1)
        as [[[v | e] s2] t2].
      * rewrite query_of_try.
        destruct (run env (_query_pinecone_try v default_top_k) (hist ++ t1 ++ t2) s2)
          as [[[m | e] s3] t3].
        -- split; [intros _; eexists; reflexivity | reflexivity].
        -- split; [discriminate | intros [r Hr]; discriminate].
      * split; [discriminate | intros [r Hr]; discriminate].
    + split; [discriminate | intros [r Hr]; discriminate].
  - rewrite (describe_try_loader_raised _ _ _ _ _ _ _ Henc).
    split; [discriminate | intros [r Hr]; discriminate].
Qed.


(** The loader's run by the answer to its one call. *)
Lemma loader_returns_payload env src hist self :
  exists c : ext_call,
    loader_call c = true
    /\ run env (_encode_image_to_base64 src) hist self
       = match env hist c with
         | Returned r => (Returned (encode_image (payload c r)), self, [Ext c])
         | Raised e => (Raised e, self, [Ext c])
         end.
Proof.
  destruct src as [s | f | n].
  - destruct (startswith s ["http://"; "https://"]) eqn:Hs.
    + exists (RequestsGet s). split; [reflexivity |].
      rewrite (encode_url env s hist self Hs).
      destruct (env hist (RequestsGet s)); reflexivity.
    + exists (OpenRead (ObjStr s)). split; [reflexivity |].
      rewrite (encode_path_str env s hist self Hs).
      destruct (env hist (OpenRead (ObjStr s))); reflexivity.
  - exists (StreamRead f). split; [reflexivity |]. rewrite encode_stream.
    destruct (env hist (StreamRead f)); reflexivity.
  - exists (OpenRead (ObjOther n)). split; [reflexivity |].
    rewrite encode_path_other.
    destruct (env hist (OpenRead (ObjOther n))); reflexivity.
Qed.

Lemma b64decode_encode_image (data : bytes) :
  b64decode (encode_image data) = Some data.
Proof.
  unfold b64decode, encode_image.
  rewrite decode_b64encode, list_ascii_of_list.
  apply b64decode_encode_chars.
Qed.

(** ** Edge behaviour of the methods *)

(** X7: when the captioning service answers with no choice at all, the
    descriptor fails with the wrapped [IndexError], and the invocation stops
    there: the embedding service is not called. *)
Theorem descriptor_without_choices :
  forall (env : environment) ip src hist self b s t (response : chat_completion),
    run env (_encode_image_to_base64 src) hist self = (Returned b, s, t) ->
    env (hist ++ t) (ChatCreate (caption_request b)) = Returned response ->
    choices response = [] ->
    result_of (run env (_get_image_description src) hist self)
    = Raised (Exception "Error getting image description: list index out of range")
    /\ run env (process_image ip src) hist self
       = (Raised (Exception
            "Error processing image: Error getting image description: list index out of range"),
          s, t ++ [Ext (ChatCreate (caption_request b))]).
Proof.
  intros env ip src hist self b s t response Hload Hchat Hnone.
  assert (Hd : run env (_get_image_description src) hist self
               = (Raised (description_error
                            (mkExn "IndexError" "list index out of range")),
                  s, t ++ [Ext (ChatCreate (caption_request b))])).
  { rewrite describe_run, Hload. cbv zeta. rewrite Hchat, Hnone. reflexivity. }
  split.
  - rewrite Hd. reflexivity.
  - rewrite process_run, Hd. reflexivity.
Qed.

Lemma descriptor_without_choices_witness :
  result_of (run (scripted (with_chat sunset (Returned {| choices := [] |})))
               (_get_image_description uploaded_file) [] app)
  = Raised (Exception "Error getting image description: list index out of range").
Proof.
  apply (descriptor_without_choices
           (scripted (with_chat sunset (Returned {| choices := [] |})))
           host uploaded_file [] app (encode_image sunset_image) app
           [Ext (StreamRead (Stream 3))] {| choices := [] |}).
  - vm_compute. reflexivity.
  - reflexivity.
  - reflexivity.
Defined.

(** X8: whatever the outcome, the embedder makes one POST, to the path
    [/api/embeddings] of the configured host, with the model
    [nomic-embed-text] and the text as prompt; the parsed body is printed
    when, and only when, the body is JSON.  With the host variable unset the
    request still goes out, to the host [None]. *)
Theorem embedder_request :
  forall (env : environment) ip text hist self,
    (exists rest,
       trace_of (run env (_generate_embedding ip text) hist self)
       = Ext (RequestsPost ("http://" ++ format_getenv ip ++ "/api/embeddings")
                {| payload_model := "nomic-embed-text"; payload_prompt := text |})
         :: rest
       /\ match env hist (embed_request ip text) with
          | Returned response =>
              match resp_json response with
              | Returned json => rest = [Print (PrintedVal json)]
              | Raised _ => rest = []
              end
          | Raised _ => rest = []
          end)
    /\ (exists rest,
          trace_of (run env (_generate_embedding None text) hist self)
          = Ext (RequestsPost "http://None/api/embeddings"
                   {| payload_model := "nomic-embed-text"; payload_prompt := text |})
            :: rest).
Proof.
  intros env ip text hist self. split.
  - rewrite embed_run.
    destruct (env hist (embed_request ip text)) as [response | e].
    + destruct (resp_json response) as [json | e].
      * exists [Print (PrintedVal json)]. split; reflexivity.
      * exists []. split; reflexivity.
    + exists []. split; reflexivity.
  - destruct (embed_trace env None text hist self) as [o [Hrun | [json Hrun]]];
      rewrite Hrun; eexists; reflexivity.
Qed.

(** X9: the constructor asks for the index named [songs] and keeps the
    handle in [self.index]; it is the index every later matcher call
    queries.  When the index cannot be obtained, the constructor raises the
    exception as it is and [self.index] is not assigned; a matcher call on
    such an object fails with the wrapped [AttributeError] without calling
    any index. *)
Theorem constructor_binds_index :
  forall (env : environment) hist self,
    (forall h,
       env hist (PineconeIndex "songs") = Returned h ->
       run env __init__ hist self
       = (Returned tt, {| index := Some h |},
          [Ext (PineconeIndex "songs"); SetSelfIndex h])
       /\ forall embedding top_k hist',
            trace_of (run env (_query_pinecone embedding top_k) hist'
                        (self_of (run env __init__ hist self)))
            = [GetSelfIndex; Ext (IndexQuery h embedding top_k true)])
    /\ (forall e,
          env hist (PineconeIndex "songs") = Raised e ->
          run env __init__ hist self
          = (Raised e, self, [Ext (PineconeIndex "songs")]))
    /\ (forall embedding top_k hist',
          run env (_query_pinecone embedding top_k) hist' fresh_app
          = (Raised (Exception
                       "Error querying Pinecone: 'ImageSearchApp' object has no attribute 'index'"),
             fresh_app, [GetSelfIndex])).
Proof.
  intros env hist self.
  assert (Hinit : run env __init__ hist self
                  = match env hist (PineconeIndex "songs") with
                    | Returned h =>
                        (Returned tt, {| index := Some h |},
                         [Ext (PineconeIndex "songs"); SetSelfIndex h])
                    | Raised e => (Raised e, self, [Ext (PineconeIndex "songs")])
                    end).
  { unfold __init__. rewrite run_bind.
    rewrite (run_perform_ext env (PineconeIndex "songs")).
    destruct (env hist (PineconeIndex "songs")) as [h | e]; reflexivity. }
  split; [| split].
  - intros h Hh. rewrite Hinit, Hh. split; [reflexivity |].
    intros embedding top_k hist'. unfold self_of. cbn [fst snd].
    rewrite query_run. reflexivity.
  - intros e He. rewrite Hinit, He. reflexivity.
  - intros embedding top_k hist'. rewrite query_run. reflexivity.
Qed.

Lemma constructor_binds_index_witness :
  run (scripted sunset) __init__ [] fresh_app
  = (Returned tt, {| index := Some songs |},
     [Ext (PineconeIndex "songs"); SetSelfIndex songs]).
Proof.
  destruct (constructor_binds_index (scripted sunset) [] fresh_app)
    as [Hok _].
  destruct (Hok songs) as [Hrun _]; [reflexivity | exact Hrun].
Defined.

(** The image part of a captioning request. *)
Lemma caption_request_content (base64_image : string) :
  messages (caption_request base64_image)
  = [ {| role := "user";
         content := [ TextPart caption_prompt;
                      ImageUrlPart ("data:image/jpeg;base64," ++ base64_image) ] |} ].
Proof. reflexivity. Qed.

(** X10: the one captioning request of the descriptor carries the whole
    image: whatever the source, its image part is a data URL, labelled
    [image/jpeg], whose text decodes to exactly the bytes the source
    delivered.  When reading the source raises, no request is made. *)
Theorem descriptor_sends_whole_image :
  forall (env : environment) src hist self,
    exists c : ext_call,
      loader_call c = true
      /\ match env hist c with
         | Raised _ =>
             trace_of (run env (_get_image_description src) hist self) = [Ext c]
         | Returned r =>
             exists text,
               trace_of (run env (_get_image_description src) hist self)
               = [Ext c; Ext (ChatCreate (caption_request text))]
               /\ In (ImageUrlPart ("data:image/jpeg;base64," ++ text))
                    (List.concat (map content (messages (caption_request text))))
               /\ b64decode text = Some (payload c r)
         end.
Proof.
  intros env src hist self.
  destruct (loader_returns_payload env src hist self) as [c [Hc Hrun]].
  exists c. split; [exact Hc |].
  rewrite describe_run.
  destruct (env hist c) as [r | e].
  - rewrite Hrun. cbv zeta. exists (encode_image (payload c r)).
    split; [reflexivity |]. split.
    + rewrite caption_request_content. simpl. right. left. reflexivity.
    + apply b64decode_encode_image.
  - rewrite Hrun. reflexivity.
Qed.


(** ** Running the page *)

Lemma core_calls_app (h1 h2 : list page_call) :
  core_calls (h1 ++ h2) = core_calls h1 ++ core_calls h2.
Proof.
  induction h1 as [| c h1 IH]; [reflexivity |].
  destruct c; simpl; rewrite IH; reflexivity.
Qed.

Lemma core_calls_map (t : list call) : core_calls (map Core t) = t.
Proof. induction t as [| c t IH]; simpl; [reflexivity | now rewrite IH]. Qed.

Section PageRuns.

Context {A : Type}.
Variable shows : image_arg -> outcome unit.
Variable env : environment.
Variable ses : session.

Lemma run_page_plift (o : outcome A) hist self :
  run_page_with shows env ses (plift o) hist self = (o, self, []).
Proof. destruct o; reflexivity. Qed.

Lemma run_page_bind {B : Type} (p : page A) (f : A -> page B) hist self :
  run_page_with shows env ses (pbind p f) hist self =
  match run_page_with shows env ses p hist self with
  | (Returned a, s, t) =>
      let '(o, s', t') := run_page_with shows env ses (f a) (hist ++ t) s in (o, s', t ++ t')
  | (Raised e, s, t) => (Raised e, s, t)
  end.
Proof.
  revert hist self.
  induction p as [a | e | c k IH]; intros hist self; simpl.
  - rewrite app_nil_r.
    destruct (run_page_with shows env ses (f a) hist self) as [[o s'] t']. reflexivity.
  - reflexivity.
  - destruct (page_answer shows env ses hist self c) as [r self'].
    rewrite IH.
    destruct (run_page_with shows env ses (k r) (hist ++ [c]) self') as [[[a | e] s] t].
    + rewrite <- app_assoc. simpl.
      destruct (run_page_with shows env ses (f a) (hist ++ c :: t) s) as [[o s'] t'].
      reflexivity.
    + reflexivity.
Qed.

Lemma run_page_try (p : page A) (h : exn -> page A) hist self :
  run_page_with shows env ses (ptry p h) hist self =
  match run_page_with shows env ses p hist self with
  | (Returned a, s, t) => (Returned a, s, t)
  | (Raised e, s, t) =>
      let '(o, s', t') := run_page_with shows env ses (h e) (hist ++ t) s in (o, s', t ++ t')
  end.
Proof.
  revert hist self.
  induction p as [a | e | c k IH]; intros hist self; simpl.
  - reflexivity.
  - rewrite app_nil_r.
    destruct (run_page_with shows env ses (h e) hist self) as [[o s'] t']. reflexivity.
  - destruct (page_answer shows env ses hist self c) as [r self'].
    rewrite IH.
    destruct (run_page_with shows env ses (k r) (hist ++ [c]) self') as [[[a | e] s] t].
    + reflexivity.
    + rewrite <- app_assoc. simpl.
      destruct (run_page_with shows env ses (h e) (hist ++ c :: t) s) as [[o s'] t'].
      reflexivity.
Qed.

Lemma run_page_attempt (p : page A) hist self :
  run_page_with shows env ses (attempt p) hist self =
  let '(o, s, t) := run_page_with shows env ses p hist self in (Returned o, s, t).
Proof.
  revert hist self.
  induction p as [a | e | c k IH]; intros hist self; simpl; try reflexivity.
  destruct (page_answer shows env ses hist self c) as [r self'].
  rewrite IH.
  destruct (run_page_with shows env ses (k r) (hist ++ [c]) self') as [[o s] t]. reflexivity.
Qed.

(** A method called from the page runs as it runs alone, the world seeing
    the calls of the methods only. *)
Lemma run_page_of_prog (p : prog A) hist self :
  run_page_with shows env ses (of_prog p) hist self =
  let '(o, s, t) := run env p (core_calls hist) self in (o, s, map Core t).
Proof.
  revert hist self.
  induction p as [a | e | c k IH]; intros hist self; simpl; try reflexivity.
  destruct (answer env (core_calls hist) self c) as [r self'].
  rewrite IH, core_calls_app. simpl.
  destruct (run env (k r) (core_calls hist ++ [c]) self') as [[o s] t].
  reflexivity.
Qed.

End PageRuns.

Lemma run_page_draw shows env ses d hist self :
  run_page_with shows env ses (draw d) hist self = (drawn shows d, self, [Draw d]).
Proof.
  unfold draw, pperform. simpl.
  destruct (drawn shows d) as [[] | e]; reflexivity.
Qed.

Lemma run_page_ask shows env ses (w : widget) hist self :
  run_page_with shows env ses (ask w) hist self
  = (Returned (widget_answer ses w), self, [Ask w]).
Proof. reflexivity. Qed.

Lemma run_page_image_open shows env ses content hist self :
  run_page_with shows env ses (image_open content) hist self
  = (ses_image_open ses content, self, [ImageOpen content]).
Proof.
  unfold image_open, pperform. simpl.
  destruct (ses_image_open ses content); reflexivity.
Qed.

(** A [with] block: entered, run, left, whatever the body did. *)
Lemma run_page_within {A : Type} shows env ses (b : block) (body : page A) hist self :
  run_page_with shows env ses (within b body) hist self =
  let '(o, s, t) := run_page_with shows env ses body (hist ++ [Draw (Enter b)]) self in
  (o, s, Draw (Enter b) :: t ++ [Draw (Leave b)]).
Proof.
  unfold within.
  rewrite run_page_bind, run_page_draw. cbn [Datatypes.app drawn].
  rewrite run_page_bind, run_page_attempt.
  destruct (run_page_with shows env ses body (hist ++ [Draw (Enter b)]) self) as [[o s] t].
  rewrite run_page_bind, run_page_draw, run_page_plift.
  rewrite app_nil_r. reflexivity.
Qed.


(** ** [display_results] *)

Lemma subscript_holds md key v :
  holds md key v -> subscript_str md key = Returned v.
Proof.
  intros [d [-> [Hnd Hin]]]. simpl.
  rewrite (dict_get_present d key v Hnd Hin). reflexivity.
Qed.

Lemma subscript_lacks md key :
  lacks md key -> subscript_str md key = Raised (mkExn "KeyError" ("'" ++ key ++ "'")).
Proof.
  intros [d [-> Hnot]]. simpl.
  rewrite (dict_get_absent d key Hnot). reflexivity.
Qed.

Lemma append_assoc (a b c : string) :
  ((a ++ b) ++ c)%string = (a ++ b ++ c)%string.
Proof. induction a as [| x a IH]; simpl; [reflexivity | now rewrite IH]. Qed.

Lemma match_json_presents (m : scored_vector) body :
  presents m body -> match_json m = Returned body.
Proof.
  intros [song artist link Hsong Hartist Hlink].
  unfold match_json.
  rewrite (subscript_holds _ _ _ Hsong), (subscript_holds _ _ _ Hartist),
    (subscript_holds _ _ _ Hlink).
  cbn [outcome_bind add_str str_add]. unfold entries.
  rewrite append_assoc. reflexivity.
Qed.

Lemma match_json_misses (m : scored_vector) (key : string) :
  misses m key ->
  match_json m = Raised (mkExn "KeyError" ("'" ++ key ++ "'")).
Proof.
  intros [Hsong | song Hsong Hartist | song artist Hsong Hartist Hlink];
    unfold match_json.
  - rewrite (subscript_lacks _ _ Hsong). reflexivity.
  - rewrite (subscript_holds _ _ _ Hsong), (subscript_lacks _ _ Hartist).
    reflexivity.
  - rewrite (subscript_holds _ _ _ Hsong), (subscript_holds _ _ _ Hartist),
      (subscript_lacks _ _ Hlink).
    reflexivity.
Qed.

Lemma match_json_mistyped (m : scored_vector) :
  mistyped m ->
  exists e, match_json m = Raised e /\ exn_class e = "TypeError".
Proof.
  intros [Hmd | v Hsong Hv | song v Hsong Hartist Hv]; unfold match_json.
  - destruct (metadata m) as [| b | z | f | s | l | d]; try discriminate;
      eexists; (split; [reflexivity |]); reflexivity.
  - rewrite (subscript_holds _ _ _ Hsong).
    destruct v as [| b | z | f | s | l | d]; try discriminate;
      eexists; (split; [reflexivity |]); reflexivity.
  - rewrite (subscript_holds _ _ _ Hsong), (subscript_holds _ _ _ Hartist).
    destruct v as [| b | z | f | s | l | d]; try discriminate;
      eexists; (split; [reflexivity |]); reflexivity.
Qed.

Section Display.

Variable format_4f : float -> string.
Variable shows : image_arg -> outcome unit.
Variable env : environment.
Variable ses : session.

Lemma display_match_run (i : nat) (m : scored_vector) hist self :
  run_page_with shows env ses
    (within (Expander (expander_label format_4f i m))
       (pbind (plift (match_json m)) (fun body => draw (StJson body))))
    hist self
  = match match_json m with
    | Returned body => (Returned tt, self, panel format_4f i m body)
    | Raised e => (Raised e, self, empty_panel format_4f i m)
    end.
Proof.
  rewrite run_page_within, run_page_bind, run_page_plift.
  destruct (match_json m) as [body | e]; reflexivity.
Qed.

Lemma display_matches_presents (l : list scored_vector) :
  forall bodies i hist self,
    Forall2 presents l bodies ->
    run_page_with shows env ses (display_matches format_4f i l) hist self
    = (Returned tt, self, panels format_4f i l bodies).
Proof.
  induction l as [| m rest IH]; intros bodies i hist self Hall;
    inversion Hall as [| ? body ? bodies' Hm Hrest]; subst; [reflexivity |].
  cbn [display_matches panels].
  rewrite run_page_bind, display_match_run, (match_json_presents m body Hm).
  rewrite (IH bodies' (S i) _ self Hrest). reflexivity.
Qed.

Lemma display_matches_raises (before : list scored_vector) :
  forall bodies i m after e hist self,
    Forall2 presents before bodies ->
    match_json m = Raised e ->
    run_page_with shows env ses (display_matches format_4f i (before ++ m :: after)) hist self
    = (Raised e, self,
       panels format_4f i before bodies
       ++ empty_panel format_4f (i + List.length before) m).
Proof.
  induction before as [| b before IH]; intros bodies i m after e hist self Hall Hm;
    inversion Hall as [| ? body ? bodies' Hb Hrest]; subst.
  - cbn [Datatypes.app display_matches panels List.length].
    rewrite run_page_bind, display_match_run, Hm.
    rewrite Nat.add_0_r. reflexivity.
  - cbn [Datatypes.app display_matches panels List.length].
    rewrite run_page_bind, display_match_run, (match_json_presents b body Hb).
    rewrite (IH bodies' (S i) m after e _ self Hrest Hm).
    rewrite <- app_assoc. rewrite Nat.add_succ_r. reflexivity.
Qed.

(** Whatever the matches, [display_results] only draws. *)
Lemma display_matches_draws (l : list scored_vector) :
  forall i hist self,
    page_self (run_page_with shows env ses (display_matches format_4f i l) hist self) = self
    /\ forallb is_drawing
         (page_trace (run_page_with shows env ses (display_matches format_4f i l) hist self))
       = true.
Proof.
  induction l as [| m rest IH]; intros i hist self; [split; reflexivity |].
  cbn [display_matches].
  rewrite run_page_bind, display_match_run.
  destruct (match_json m) as [body | e]; [| split; reflexivity].
  match goal with
  | |- context [run_page_with shows env ses (display_matches format_4f (S i) rest) ?h self] =>
      destruct (IH (S i) h self) as [Hs Ht];
      destruct (run_page_with shows env ses (display_matches format_4f (S i) rest) h self)
        as [[o s] t]
  end.
  unfold page_self, page_trace in *. cbn [fst snd] in *. split; [exact Hs |].
  rewrite forallb_app, Ht. reflexivity.
Qed.

Lemma display_results_run (results : pipeline_result) hist self :
  run_page_with shows env ses (display_results format_4f results) hist self
  = let '(o, s, t) :=
      run_page_with shows env ses (display_matches format_4f 1 (matches results))
        (hist ++ results_header results) self in
    (o, s, results_header results ++ t).
Proof.
  unfold display_results.
  rewrite run_page_bind, run_page_draw. cbn [drawn].
  rewrite run_page_bind, run_page_draw. cbn [drawn].
  rewrite run_page_bind, run_page_draw. cbn [drawn].
  rewrite <- !app_assoc. cbn [Datatypes.app].
  unfold results_header.
  destruct (run_page_with shows env ses (display_matches format_4f 1 (matches results)) _ self)
    as [[o s] t].
  reflexivity.
Qed.

End Display.

(** Proving that a dict written out holds a member, or lacks a key. *)
Ltac holds_member :=
  eexists; split; [reflexivity |]; split;
  [ repeat (apply NoDup_cons; [simpl; intuition discriminate |]); apply NoDup_nil
  | simpl; repeat (first [left; reflexivity | right]) ].

Ltac lacks_key :=
  eexists; split; [reflexivity |]; simpl; intuition discriminate.

(** X11: when the metadata of every match hold a title and an artist that
    are [str] and a link, [display_results] shows the description and then
    one expander per match, in the order of the matches and numbered from
    1, each holding the four entries of its match: the search text made of
    title and artist, the title, the artist, the link.  It raises
    nothing. *)
Theorem display_results_shows_all :
  forall format_4f (env : environment) ses results bodies hist self,
    Forall2 presents (matches results) bodies ->
    run_page env ses (display_results format_4f results) hist self
    = (Returned tt, self,
       [ Draw (StSubheader "Image Description");
         Draw (StWrite (description results));
         Draw (StSubheader "Matching Songs") ]
       ++ panels format_4f 1 (matches results) bodies).
Proof.
  intros format_4f env ses results bodies hist self Hall.
  unfold run_page.
  rewrite display_results_run.
  rewrite (display_matches_presents format_4f always_drawn env ses (matches results) bodies 1 _ self
             Hall).
  reflexivity.
Qed.

Lemma display_results_shows_all_witness :
  run_page (scripted sunset) (visitor None "" false)
    (display_results four_places
       {| description := sunset_description;
          matches := [here_comes_the_sun; let_it_be] |}) [] app
  = (Returned tt, app,
     [ Draw (StSubheader "Image Description");
       Draw (StWrite sunset_description);
       Draw (StSubheader "Matching Songs");
       Draw (Enter (Expander "Match 1 (Score: 0.9300)"));
       Draw (StJson [ ("google-search", PStr "Here Comes the Sun by The Beatles");
                      ("song", PStr "Here Comes the Sun");
                      ("artist", PStr "The Beatles");
                      ("link", PStr "https://example.com/here-comes-the-sun") ]);
       Draw (Leave (Expander "Match 1 (Score: 0.9300)"));
       Draw (Enter (Expander "Match 2 (Score: 0.7100)"));
       Draw (StJson [ ("google-search", PStr "Let It Be by The Beatles");
                      ("song", PStr "Let It Be");
                      ("artist", PStr "The Beatles");
                      ("link", PStr "https://example.com/let-it-be") ]);
       Draw (Leave (Expander "Match 2 (Score: 0.7100)")) ]).
Proof.
  apply (display_results_shows_all four_places (scripted sunset)
           (visitor None "" false)
           {| description := sunset_description;
              matches := [here_comes_the_sun; let_it_be] |}
           [ entries "Here Comes the Sun" "The Beatles"
               (PStr "https://example.com/here-comes-the-sun");
             entries "Let It Be" "The Beatles" (PStr "https://example.com/let-it-be") ]
           [] app).
  repeat apply Forall2_cons; [| | apply Forall2_nil];
    apply presents_entries; holds_member.
Defined.

(** X12: when the metadata of a match lack [song], or hold a title and lack
    [artist], or hold title and artist and lack [link], [display_results]
    raises the [KeyError] of that key: the matches before are shown, the
    expander of that match stays empty, and the matches after are not
    shown. *)
Theorem display_results_missing_key :
  forall format_4f (env : environment) ses results before bodies m after key
         hist self,
    matches results = before ++ m :: after ->
    Forall2 presents before bodies ->
    misses m key ->
    run_page env ses (display_results format_4f results) hist self
    = (Raised (mkExn "KeyError" ("'" ++ key ++ "'")), self,
       [ Draw (StSubheader "Image Description");
         Draw (StWrite (description results));
         Draw (StSubheader "Matching Songs") ]
       ++ panels format_4f 1 before bodies
       ++ empty_panel format_4f (S (List.length before)) m).
Proof.
  intros format_4f env ses results before bodies m after key hist self
         Hsplit Hall Hmiss.
  unfold run_page.
  rewrite display_results_run, Hsplit.
  rewrite (display_matches_raises format_4f always_drawn env ses before bodies 1 m after _ _ self
             Hall (match_json_misses m key Hmiss)).
  reflexivity.
Qed.

Lemma display_results_missing_key_witness :
  run_page (scripted sunset) (visitor None "" false)
    (display_results four_places
       {| description := sunset_description;
          matches := [here_comes_the_sun; untitled; let_it_be] |}) [] app
  = (Raised (mkExn "KeyError" "'song'"), app,
     [ Draw (StSubheader "Image Description");
       Draw (StWrite sunset_description);
       Draw (StSubheader "Matching Songs");
       Draw (Enter (Expander "Match 1 (Score: 0.9300)"));
       Draw (StJson [ ("google-search", PStr "Here Comes the Sun by The Beatles");
                      ("song", PStr "Here Comes the Sun");
                      ("artist", PStr "The Beatles");
                      ("link", PStr "https://example.com/here-comes-the-sun") ]);
       Draw (Leave (Expander "Match 1 (Score: 0.9300)"));
       Draw (Enter (Expander "Match 2 (Score: 0.7100)"));
       Draw (Leave (Expander "Match 2 (Score: 0.7100)")) ]).
Proof.
  apply (display_results_missing_key four_places (scripted sunset)
           (visitor None "" false)
           {| description := sunset_description;
              matches := [here_comes_the_sun; untitled; let_it_be] |}
           [here_comes_the_sun]
           [ entries "Here Comes the Sun" "The Beatles"
               (PStr "https://example.com/here-comes-the-sun") ]
           untitled [let_it_be] "song" [] app).
  - reflexivity.
  - apply Forall2_cons; [| apply Forall2_nil].
    apply presents_entries; holds_member.
  - apply misses_song. lacks_key.
Defined.

(** X23: when the metadata of a match are no dict, or hold a title that is
    no [str], or a title that is one and an artist that is none,
    [display_results] raises a [TypeError]: the matches before are shown,
    the expander of that match stays empty, and the matches after are not
    shown.  A title that is no [str] raises before [artist] is read. *)
Theorem display_results_mistyped :
  forall format_4f (env : environment) ses results before bodies m after hist self,
    matches results = before ++ m :: after ->
    Forall2 presents before bodies ->
    mistyped m ->
    exists e,
      exn_class e = "TypeError"
      /\ run_page env ses (display_results format_4f results) hist self
         = (Raised e, self,
            [ Draw (StSubheader "Image Description");
              Draw (StWrite (description results));
              Draw (StSubheader "Matching Songs") ]
            ++ panels format_4f 1 before bodies
            ++ empty_panel format_4f (S (List.length before)) m).
Proof.
  intros format_4f env ses results before bodies m after hist self
         Hsplit Hall Hbad.
  unfold run_page.
  destruct (match_json_mistyped m Hbad) as [e [He Hclass]].
  exists e. split; [exact Hclass |].
  rewrite display_results_run, Hsplit.
  rewrite (display_matches_raises format_4f always_drawn env ses before bodies 1 m after e _ self
             Hall He).
  reflexivity.
Qed.

Lemma display_results_mistyped_witness :
  exists e,
    exn_class e = "TypeError"
    /\ run_page (scripted sunset) (visitor None "" false)
         (display_results four_places
            {| description := sunset_description;
               matches := [numbered; let_it_be] |}) [] app
       = (Raised e, app,
          [ Draw (StSubheader "Image Description");
            Draw (StWrite sunset_description);
            Draw (StSubheader "Matching Songs") ]
          ++ panels four_places 1 [] []
          ++ empty_panel four_places 1 numbered).
Proof.
  apply (display_results_mistyped four_places (scripted sunset)
           (visitor None "" false)
           {| description := sunset_description;
              matches := [numbered; let_it_be] |}
           [] [] numbered [let_it_be] [] app).
  - reflexivity.
  - apply Forall2_nil.
  - apply (mistyped_song numbered (PInt 1979)); [holds_member | reflexivity].
Defined.

(** What Python says in the two cases of the scenarios. *)
Example mistyped_messages :
  match_json numbered
  = Raised (mkExn "TypeError" "unsupported operand type(s) for +: 'int' and 'str'")
  /\ match_json bare
     = Raised (mkExn "TypeError" "'NoneType' object is not subscriptable").
Proof. split; reflexivity. Qed.

(** ** [main] *)

Section Main.

Variable ip : option string.
Variable format_4f : float -> string.
Variable shows : image_arg -> outcome unit.
Variable env : environment.
Variable ses : session.

(** The block under a button: the pipeline, then the results or the error;
    it never raises. *)
Lemma search_block_run (x : pyobj) hist self :
  run_page_with shows env ses (search_block ip format_4f x) hist self
  = match run env (process_image ip x) (core_calls hist) self with
    | (Raised e, s, t) =>
        (Returned tt, s,
         Draw (Enter spinner) :: map Core t
         ++ [Draw (StError ("Error: " ++ str_exn e)); Draw (Leave spinner)])
    | (Returned results, s, t) =>
        match run_page_with shows env ses (display_results format_4f results)
                (hist ++ Draw (Enter spinner) :: map Core t) s with
        | (Returned _, s', t') =>
            (Returned tt, s',
             Draw (Enter spinner) :: map Core t ++ t' ++ [Draw (Leave spinner)])
        | (Raised e, s', t') =>
            (Returned tt, s',
             Draw (Enter spinner) :: map Core t ++ t'
             ++ [Draw (StError ("Error: " ++ str_exn e)); Draw (Leave spinner)])
        end
    end.
Proof.
  unfold search_block. fold spinner.
  rewrite run_page_within, run_page_try, run_page_bind, run_page_of_prog.
  rewrite core_calls_app. cbn [core_calls]. rewrite app_nil_r.
  destruct (run env (process_image ip x) (core_calls hist) self)
    as [[[results | e] s] t].
  - rewrite <- app_assoc. cbn [Datatypes.app].
    destruct (run_page_with shows env ses (display_results format_4f results)
                (hist ++ Draw (Enter spinner) :: map Core t) s)
      as [[[[] | e] s'] t'].
    + rewrite <- app_assoc. reflexivity.
    + rewrite run_page_draw. rewrite <- !app_assoc. reflexivity.
  - rewrite run_page_draw. rewrite <- !app_assoc. reflexivity.
Qed.

Lemma uploaded_branch_run (f : stream) hist self :
  run_page_with shows env ses (uploaded_branch ip format_4f f) hist self
  = match shows (UploadedImage f) with
    | Raised e =>
        (Raised e, self, [Draw (StImage (UploadedImage f) "Uploaded Image" true)])
    | Returned _ =>
        let shown :=
          [ Draw (StImage (UploadedImage f) "Uploaded Image" true);
            Ask (Button "Find Matching Songs (Uploaded Image)") ] in
        if ses_clicked ses "Find Matching Songs (Uploaded Image)"
        then
          let '(o, s, t) :=
            run_page_with shows env ses (search_block ip format_4f (ObjFile f))
              (hist ++ shown) self in
          (o, s, shown ++ t)
        else (Returned tt, self, shown)
    end.
Proof.
  unfold uploaded_branch.
  rewrite run_page_bind, run_page_draw. cbn [drawn].
  destruct (shows (UploadedImage f)) as [[] | e]; [| reflexivity].
  rewrite run_page_bind, run_page_ask.
  cbn [widget_answer]. cbv zeta.
  rewrite <- app_assoc. cbn [Datatypes.app].
  destruct (ses_clicked ses "Find Matching Songs (Uploaded Image)").
  - destruct (run_page_with shows env ses (search_block ip format_4f (ObjFile f)) _ self)
      as [[o s] t].
    reflexivity.
  - reflexivity.
Qed.

Lemma url_branch_run (image_url : string) hist self :
  run_page_with shows env ses (url_branch ip format_4f image_url) hist self
  = match env (core_calls hist) (RequestsGet image_url) with
    | Raised _ =>
        (Returned tt, self,
         [Core (Ext (RequestsGet image_url)); Draw (StError url_preview_error)])
    | Returned response =>
        let content := resp_content response in
        match ses_image_open ses content with
        | Raised _ =>
            (Returned tt, self,
             [ Core (Ext (RequestsGet image_url)); ImageOpen content;
               Draw (StError url_preview_error) ])
        | Returned _ =>
            match shows (OpenedImage content) with
            | Raised _ =>
                (Returned tt, self,
                 [ Core (Ext (RequestsGet image_url)); ImageOpen content;
                   Draw (StImage (OpenedImage content) "Image from URL" true);
                   Draw (StError url_preview_error) ])
            | Returned _ =>
                let shown :=
                  [ Core (Ext (RequestsGet image_url)); ImageOpen content;
                    Draw (StImage (OpenedImage content) "Image from URL" true);
                    Ask (Button "Find Matching Songs (Image URL)") ] in
                if ses_clicked ses "Find Matching Songs (Image URL)"
                then
                  let '(o, s, t) :=
                    run_page_with shows env ses
                      (search_block ip format_4f (ObjStr image_url))
                      (hist ++ shown) self in
                  (o, s, shown ++ t)
                else (Returned tt, self, shown)
            end
        end
    end.
Proof.
  unfold url_branch.
  rewrite run_page_try, run_page_bind, run_page_of_prog.
  unfold requests_get. rewrite (run_perform_ext env (RequestsGet image_url)).
  destruct (env (core_calls hist) (RequestsGet image_url)) as [response | e].
  - cbn [map]. cbv zeta.
    rewrite run_page_bind, run_page_image_open.
    destruct (ses_image_open ses (resp_content response)) as [[] | e].
    + rewrite run_page_bind, run_page_draw. cbn [drawn].
      destruct (shows (OpenedImage (resp_content response))) as [[] | e];
        [| rewrite run_page_draw; reflexivity].
      rewrite run_page_bind, run_page_ask.
      cbn [widget_answer].
      rewrite <- !app_assoc. cbn [Datatypes.app].
      destruct (ses_clicked ses "Find Matching Songs (Image URL)").
      * rewrite search_block_run.
        match goal with
        | |- context [run env (process_image ip ?x) ?h self] =>
            destruct (run env (process_image ip x) h self) as [[[results | e] s] t]
        end.
        -- match goal with
           | |- context [run_page_with shows env ses (display_results format_4f results) ?h s] =>
               destruct (run_page_with shows env ses (display_results format_4f results) h s)
                 as [[[[] | e] s'] t']
           end; reflexivity.
        -- reflexivity.
      * reflexivity.
    + rewrite run_page_draw. reflexivity.
  - rewrite run_page_draw. reflexivity.
Qed.

Lemma core_calls_preamble (h : index_handle) :
  core_calls (page_preamble h) = boot h.
Proof. reflexivity. Qed.

Lemma main_run self :
  run_page_with shows env ses (main ip format_4f) [] self
  = match env [] (PineconeIndex "songs") with
    | Raised e => (Raised e, self, page_top ++ [Core (Ext (PineconeIndex "songs"))])
    | Returned h =>
        let '(o, s, t) :=
          run_page_with shows env ses (dispatch ip format_4f ses) (page_preamble h)
            {| index := Some h |} in
        (o, s, page_preamble h ++ t)
    end.
Proof.
  unfold main.
  rewrite run_page_bind, run_page_draw. cbn [drawn].
  rewrite run_page_bind, run_page_draw. cbn [drawn].
  rewrite run_page_bind, run_page_draw. cbn [drawn].
  rewrite run_page_bind, run_page_of_prog.
  cbn [Datatypes.app core_calls].
  unfold __init__. rewrite run_bind.
  rewrite (run_perform_ext env (PineconeIndex "songs")).
  destruct (env [] (PineconeIndex "songs")) as [h | e]; [| reflexivity].
  cbn [Datatypes.app].
  change (run env (perform (SetSelfIndex h)) [Ext (PineconeIndex "songs")] self)
    with (Returned tt, {| index := Some h |}, [SetSelfIndex h]).
  cbn [map Datatypes.app].
  rewrite run_page_bind, run_page_draw. cbn [drawn].
  rewrite run_page_bind, run_page_within, run_page_bind, run_page_draw, run_page_ask.
  cbn [Datatypes.app widget_answer drawn].
  rewrite run_page_bind, run_page_within, run_page_bind, run_page_draw, run_page_ask.
  cbn [Datatypes.app widget_answer drawn].
  unfold dispatch, page_preamble, page_top, page_inputs.
  cbn [Datatypes.app].
  match goal with
  | |- context [run_page_with shows env ses ?p ?h ?s] =>
      destruct (run_page_with shows env ses p h s) as [[o s'] t]
  end.
  reflexivity.
Qed.

End Main.


(** *** The calls of the pipeline inside the page *)

(** An invocation starts with the loader's call and makes no other call
    for the bytes. *)
Lemma process_trace_shape env ip src hist self :
  exists (c : ext_call) (rest : list call),
    trace_of (run env (_encode_image_to_base64 src) hist self) = [Ext c]
    /\ trace_of (run env (process_image ip src) hist self) = Ext c :: rest
    /\ forallb (fun x => negb (remote_call_of Loader x)) rest = true.
Proof.
  destruct (encode_one_call env src hist self) as [c [Htr [Hself Hc]]].
  exists c.
  rewrite process_run, describe_run.
  destruct (run env (_encode_image_to_base64 src) hist self) as [[[b | e] s] t];
    unfold trace_of, self_of in Htr, Hself; cbn [fst snd] in Htr, Hself; subst s t.
  - cbv zeta.
    destruct (env (hist ++ [Ext c]) (ChatCreate (caption_request b)))
      as [response | e].
    + destruct (choices response) as [| choice others].
      * eexists. split; [reflexivity |]. split; reflexivity.
      * match goal with
        | |- context [run env (_generate_embedding ip ?d) ?h self] =>
            destruct (embed_trace env ip d h self) as [o2 [He | [j He]]];
            rewrite He
        end;
        (destruct o2 as [v | e];
         [ match goal with
           | |- context [run env (_query_pinecone v default_top_k) ?h self] =>
               destruct (query_trace env v default_top_k h self)
                 as [o3 [Hq | [h' Hq]]]; rewrite Hq
           end; destruct o3;
           eexists; (split; [reflexivity |]); (split; reflexivity)
         | eexists; (split; [reflexivity |]); (split; reflexivity) ]).
    + eexists. split; [reflexivity |]. split; reflexivity.
  - exists []. split; [reflexivity |]. split; reflexivity.
Qed.

Lemma filter_get_drawings (t : list page_call) :
  forallb is_drawing t = true -> filter is_requests_get t = [].
Proof.
  induction t as [| c t IH]; [reflexivity |].
  cbn [forallb filter]. intro H. apply andb_true_iff in H. destruct H as [Hc Ht].
  destruct c; try discriminate. cbn [is_requests_get]. apply IH, Ht.
Qed.

Lemma filter_get_core (rest : list call) :
  forallb (fun x => negb (remote_call_of Loader x)) rest = true ->
  filter is_requests_get (map Core rest) = [].
Proof.
  induction rest as [| c rest IH]; [reflexivity |].
  cbn [forallb map filter]. intro H. apply andb_true_iff in H.
  destruct H as [Hc Hrest]. rewrite (IH Hrest).
  destruct c as [[] | | |]; try discriminate; reflexivity.
Qed.

Lemma display_results_draws format_4f shows env ses results hist self :
  page_self (run_page_with shows env ses (display_results format_4f results) hist self) = self
  /\ forallb is_drawing
       (page_trace (run_page_with shows env ses (display_results format_4f results) hist self))
     = true.
Proof.
  rewrite display_results_run.
  destruct (display_matches_draws format_4f shows env ses (matches results) 1
              (hist ++ results_header results) self) as [Hs Ht].
  destruct (run_page_with shows env ses (display_matches format_4f 1 (matches results))
              (hist ++ results_header results) self) as [[o s] t].
  unfold page_self, page_trace in *. cbn [fst snd] in *. split; [exact Hs |].
  rewrite forallb_app, Ht. reflexivity.
Qed.

(** The calls for the bytes made by the block under a button are those of
    the one invocation in it. *)
Lemma search_block_gets ip format_4f shows env ses x hist self :
  filter is_requests_get
    (page_trace (run_page_with shows env ses (search_block ip format_4f x) hist self))
  = filter is_requests_get
      (map Core (trace_of (run env (_encode_image_to_base64 x) (core_calls hist) self))).
Proof.
  rewrite search_block_run.
  destruct (process_trace_shape env ip x (core_calls hist) self)
    as [c [rest [Henc [Hproc Hrest]]]].
  rewrite Henc.
  destruct (run env (process_image ip x) (core_calls hist) self)
    as [[[results | e] s] t];
    unfold trace_of in Hproc; cbn [snd] in Hproc; subst t.
  - match goal with
    | |- context [run_page_with shows env ses (display_results format_4f results) ?h s] =>
        destruct (display_results_draws format_4f shows env ses results h s) as [_ Hd];
        destruct (run_page_with shows env ses (display_results format_4f results) h s)
          as [[[[] | e] s'] t']
    end;
    unfold page_trace in *; cbn [snd] in *;
    cbn [map filter is_requests_get Datatypes.app];
    rewrite !filter_app, (filter_get_core rest Hrest), (filter_get_drawings t' Hd);
    destruct c; reflexivity.
  - unfold page_trace. cbn [snd map filter is_requests_get Datatypes.app].
    rewrite !filter_app, (filter_get_core rest Hrest).
    destruct c; reflexivity.
Qed.

Lemma startswith_http_nonempty (s : string) :
  startswith s ["http://"; "https://"] = true -> str_truth s = true.
Proof. destruct s; [discriminate | reflexivity]. Qed.


(** *** What a visit of the page does *)

(** X13: when the index cannot be obtained, [main] ends with the exception
    of the constructor, unwrapped, after the title and the introduction:
    neither input widget is drawn and nothing is read from the visitor. *)
Theorem main_without_index :
  forall ip format_4f (env : environment) ses self e,
    env [] (PineconeIndex "songs") = Raised e ->
    run_page env ses (main ip format_4f) [] self
    = (Raised e, self, page_top ++ [Core (Ext (PineconeIndex "songs"))]).
Proof.
  intros ip format_4f env ses self e Hindex.
  unfold run_page.
  rewrite main_run, Hindex. reflexivity.
Qed.

Lemma main_without_index_witness :
  run_page (fun _ _ => Raised connection_error) (visitor (Some (Stream 3)) "" true)
    (main host four_places) [] fresh_app
  = (Raised connection_error, fresh_app,
     page_top ++ [Core (Ext (PineconeIndex "songs"))]).
Proof.
  apply (main_without_index host four_places (fun _ _ => Raised connection_error)
           (visitor (Some (Stream 3)) "" true) fresh_app connection_error).
  reflexivity.
Defined.

(** X14: an uploaded file takes precedence over a typed URL: when a file is
    uploaded, the page makes no HTTP GET at all, whatever was typed and
    whatever the services answer. *)
Theorem upload_never_fetches_url :
  forall ip format_4f (env : environment) ses self f,
    ses_upload ses = Some f ->
    filter is_requests_get (page_trace (run_page env ses (main ip format_4f) [] self))
    = [].
Proof.
  intros ip format_4f env ses self f Hupload.
  unfold run_page.
  rewrite main_run.
  destruct (env [] (PineconeIndex "songs")) as [h | e]; [| reflexivity].
  unfold dispatch. rewrite Hupload, uploaded_branch_run. cbn [always_drawn]. cbv zeta.
  destruct (ses_clicked ses "Find Matching Songs (Uploaded Image)");
    [| reflexivity].
  match goal with
  | |- context [run_page_with always_drawn env ses (search_block ip format_4f (ObjFile f)) ?hist ?s] =>
      pose proof (search_block_gets ip format_4f always_drawn env ses (ObjFile f) hist s) as Hgets;
      destruct (run_page_with always_drawn env ses (search_block ip format_4f (ObjFile f)) hist s)
        as [[o s'] t]
  end.
  rewrite encode_stream in Hgets.
  unfold page_trace, trace_of in *. cbn [snd map filter is_requests_get] in Hgets.
  cbn [snd]. rewrite !filter_app, Hgets. reflexivity.
Qed.

Lemma upload_never_fetches_url_witness :
  filter is_requests_get
    (page_trace (run_page (scripted sunset)
                   (visitor (Some (Stream 3)) "https://example.com/sunset.jpg" true)
                   (main host four_places) [] fresh_app))
  = [].
Proof.
  apply (upload_never_fetches_url host four_places (scripted sunset)
           (visitor (Some (Stream 3)) "https://example.com/sunset.jpg" true)
           fresh_app (Stream 3)).
  reflexivity.
Defined.

(** X15: without a click on a button the page never calls the captioning
    service, the embedding service or the index. *)
Theorem no_click_no_service_call :
  forall ip format_4f (env : environment) ses self,
    (forall label, ses_clicked ses label = false) ->
    filter page_service_call
      (page_trace (run_page env ses (main ip format_4f) [] self))
    = [].
Proof.
  intros ip format_4f env ses self Hnone.
  unfold run_page.
  rewrite main_run.
  destruct (env [] (PineconeIndex "songs")) as [h | e]; [| reflexivity].
  unfold dispatch.
  destruct (ses_upload ses) as [f |].
  - rewrite uploaded_branch_run. cbn [always_drawn]. rewrite Hnone. reflexivity.
  - destruct (str_truth (ses_url ses)); [| reflexivity].
    rewrite url_branch_run.
    destruct (env (core_calls (page_preamble h)) (RequestsGet (ses_url ses)))
      as [response | e]; [| reflexivity].
    cbv zeta.
    destruct (ses_image_open ses (resp_content response)) as [[] | e];
      [| reflexivity].
    rewrite Hnone. reflexivity.
Qed.

Lemma no_click_no_service_call_witness :
  filter page_service_call
    (page_trace (run_page (scripted sunset)
                   (visitor None "https://example.com/sunset.jpg" false)
                   (main host four_places) [] fresh_app))
  = [].
Proof.
  apply (no_click_no_service_call host four_places (scripted sunset)
           (visitor None "https://example.com/sunset.jpg" false) fresh_app).
  intro label. reflexivity.
Defined.

(** X16: a URL is fetched twice when its button is clicked: once by [main]
    for the preview and once more by the loader of the pipeline, which is
    given the URL and not the bytes already fetched. *)
Theorem url_is_fetched_twice :
  forall ip format_4f (env : environment) ses self h (response : http_response),
    ses_upload ses = None ->
    startswith (ses_url ses) ["http://"; "https://"] = true ->
    env [] (PineconeIndex "songs") = Returned h ->
    env (boot h) (RequestsGet (ses_url ses)) = Returned response ->
    ses_image_open ses (resp_content response) = Returned tt ->
    ses_clicked ses "Find Matching Songs (Image URL)" = true ->
    filter is_requests_get
      (page_trace (run_page env ses (main ip format_4f) [] self))
    = [ Core (Ext (RequestsGet (ses_url ses)));
        Core (Ext (RequestsGet (ses_url ses))) ].
Proof.
  intros ip format_4f env ses self h response Hupload Hurl Hindex Hget Himg Hclick.
  unfold run_page.
  rewrite main_run, Hindex.
  unfold dispatch.
  rewrite Hupload, (startswith_http_nonempty _ Hurl), url_branch_run.
  rewrite core_calls_preamble, Hget. cbv zeta. rewrite Himg.
  cbn [always_drawn]. rewrite Hclick.
  match goal with
  | |- context [run_page_with always_drawn env ses (search_block ip format_4f ?x) ?hist ?s] =>
      pose proof (search_block_gets ip format_4f always_drawn env ses x hist s) as Hgets;
      destruct (run_page_with always_drawn env ses (search_block ip format_4f x) hist s)
        as [[o s'] t]
  end.
  rewrite (encode_url env _ _ _ Hurl) in Hgets.
  unfold page_trace, trace_of in *. cbn [snd map filter is_requests_get] in Hgets.
  cbn [snd]. rewrite !filter_app, Hgets. reflexivity.
Qed.

Lemma url_is_fetched_twice_witness :
  filter is_requests_get
    (page_trace (run_page (scripted sunset)
                   (visitor None "https://example.com/sunset.jpg" true)
                   (main host four_places) [] fresh_app))
  = [ Core (Ext (RequestsGet "https://example.com/sunset.jpg"));
      Core (Ext (RequestsGet "https://example.com/sunset.jpg")) ].
Proof.
  apply (url_is_fetched_twice host four_places (scripted sunset)
           (visitor None "https://example.com/sunset.jpg" true) fresh_app songs
           {| status_code := 200; resp_content := sunset_image;
              resp_json := Raised not_json |});
    reflexivity.
Defined.

(** X17: when the typed URL cannot be fetched, or what was fetched is no
    image, [main] shows one fixed message, whatever the exception was, and
    ends: no button is offered and the pipeline is not run. *)
Theorem preview_failure_shows_fixed_message :
  forall ip format_4f (env : environment) ses self h,
    ses_upload ses = None ->
    str_truth (ses_url ses) = true ->
    env [] (PineconeIndex "songs") = Returned h ->
    (forall e,
       env (boot h) (RequestsGet (ses_url ses)) = Raised e ->
       run_page env ses (main ip format_4f) [] self
       = (Returned tt, {| index := Some h |},
          page_preamble h
          ++ [ Core (Ext (RequestsGet (ses_url ses)));
               Draw (StError
                 "Error loading image from URL. Please check the URL and try again.") ]))
    /\ (forall (response : http_response) e,
          env (boot h) (RequestsGet (ses_url ses)) = Returned response ->
          ses_image_open ses (resp_content response) = Raised e ->
          run_page env ses (main ip format_4f) [] self
          = (Returned tt, {| index := Some h |},
             page_preamble h
             ++ [ Core (Ext (RequestsGet (ses_url ses)));
                  ImageOpen (resp_content response);
                  Draw (StError
                    "Error loading image from URL. Please check the URL and try again.") ])).
Proof.
  intros ip format_4f env ses self h Hupload Htyped Hindex.
  unfold run_page.
  assert (Hrun : run_page_with always_drawn env ses (main ip format_4f) [] self
                 = let '(o, s, t) :=
                     run_page_with always_drawn env ses (url_branch ip format_4f (ses_url ses))
                       (page_preamble h) {| index := Some h |} in
                   (o, s, page_preamble h ++ t)).
  { rewrite main_run, Hindex. unfold dispatch. rewrite Hupload, Htyped.
    reflexivity. }
  rewrite Hrun, url_branch_run, core_calls_preamble.
  split.
  - intros e Hget. rewrite Hget. reflexivity.
  - intros response e Hget Himg. rewrite Hget. cbv zeta. rewrite Himg. reflexivity.
Qed.

Lemma preview_failure_shows_fixed_message_witness :
  run_page (scripted (with_get sunset (Returned not_found)))
    {| ses_upload := None; ses_url := "https://example.com/missing.jpg";
       ses_clicked := fun _ => true;
       ses_image_open := fun _ => Raised cannot_identify |}
    (main host four_places) [] fresh_app
  = (Returned tt, {| index := Some songs |},
     page_preamble songs
     ++ [ Core (Ext (RequestsGet "https://example.com/missing.jpg"));
          ImageOpen (list_byte_of_string "Not Found");
          Draw (StError
            "Error loading image from URL. Please check the URL and try again.") ]).
Proof.
  destruct (preview_failure_shows_fixed_message host four_places
              (scripted (with_get sunset (Returned not_found)))
              {| ses_upload := None; ses_url := "https://example.com/missing.jpg";
                 ses_clicked := fun _ => true;
                 ses_image_open := fun _ => Raised cannot_identify |}
              fresh_app songs)
    as [_ Hbad]; [reflexivity | reflexivity | reflexivity |].
  apply (Hbad not_found cannot_identify); reflexivity.
Defined.


(** The run of [main] on an uploaded file whose button is clicked. *)
Lemma main_upload_clicked ip format_4f shows (env : environment) ses self h f :
  shows (UploadedImage f) = Returned tt ->
  ses_upload ses = Some f ->
  ses_clicked ses "Find Matching Songs (Uploaded Image)" = true ->
  env [] (PineconeIndex "songs") = Returned h ->
  let shown :=
    [ Draw (StImage (UploadedImage f) "Uploaded Image" true);
      Ask (Button "Find Matching Songs (Uploaded Image)") ] in
  run_page_with shows env ses (main ip format_4f) [] self
  = match run env (process_image ip (ObjFile f)) (boot h) {| index := Some h |} with
    | (Raised e, s, t) =>
        (Returned tt, s,
         page_preamble h ++ shown
         ++ Draw (Enter spinner) :: map Core t
         ++ [Draw (StError ("Error: " ++ str_exn e)); Draw (Leave spinner)])
    | (Returned results, s, t) =>
        match run_page_with shows env ses (display_results format_4f results)
                ((page_preamble h ++ shown) ++ Draw (Enter spinner) :: map Core t) s with
        | (Returned _, s', t') =>
            (Returned tt, s',
             page_preamble h ++ shown
             ++ Draw (Enter spinner) :: map Core t ++ t' ++ [Draw (Leave spinner)])
        | (Raised e, s', t') =>
            (Returned tt, s',
             page_preamble h ++ shown
             ++ Draw (Enter spinner) :: map Core t ++ t'
             ++ [Draw (StError ("Error: " ++ str_exn e)); Draw (Leave spinner)])
        end
    end.
Proof.
  intros Hshown Hupload Hclick Hindex shown.
  rewrite main_run, Hindex. unfold dispatch.
  rewrite Hupload, uploaded_branch_run, Hshown, Hclick. cbv zeta.
  rewrite search_block_run.
  fold shown.
  replace (core_calls (page_preamble h ++ shown)) with (boot h)
    by (rewrite core_calls_app; reflexivity).
  destruct (run env (process_image ip (ObjFile f)) (boot h) {| index := Some h |})
    as [[[results | e] s] t].
  - destruct (run_page_with shows env ses (display_results format_4f results)
                ((page_preamble h ++ shown) ++ Draw (Enter spinner) :: map Core t) s)
      as [[[[] | e] s'] t']; reflexivity.
  - reflexivity.
Qed.

(** X18: when the pipeline fails, the page shows its message as it is,
    after the text [Error: ], inside the spinner, and shows no result;
    [main] itself ends normally. *)
Theorem pipeline_error_is_shown :
  forall ip format_4f (env : environment) ses self h f x s t,
    ses_upload ses = Some f ->
    ses_clicked ses "Find Matching Songs (Uploaded Image)" = true ->
    env [] (PineconeIndex "songs") = Returned h ->
    run env (process_image ip (ObjFile f)) (boot h) {| index := Some h |}
    = (Raised x, s, t) ->
    run_page env ses (main ip format_4f) [] self
    = (Returned tt, s,
       page_preamble h
       ++ [ Draw (StImage (UploadedImage f) "Uploaded Image" true);
            Ask (Button "Find Matching Songs (Uploaded Image)");
            Draw (Enter (Spinner "Processing image...")) ]
       ++ map Core t
       ++ [ Draw (StError ("Error: " ++ str_exn x));
            Draw (Leave (Spinner "Processing image...")) ]).
Proof.
  intros ip format_4f env ses self h f x s t Hupload Hclick Hindex Hrun.
  unfold run_page.
  rewrite (main_upload_clicked ip format_4f always_drawn env ses self h f eq_refl
             Hupload Hclick Hindex).
  rewrite Hrun. reflexivity.
Qed.

Lemma pipeline_error_is_shown_witness :
  run_page (scripted (with_post sunset (Raised connection_error)))
    (visitor (Some (Stream 3)) "" true) (main host four_places) [] fresh_app
  = (Returned tt, app,
     page_preamble songs
     ++ [ Draw (StImage (UploadedImage (Stream 3)) "Uploaded Image" true);
          Ask (Button "Find Matching Songs (Uploaded Image)");
          Draw (Enter (Spinner "Processing image...")) ]
     ++ map Core
          [ Ext (StreamRead (Stream 3));
            Ext (ChatCreate (caption_request (encode_image sunset_image)));
            Ext (embed_request host sunset_description) ]
     ++ [ Draw (StError
            "Error: Error processing image: Error generating embedding: Max retries exceeded");
          Draw (Leave (Spinner "Processing image...")) ]).
Proof.
  apply (pipeline_error_is_shown host four_places
           (scripted (with_post sunset (Raised connection_error)))
           (visitor (Some (Stream 3)) "" true) fresh_app songs (Stream 3)
           (Exception
              "Error processing image: Error generating embedding: Max retries exceeded")
           app
           [ Ext (StreamRead (Stream 3));
             Ext (ChatCreate (caption_request (encode_image sunset_image)));
             Ext (embed_request host sunset_description) ]).
  - reflexivity.
  - reflexivity.
  - reflexivity.
  - vm_compute. reflexivity.
Defined.

(** X19: [main] gives the typed text to the pipeline as it is.  A text
    that [requests.get] could fetch for the preview but that does not start
    with [http://] or [https://] in lower case is then opened by the loader
    as a local file: the page makes one GET only, and one [open]. *)
Theorem other_scheme_is_opened_as_file :
  forall ip format_4f (env : environment) ses self h (response : http_response),
    ses_upload ses = None ->
    str_truth (ses_url ses) = true ->
    startswith (ses_url ses) ["http://"; "https://"] = false ->
    env [] (PineconeIndex "songs") = Returned h ->
    env (boot h) (RequestsGet (ses_url ses)) = Returned response ->
    ses_image_open ses (resp_content response) = Returned tt ->
    ses_clicked ses "Find Matching Songs (Image URL)" = true ->
    filter is_requests_get
      (page_trace (run_page env ses (main ip format_4f) [] self))
    = [Core (Ext (RequestsGet (ses_url ses)))]
    /\ In (Core (Ext (OpenRead (ObjStr (ses_url ses)))))
         (page_trace (run_page env ses (main ip format_4f) [] self)).
Proof.
  intros ip format_4f env ses self h response
         Hupload Htyped Hurl Hindex Hget Himg Hclick.
  unfold run_page.
  rewrite main_run, Hindex.
  unfold dispatch.
  rewrite Hupload, Htyped, url_branch_run.
  rewrite core_calls_preamble, Hget. cbv zeta. rewrite Himg.
  cbn [always_drawn]. rewrite Hclick.
  match goal with
  | |- context [run_page_with always_drawn env ses (search_block ip format_4f ?x) ?hist ?s] =>
      pose proof (search_block_gets ip format_4f always_drawn env ses x hist s) as Hgets;
      pose proof (search_block_run ip format_4f always_drawn env ses x hist s) as Hblock;
      destruct (process_trace_shape env ip x (core_calls hist) s)
        as [c [rest [Henc [Hproc _]]]];
      rewrite (encode_path_str env _ _ _ Hurl) in Hgets, Henc;
      destruct (run_page_with always_drawn env ses (search_block ip format_4f x) hist s)
        as [[o s'] t]
  end.
  unfold page_trace, trace_of in *. cbn [snd map filter is_requests_get] in Hgets.
  cbn [snd] in Henc. injection Henc as <-.
  cbn [snd]. split.
  - rewrite !filter_app, Hgets. reflexivity.
  - apply in_or_app. right. apply in_or_app. right.
    match type of Hblock with
    | context [run env (process_image ip ?x) ?hist ?s] =>
        destruct (run env (process_image ip x) hist s) as [[[results | e] s1] t1]
    end; cbn [snd] in Hproc; subst t1.
    + match type of Hblock with
      | context [run_page_with always_drawn env ses (display_results format_4f results) ?hist ?s] =>
          destruct (run_page_with always_drawn env ses (display_results format_4f results) hist s)
            as [[[[] | e] s2] t2]
      end; injection Hblock as _ _ ->; right; left; reflexivity.
    + injection Hblock as _ _ ->. right. left. reflexivity.
Qed.

Lemma other_scheme_is_opened_as_file_witness :
  filter is_requests_get
    (page_trace (run_page (scripted sunset) (visitor None upper_case_url true)
                   (main host four_places) [] fresh_app))
  = [Core (Ext (RequestsGet upper_case_url))]
  /\ In (Core (Ext (OpenRead (ObjStr upper_case_url))))
       (page_trace (run_page (scripted sunset) (visitor None upper_case_url true)
                      (main host four_places) [] fresh_app)).
Proof.
  apply (other_scheme_is_opened_as_file host four_places (scripted sunset)
           (visitor None upper_case_url true) fresh_app songs
           {| status_code := 200; resp_content := sunset_image;
              resp_json := Raised not_json |});
    reflexivity.
Defined.

(** X20: a match whose metadata lack [song], [artist] or [link] does not
    end [main]: the matches before it are shown, its expander stays empty,
    and the [KeyError] is shown as [Error: ] followed by the key in quotes;
    the matches after it are not shown. *)
Theorem missing_metadata_is_shown_as_error :
  forall ip format_4f (env : environment) ses self h f results s t
         before bodies m after key,
    ses_upload ses = Some f ->
    ses_clicked ses "Find Matching Songs (Uploaded Image)" = true ->
    env [] (PineconeIndex "songs") = Returned h ->
    run env (process_image ip (ObjFile f)) (boot h) {| index := Some h |}
    = (Returned results, s, t) ->
    matches results = before ++ m :: after ->
    Forall2 presents before bodies ->
    misses m key ->
    run_page env ses (main ip format_4f) [] self
    = (Returned tt, s,
       page_preamble h
       ++ [ Draw (StImage (UploadedImage f) "Uploaded Image" true);
            Ask (Button "Find Matching Songs (Uploaded Image)");
            Draw (Enter (Spinner "Processing image...")) ]
       ++ map Core t
       ++ [ Draw (StSubheader "Image Description");
            Draw (StWrite (description results));
            Draw (StSubheader "Matching Songs") ]
       ++ panels format_4f 1 before bodies
       ++ empty_panel format_4f (S (List.length before)) m
       ++ [ Draw (StError ("Error: '" ++ key ++ "'"));
            Draw (Leave (Spinner "Processing image...")) ]).
Proof.
  intros ip format_4f env ses self h f results s t before bodies m after key
         Hupload Hclick Hindex Hrun Hsplit Hbefore Hmiss.
  unfold run_page.
  rewrite (main_upload_clicked ip format_4f always_drawn env ses self h f eq_refl
             Hupload Hclick Hindex).
  rewrite Hrun.
  rewrite display_results_run, Hsplit.
  rewrite (display_matches_raises format_4f always_drawn env ses before bodies 1 m after _ _ s
             Hbefore (match_json_misses m key Hmiss)).
  unfold results_header. rewrite <- !app_assoc. reflexivity.
Qed.

Lemma missing_metadata_is_shown_as_error_witness :
  page_result (run_page (scripted (with_query sunset (Returned with_untitled)))
                 (visitor (Some (Stream 3)) "" true)
                 (main host four_places) [] fresh_app)
  = Returned tt
  /\ filter (fun c => match c with Draw (StError _) => true | _ => false end)
       (page_trace (run_page (scripted (with_query sunset (Returned with_untitled)))
                      (visitor (Some (Stream 3)) "" true)
                      (main host four_places) [] fresh_app))
     = [Draw (StError "Error: 'song'")].
Proof.
  rewrite (missing_metadata_is_shown_as_error host four_places
             (scripted (with_query sunset (Returned with_untitled)))
             (visitor (Some (Stream 3)) "" true) fresh_app songs (Stream 3)
             {| description := sunset_description;
                matches := [here_comes_the_sun; untitled; let_it_be] |}
             app
             [ Ext (StreamRead (Stream 3));
               Ext (ChatCreate (caption_request (encode_image sunset_image)));
               Ext (embed_request host sunset_description);
               Print (PrintedVal (PDict [("embedding", sunset_vector)]));
               GetSelfIndex;
               Ext (IndexQuery songs sunset_vector 5 true);
               Print (PrintedMatches [here_comes_the_sun; untitled; let_it_be]) ]
             [here_comes_the_sun]
             [ entries "Here Comes the Sun" "The Beatles"
                 (PStr "https://example.com/here-comes-the-sun") ]
             untitled [let_it_be] "song").
  - split; vm_compute; reflexivity.
  - reflexivity.
  - reflexivity.
  - reflexivity.
  - vm_compute. reflexivity.
  - reflexivity.
  - apply Forall2_cons; [| apply Forall2_nil].
    apply presents_entries; holds_member.
  - apply misses_song. lacks_key.
Defined.

(** X21: when the pipeline returns and the metadata of every match hold a
    title and an artist that are [str] and a link, the page shows, inside
    the spinner and after the calls of the pipeline, the description and one
    expander per match with its four entries, and no error. *)
Theorem page_shows_results :
  forall ip format_4f (env : environment) ses self h f results s t bodies,
    ses_upload ses = Some f ->
    ses_clicked ses "Find Matching Songs (Uploaded Image)" = true ->
    env [] (PineconeIndex "songs") = Returned h ->
    run env (process_image ip (ObjFile f)) (boot h) {| index := Some h |}
    = (Returned results, s, t) ->
    Forall2 presents (matches results) bodies ->
    run_page env ses (main ip format_4f) [] self
    = (Returned tt, s,
       page_preamble h
       ++ [ Draw (StImage (UploadedImage f) "Uploaded Image" true);
            Ask (Button "Find Matching Songs (Uploaded Image)");
            Draw (Enter (Spinner "Processing image...")) ]
       ++ map Core t
       ++ [ Draw (StSubheader "Image Description");
            Draw (StWrite (description results));
            Draw (StSubheader "Matching Songs") ]
       ++ panels format_4f 1 (matches results) bodies
       ++ [Draw (Leave (Spinner "Processing image..."))]).
Proof.
  intros ip format_4f env ses self h f results s t bodies
         Hupload Hclick Hindex Hrun Hall.
  unfold run_page.
  rewrite (main_upload_clicked ip format_4f always_drawn env ses self h f eq_refl
             Hupload Hclick Hindex).
  rewrite Hrun.
  rewrite display_results_run.
  rewrite (display_matches_presents format_4f always_drawn env ses (matches results) bodies 1 _ s
             Hall).
  unfold results_header. rewrite <- !app_assoc. reflexivity.
Qed.

Lemma page_shows_results_witness :
  page_result (run_page (scripted sunset) (visitor (Some (Stream 3)) "" true)
                 (main host four_places) [] fresh_app)
  = Returned tt
  /\ filter (fun c => match c with Draw (StJson _) => true | _ => false end)
       (page_trace (run_page (scripted sunset) (visitor (Some (Stream 3)) "" true)
                      (main host four_places) [] fresh_app))
     = [ Draw (StJson [ ("google-search", PStr "Here Comes the Sun by The Beatles");
                        ("song", PStr "Here Comes the Sun");
                        ("artist", PStr "The Beatles");
                        ("link", PStr "https://example.com/here-comes-the-sun") ]) ].
Proof.
  rewrite (page_shows_results host four_places (scripted sunset)
             (visitor (Some (Stream 3)) "" true) fresh_app songs (Stream 3)
             {| description := sunset_description;
                matches := [here_comes_the_sun] |}
             app
             [ Ext (StreamRead (Stream 3));
               Ext (ChatCreate (caption_request (encode_image sunset_image)));
               Ext (embed_request host sunset_description);
               Print (PrintedVal (PDict [("embedding", sunset_vector)]));
               GetSelfIndex;
               Ext (IndexQuery songs sunset_vector 5 true);
               Print (PrintedMatches [here_comes_the_sun]) ]
             [ entries "Here Comes the Sun" "The Beatles"
                 (PStr "https://example.com/here-comes-the-sun") ]).
  - split; vm_compute; reflexivity.
  - reflexivity.
  - reflexivity.
  - reflexivity.
  - vm_compute. reflexivity.
  - apply Forall2_cons; [| apply Forall2_nil].
    apply presents_entries; holds_member.
Defined.


(** The block under a button ends normally and leaves [self] as it was. *)
Lemma search_block_ends ip format_4f shows env ses x hist self :
  page_result (run_page_with shows env ses (search_block ip format_4f x) hist self) = Returned tt
  /\ page_self (run_page_with shows env ses (search_block ip format_4f x) hist self) = self.
Proof.
  rewrite search_block_run.
  pose proof (read_only_run env (process_image ip x) (core_calls hist) self
                (process_read_only ip x)) as Hself.
  destruct (run env (process_image ip x) (core_calls hist) self)
    as [[[results | e] s] t];
    unfold self_of in Hself; cbn [fst snd] in Hself; subst s.
  - match goal with
    | |- context [run_page_with shows env ses (display_results format_4f results) ?h self] =>
        destruct (display_results_draws format_4f shows env ses results h self) as [Hs _];
        destruct (run_page_with shows env ses (display_results format_4f results) h self)
          as [[[[] | e] s'] t']
    end; unfold page_self in Hs; cbn [fst snd] in Hs; subst s'; split; reflexivity.
  - split; reflexivity.
Qed.

(** The branch of [main] on the inputs leaves [self] as it was.  It ends
    normally, unless a file was uploaded that [st.image] cannot draw: then
    it ends with the exception of [st.image], right after that call. *)
Lemma dispatch_ends shows ip format_4f env ses hist self :
  page_self (run_page_with shows env ses (dispatch ip format_4f ses) hist self) = self
  /\ match ses_upload ses with
     | Some f =>
         match shows (UploadedImage f) with
         | Raised e =>
             run_page_with shows env ses (dispatch ip format_4f ses) hist self
             = (Raised e, self,
                [Draw (StImage (UploadedImage f) "Uploaded Image" true)])
         | Returned _ =>
             page_result
               (run_page_with shows env ses (dispatch ip format_4f ses) hist self)
             = Returned tt
         end
     | None =>
         page_result
           (run_page_with shows env ses (dispatch ip format_4f ses) hist self)
         = Returned tt
     end.
Proof.
  unfold dispatch.
  destruct (ses_upload ses) as [f |].
  - rewrite uploaded_branch_run.
    destruct (shows (UploadedImage f)) as [[] | e]; [| split; reflexivity].
    cbv zeta.
    destruct (ses_clicked ses "Find Matching Songs (Uploaded Image)");
      [| split; reflexivity].
    match goal with
    | |- context [run_page_with shows env ses (search_block ip format_4f ?x) ?h ?s] =>
        destruct (search_block_ends ip format_4f shows env ses x h s) as [Ho Hs];
        destruct (run_page_with shows env ses (search_block ip format_4f x) h s)
          as [[o s'] t]
    end.
    unfold page_result, page_self in *. cbn [fst snd] in *. subst o s'.
    split; reflexivity.
  - destruct (str_truth (ses_url ses)); [| split; reflexivity].
    rewrite url_branch_run.
    destruct (env (core_calls hist) (RequestsGet (ses_url ses)))
      as [response | e]; [| split; reflexivity].
    cbv zeta.
    destruct (ses_image_open ses (resp_content response)) as [[] | e];
      [| split; reflexivity].
    destruct (shows (OpenedImage (resp_content response))) as [[] | e];
      [| split; reflexivity].
    destruct (ses_clicked ses "Find Matching Songs (Image URL)");
      [| split; reflexivity].
    match goal with
    | |- context [run_page_with shows env ses (search_block ip format_4f ?x) ?h ?s] =>
        destruct (search_block_ends ip format_4f shows env ses x h s) as [Ho Hs];
        destruct (run_page_with shows env ses (search_block ip format_4f x) h s)
          as [[o s'] t]
    end.
    unfold page_result, page_self in *. cbn [fst snd] in *. subst o s'.
    split; reflexivity.
Qed.

(** X22: once the constructor has obtained the index, the one exception
    that can leave [main] is that of [st.image] on the uploaded file, a call
    outside every [try]: [main] then ends with that exception right after
    the call, before a button is offered.  In every other case, whatever
    the visitor types or clicks, whatever the services answer, and also
    when [st.image] cannot draw what was fetched from the URL, [main] ends
    normally: every failure of the preview, the pipeline or the display ends
    as a message on the page.  In all cases the object holds the handle the
    constructor stored. *)
Theorem main_ends_normally :
  forall shows ip format_4f (env : environment) ses self h,
    env [] (PineconeIndex "songs") = Returned h ->
    page_self (run_page_with shows env ses (main ip format_4f) [] self)
    = {| index := Some h |}
    /\ (forall f e,
          ses_upload ses = Some f ->
          shows (UploadedImage f) = Raised e ->
          run_page_with shows env ses (main ip format_4f) [] self
          = (Raised e, {| index := Some h |},
             page_preamble h
             ++ [Draw (StImage (UploadedImage f) "Uploaded Image" true)]))
    /\ ((forall f, ses_upload ses = Some f -> shows (UploadedImage f) = Returned tt) ->
        page_result (run_page_with shows env ses (main ip format_4f) [] self)
        = Returned tt).
Proof.
  intros shows ip format_4f env ses self h Hindex.
  rewrite main_run, Hindex.
  destruct (dispatch_ends shows ip format_4f env ses (page_preamble h)
              {| index := Some h |}) as [Hself Hresult].
  destruct (run_page_with shows env ses (dispatch ip format_4f ses) (page_preamble h)
              {| index := Some h |}) as [[o s] t].
  unfold page_result, page_self in *. cbn [fst snd] in *. subst s.
  split; [reflexivity |]. split.
  - intros f e Hupload Hshown. rewrite Hupload, Hshown in Hresult.
    injection Hresult as -> ->. reflexivity.
  - intro Hdrawn.
    destruct (ses_upload ses) as [f |]; [| exact Hresult].
    rewrite (Hdrawn f eq_refl) in Hresult. exact Hresult.
Qed.

Lemma main_ends_normally_witness :
  run_page_with upload_is_no_image (scripted sunset)
    (visitor (Some (Stream 3)) "" true) (main host four_places) [] fresh_app
  = (Raised cannot_identify, {| index := Some songs |},
     page_preamble songs
     ++ [Draw (StImage (UploadedImage (Stream 3)) "Uploaded Image" true)])
  /\ page_result
       (run_page_with always_drawn
          (scripted (with_chat sunset (Raised connection_error)))
          (visitor (Some (Stream 3)) "" true) (main host four_places) [] fresh_app)
     = Returned tt.
Proof.
  split.
  - destruct (main_ends_normally upload_is_no_image host four_places
                (scripted sunset) (visitor (Some (Stream 3)) "" true)
                fresh_app songs eq_refl)
      as [_ [Hraises _]].
    apply (Hraises (Stream 3) cannot_identify); reflexivity.
  - destruct (main_ends_normally always_drawn host four_places
                (scripted (with_chat sunset (Raised connection_error)))
                (visitor (Some (Stream 3)) "" true) fresh_app songs eq_refl)
      as [_ [_ Hends]].
    apply Hends. intros f _. reflexivity.
Defined.
